(** * pcarpet: carpet extraction, row-wise correlation and PCA sign fixing

    A shallow embedding of [pcarpet/pcarpet.py].  numpy's float64 values are
    idealised as real numbers extended with a NaN value; arrays are kept as
    row-major lists together with their shape, the way numpy stores them.
    Methods of the [Dataset] class mutate [self] and write files, so they
    are embedded in a small state-and-exception monad.  What depends on
    rounding or overflow is outside the idealisation: for that,
    [pearsonr_2d] is embedded a second time, on IEEE binary64 numbers
    (module [Binary64]). *)

From Stdlib Require Import Floats.
From Stdlib Require Import String ZArith DecimalString DecimalNat.
From Stdlib Require Import Reals Lra Lia List Arith Bool Permutation Sorted.
Import ListNotations.
Open Scope R_scope.
Set Warnings "-inexact-float".

(** ** Python exceptions *)

Inductive exn : Type :=
| ValueError (msg : string)
| IndexError (msg : string)
| AxisError (msg : string)
| TypeError (msg : string)
| AttributeError (msg : string)
| UnboundLocalError (msg : string)
| ImageFileError (msg : string).

Inductive result (A : Type) : Type :=
| Ok (a : A)
| Raise (e : exn).

Arguments Ok {A} a.
Arguments Raise {A} e.

Definition rbind {A B : Type} (r : result A) (k : A -> result B) : result B :=
  match r with
  | Ok a => k a
  | Raise e => Raise e
  end.

(** ** Idealised float64 scalars

    A finite value is a real number.  [NaN] is what numpy produces for
    [0/0] and it is absorbing for every arithmetic operation.  A non-zero
    value divided by zero is an IEEE infinity; the model has no separate
    value for it and maps it to [NaN] as well.  On finite inputs the
    program never forms such a quotient: its divisors are element counts,
    a standard deviation plus [EPSILON], a square root plus [EPSILON], or a
    standard deviation that is zero only when the dividend is zero too.

    Every operation is exact and unbounded here: there is no rounding and
    no overflow.  Statements over this model are statements about the
    arithmetic the code asks for, not about the last digits it gets. *)

Inductive float64 : Type :=
| Fin (r : R)
| NaN.

Definition fadd (a b : float64) : float64 :=
  match a, b with
  | Fin x, Fin y => Fin (x + y)
  | _, _ => NaN
  end.

Definition fsub (a b : float64) : float64 :=
  match a, b with
  | Fin x, Fin y => Fin (x - y)
  | _, _ => NaN
  end.

Definition fmul (a b : float64) : float64 :=
  match a, b with
  | Fin x, Fin y => Fin (x * y)
  | _, _ => NaN
  end.

Definition fdiv (a b : float64) : float64 :=
  match a, b with
  | Fin x, Fin y => if Req_dec_T y 0 then NaN else Fin (x / y)
  | _, _ => NaN
  end.

Definition fneg (a : float64) : float64 :=
  match a with
  | Fin x => Fin (- x)
  | NaN => NaN
  end.

(** [np.sqrt]: NaN for a negative argument. *)
Definition fsqrt (a : float64) : float64 :=
  match a with
  | Fin x => if Rlt_dec x 0 then NaN else Fin (sqrt x)
  | NaN => NaN
  end.

(** [a < b] on floats: every comparison with NaN is False. *)
Definition fltb (a b : float64) : bool :=
  match a, b with
  | Fin x, Fin y => if Rlt_dec x y then true else false
  | _, _ => false
  end.

Definition is_finite (a : float64) : bool :=
  match a with
  | Fin _ => true
  | NaN => false
  end.

(** [.sum()] and [.mean()] of a 1-d slice. *)
Definition fsum (l : list float64) : float64 := fold_right fadd (Fin 0) l.

Definition fmean (l : list float64) : float64 :=
  fdiv (fsum l) (Fin (INR (length l))).

(** [.std()] with the default [ddof=0]. *)
Definition fstd (l : list float64) : float64 :=
  fsqrt (fmean (map (fun a => fmul (fsub a (fmean l)) (fsub a (fmean l))) l)).

(** The same quantities on real numbers, used to state results. *)
Definition Rsum (l : list R) : R := fold_right Rplus 0 l.

Definition Rmean (l : list R) : R := Rsum l / INR (length l).

Definition center (l : list R) : list R := map (fun a => a - Rmean l) l.

Definition sumsq (l : list R) : R := Rsum (map (fun a => a * a) l).

Definition Rdot (u v : list R) : R :=
  Rsum (map (fun p => fst p * snd p) (combine u v)).

Definition Rstd (l : list R) : R := sqrt (sumsq (center l) / INR (length l)).

(** ** Two-dimensional arrays

    The column count is kept beside the rows because an array with no rows
    still has one, and [np.dot] checks it. *)

Record array2 : Type := mk2 { ncol : nat; rows : list (list float64) }.

Definition nrow (a : array2) : nat := length (rows a).

Definition wf2 (a : array2) : Prop :=
  Forall (fun r => length r = ncol a) (rows a).

Definition entry (a : array2) (i j : nat) : float64 :=
  nth j (nth i (rows a) []) NaN.

(** A real matrix with [T] columns as a float64 array. *)
Definition of_reals (T : nat) (A : list (list R)) : array2 :=
  mk2 T (map (map Fin) A).

(** [a.T] *)
Definition transpose (a : array2) : array2 :=
  mk2 (nrow a)
      (map (fun k => map (fun r => nth k r NaN) (rows a)) (seq 0 (ncol a))).

(** [v[:, None]] and [v[None]] for a 1-d array [v]. *)
Definition col_vec (v : list float64) : array2 := mk2 1 (map (fun a => [a]) v).

Definition row_vec (v : list float64) : array2 := mk2 (length v) [v].

Definition vdot (u v : list float64) : float64 :=
  fsum (map (fun p => fmul (fst p) (snd p)) (combine u v)).

(** [np.dot(a, b)] for 2-d arrays: a matrix product, a [ValueError] when
    the inner dimensions differ. *)
Definition np_dot (a b : array2) : result array2 :=
  if (ncol a =? nrow b)%nat then
    Ok (mk2 (ncol b)
            (map (fun r => map (fun c => vdot r c) (rows (transpose b)))
                 (rows a)))
  else Raise (ValueError "shapes not aligned").

(** Element-wise operations on arrays of one shape. *)
Definition map2 (f : float64 -> float64 -> float64) (a b : array2) : array2 :=
  mk2 (ncol a)
      (map (fun p => map (fun q => f (fst q) (snd q)) (combine (fst p) (snd p)))
           (combine (rows a) (rows b))).

Definition amap (f : float64 -> float64) (a : array2) : array2 :=
  mk2 (ncol a) (map (map f) (rows a)).

(** ** [pearsonr_2d] *)

(** Small value added to some denominators to avoid zero division. *)
Definition EPSILON : R := 1e-9.

(** [A - A.mean(1)[:, None]] *)
Definition sub_row_mean (A : array2) : array2 :=
  mk2 (ncol A) (map (fun r => map (fun a => fsub a (fmean r)) r) (rows A)).

(** [(A ** 2).sum(1)] *)
Definition sum_sq_rows (A : array2) : list float64 :=
  map (fun r => fsum (map (fun a => fmul a a) r)) (rows A).

(** The locals [numerator] and [denominator] of [pearsonr_2d]. *)
Definition pearsonr_numerator (A B : array2) : result array2 :=
  let A_mA := sub_row_mean A in
  let B_mB := sub_row_mean B in
  np_dot A_mA (transpose B_mB).

Definition pearsonr_denominator (A B : array2) : result array2 :=
  let A_mA := sub_row_mean A in
  let B_mB := sub_row_mean B in
  let ssA := sum_sq_rows A_mA in
  let ssB := sum_sq_rows B_mB in
  rbind (np_dot (col_vec ssA) (row_vec ssB)) (fun outer =>
  Ok (amap (fun d => fadd (fsqrt d) (Fin EPSILON)) outer)).

Definition pearsonr_2d (A B : array2) : result array2 :=
  rbind (pearsonr_numerator A B) (fun numerator =>
  rbind (pearsonr_denominator A B) (fun denominator =>
  Ok (map2 fdiv numerator denominator))).

(** The entry the contract asks for: the row-wise Pearson correlation with
    [EPSILON] added to the denominator. *)
Definition pearson_eps (a b : list R) : R :=
  Rdot (center a) (center b)
  / (sqrt (sumsq (center a) * sumsq (center b)) + EPSILON).

(** A row all of whose entries are equal. *)
Definition constant_row (r : list R) : Prop := exists c, r = repeat c (length r).

(** ** [pearsonr_2d] on IEEE binary64 numbers

    The same function, line by line, on the kernel's binary64 floats, to
    run it with the rounding and the overflow the idealisation leaves out.
    Arrays are lists of rows of a common length.  A sum adds from left to
    right; numpy does so for a row of fewer than 8 elements, and the
    matrix product may add its products in another order or fused.  The
    statements made with this module use rows of two or three elements on
    which every such order gives the same value. *)
Module Binary64.

Definition of_nat (n : nat) : float := PrimFloat.of_uint63 (Uint63.of_Z (Z.of_nat n)).

(** [.sum()] and [.mean()] of a 1-d slice. *)
Definition sum (l : list float) : float := fold_left PrimFloat.add l 0%float.

Definition mean (l : list float) : float := PrimFloat.div (sum l) (of_nat (length l)).

(** [A - A.mean(1)[:, None]] *)
Definition sub_row_mean (A : list (list float)) : list (list float) :=
  map (fun r => map (fun a => PrimFloat.sub a (mean r)) r) A.

(** [(A ** 2).sum(1)] *)
Definition sum_sq_rows (A : list (list float)) : list float :=
  map (fun r => sum (map (fun a => PrimFloat.mul a a) r)) A.

(** One entry of [np.dot]. *)
Definition vdot (u v : list float) : float :=
  sum (map (fun p => PrimFloat.mul (fst p) (snd p)) (combine u v)).

Definition EPSILON : float := 1e-9%float.

(** The locals [numerator] and [denominator] of [pearsonr_2d]. *)
Definition pearsonr_numerator (A B : list (list float)) : list (list float) :=
  let A_mA := sub_row_mean A in
  let B_mB := sub_row_mean B in
  map (fun a => map (fun b => vdot a b) B_mB) A_mA.

Definition pearsonr_denominator (A B : list (list float)) : list (list float) :=
  let A_mA := sub_row_mean A in
  let B_mB := sub_row_mean B in
  let ssA := sum_sq_rows A_mA in
  let ssB := sum_sq_rows B_mB in
  map (fun sa => map (fun sb => PrimFloat.add (PrimFloat.sqrt (vdot [sa] [sb])) EPSILON) ssB)
      ssA.

Definition pearsonr_2d (A B : list (list float)) : list (list float) :=
  map (fun p => map (fun q => PrimFloat.div (fst q) (snd q)) (combine (fst p) (snd p)))
      (combine (pearsonr_numerator A B) (pearsonr_denominator A B)).

End Binary64.

(** ** n-dimensional arrays read from NIFTI files

    [get_fdata()] gives an array of samples: its shape and its values in
    row-major (C) order. *)

Record ndarray : Type := mknd { shape : list nat; flat : list R }.

Definition size (s : list nat) : nat := fold_right Nat.mul 1%nat s.

Definition wf_nd (a : ndarray) : Prop := length (flat a) = size (shape a).

Record nifti : Type := mknifti { get_fdata : ndarray; header : string; affine : list R }.

(** What the file system holds at a path, as [import_data] sees it:
    [os.path.isfile] is false; [nib.load] raises [IOError] (an unreadable
    or truncated file), which the method catches; [nib.load] raises
    something else, which it does not catch (nibabel's [ImageFileError]
    for a file that is not an image, which is no [IOError]); or an image
    is loaded. *)
Inductive file_status : Type :=
| NoFile
| LoadIOError
| LoadRaises (e : exn)
| Loaded (img : nifti).

(** ** The [Dataset] object and the output directory *)

(** A table with named columns ([pd.DataFrame]), and the report table. *)
Definition DataFrame : Type := list (string * list float64).

Record Report : Type := mkreport {
  report_PC : list string;
  report_expl_var : list float64;
  report_carpet_R_median : list float64 }.

Inductive artifact : Type :=
| NpyArray (a : array2)
| NpyVector (v : list float64)
| CsvTable (df : DataFrame)
| CsvReport (r : Report).

(** Attributes assigned by a later method are absent until then. *)
Record Dataset : Type := mkDataset {
  fmri_file : string;
  mask_file : string;
  TR : R;
  output_dir : string;
  data : ndarray;
  mask : ndarray;
  x : nat; y : nat; z : nat; t : nat;
  mask_header : string;
  mask_affine : list R;
  carpet : option array2;
  ncomp : option Z;
  expl_var : option (list float64);
  PCs : option DataFrame;
  PC_carpet_R : option array2 }.

(** The object together with the files of [output_dir], newest first. *)
Record World : Type := mkWorld { self : Dataset; disk : list (string * artifact) }.

Fixpoint read_file (name : string) (d : list (string * artifact)) : option artifact :=
  match d with
  | [] => None
  | (n, a) :: d' => if String.eqb n name then Some a else read_file name d'
  end.

(** ** A state and exception monad for the methods *)

Definition M (A : Type) : Type := World -> World * result A.

Definition ret {A : Type} (a : A) : M A := fun w => (w, Ok a).

Definition bind {A B : Type} (m : M A) (k : A -> M B) : M B :=
  fun w => match m w with
           | (w', Ok a) => k a w'
           | (w', Raise e) => (w', Raise e)
           end.

Definition lift {A : Type} (r : result A) : M A := fun w => (w, r).

Definition get_self : M Dataset := fun w => (w, Ok (self w)).

Definition update_self (f : Dataset -> Dataset) : M unit :=
  fun w => (mkWorld (f (self w)) (disk w), Ok tt).

Definition save_file (name : string) (a : artifact) : M unit :=
  fun w => (mkWorld (self w) ((name, a) :: disk w), Ok tt).

Definition when (b : bool) (m : M unit) : M unit := if b then m else ret tt.

Declare Scope monad_scope.
Delimit Scope monad_scope with monad.
Notation "x <- m ;; k" := (bind m (fun x => k))
  (at level 61, m at next level, right associativity) : monad_scope.
Notation "m ;;; k" := (bind m (fun _ => k))
  (at level 61, right associativity) : monad_scope.
Open Scope monad_scope.

Definition set_carpet (c : array2) (ds : Dataset) : Dataset :=
  mkDataset (fmri_file ds) (mask_file ds) (TR ds) (output_dir ds) (data ds) (mask ds)
            (x ds) (y ds) (z ds) (t ds) (mask_header ds) (mask_affine ds)
            (Some c) (ncomp ds) (expl_var ds) (PCs ds) (PC_carpet_R ds).

Definition set_ncomp (n : Z) (ds : Dataset) : Dataset :=
  mkDataset (fmri_file ds) (mask_file ds) (TR ds) (output_dir ds) (data ds) (mask ds)
            (x ds) (y ds) (z ds) (t ds) (mask_header ds) (mask_affine ds)
            (carpet ds) (Some n) (expl_var ds) (PCs ds) (PC_carpet_R ds).

Definition set_expl_var (v : list float64) (ds : Dataset) : Dataset :=
  mkDataset (fmri_file ds) (mask_file ds) (TR ds) (output_dir ds) (data ds) (mask ds)
            (x ds) (y ds) (z ds) (t ds) (mask_header ds) (mask_affine ds)
            (carpet ds) (ncomp ds) (Some v) (PCs ds) (PC_carpet_R ds).

Definition set_PCs (df : DataFrame) (r : array2) (ds : Dataset) : Dataset :=
  mkDataset (fmri_file ds) (mask_file ds) (TR ds) (output_dir ds) (data ds) (mask ds)
            (x ds) (y ds) (z ds) (t ds) (mask_header ds) (mask_affine ds)
            (carpet ds) (ncomp ds) (expl_var ds) (Some df) (Some r).

(** ** [Dataset.import_data] and [Dataset.__init__] *)

(** [data.shape[:3] != mask.shape] compares two tuples. *)
Definition shape_eqb (s1 s2 : list nat) : bool :=
  if list_eq_dec Nat.eq_dec s1 s2 then true else false.

(** One of the two [if os.path.isfile(...): try: ... = nib.load(...)
    except IOError: print(...) else: print(...)] blocks: the name is bound
    to the image, or left unbound after a message, or the exception of
    [nib.load] leaves the method. *)
Definition try_load (f : file_status) : result (option nifti) :=
  match f with
  | NoFile => Ok None
  | LoadIOError => Ok None
  | LoadRaises e => Raise e
  | Loaded img => Ok (Some img)
  end.

(** The body of [import_data].  A file that is missing or fails to load
    with [IOError] only prints a message and leaves [fmri_nifti] (or
    [mask_nifti]) unbound, so the first use of that name, after both
    blocks, raises.  On success the method returns [(data, mask)] and has
    set [x, y, z, t], [header] and [affine], given here as the remaining
    components. *)
Definition import_data (fmri msk : file_status)
  : result (ndarray * ndarray * (nat * nat * nat * nat) * (string * list R)) :=
  rbind (try_load fmri) (fun fmri_bound =>
  rbind (try_load msk) (fun mask_bound =>
  match fmri_bound with
  | Some fmri_nifti =>
      match mask_bound with
      | Some mask_nifti =>
          let data := get_fdata fmri_nifti in
          let mask := get_fdata mask_nifti in
          if negb (length (shape data) =? 4)%nat then
            Raise (ValueError "fMRI must be 4-dimensional!")
          else if negb (length (shape mask) =? 3)%nat then
            Raise (ValueError "Mask must be 3-dimensional!")
          else if negb (shape_eqb (firstn 3 (shape data)) (shape mask)) then
            Raise (ValueError "fMRI and mask must be in the same space!")
          else
            Ok (data, mask,
                (nth 0 (shape data) 0, nth 1 (shape data) 0,
                 nth 2 (shape data) 0, nth 3 (shape data) 0)%nat,
                (header mask_nifti, affine mask_nifti))
      | None => Raise (UnboundLocalError "mask_nifti")
      end
  | None => Raise (UnboundLocalError "fmri_nifti")
  end)).

(** [Dataset(fmri_file, mask_file, output_dir, TR)] against a file system
    [fs].  Creating the output directory has no bearing on the result (a
    failure there is only printed) and is left out. *)
Definition Dataset_init (fs : string -> file_status)
    (fmri_file mask_file output_dir : string) (TR : R) : result Dataset :=
  rbind (import_data (fs fmri_file) (fs mask_file)) (fun r =>
    match r with
    | (data, mask, (x, y, z, t), (hdr, aff)) =>
        Ok (mkDataset fmri_file mask_file TR output_dir data mask x y z t hdr aff
                      None None None None None)
    end).

(** The three dimension errors of [import_data], the specification's
    ShapeMismatch. *)
Definition ShapeMismatch (e : exn) : Prop :=
  e = ValueError "fMRI must be 4-dimensional!" \/
  e = ValueError "Mask must be 3-dimensional!" \/
  e = ValueError "fMRI and mask must be in the same space!".

(** ** [Dataset.get_carpet] *)

(** The [v]-th slice of length [n] of a row-major buffer. *)
Definition row_of {A : Type} (n v : nat) (l : list A) : list A :=
  firstn n (skipn (v * n) l).

Definition last_dim (a : ndarray) : nat := last (shape a) 1%nat.

Definition n_slices (a : ndarray) : nat := size (removelast (shape a)).

(** [a.mean(axis=-1, keepdims=True)] and [a.std(axis=-1, keepdims=True)]:
    one value per slice along the last axis. *)
Definition mean_last (a : ndarray) : list float64 :=
  map (fun v => fmean (map Fin (row_of (last_dim a) v (flat a)))) (seq 0 (n_slices a)).

Definition std_last (a : ndarray) : list float64 :=
  map (fun v => fstd (map Fin (row_of (last_dim a) v (flat a)))) (seq 0 (n_slices a)).

(** [data_tsnr = data_mean / (data_std + EPSILON)] *)
Definition data_tsnr (ds : Dataset) : list float64 :=
  map (fun p => fdiv (fst p) (fadd (snd p) (Fin EPSILON)))
      (combine (mean_last (data ds)) (std_last (data ds))).

(** [np.repeat(m[:, :, :, np.newaxis], self.t, axis=3)] *)
Definition repeat_last (n : nat) (m : list bool) : list bool :=
  flat_map (fun b => repeat b n) m.

(** [mask_4d]: the voxels with [self.mask < 0.5], repeated along time. *)
Definition mask_4d (ds : Dataset) : list bool :=
  repeat_last (t ds)
    (map (fun m => if Rlt_dec m 0.5 then true else false) (flat (mask ds))).

(** [a.squeeze()] drops every axis of length one. *)
Definition squeeze_shape (s : list nat) : list nat :=
  filter (fun d => negb (d =? 1)%nat) s.

(** [tsnr_mask_4d].  With a threshold, [data_tsnr] (of shape
    [(x, y, z, 1)]) is squeezed and then indexed with three slices and a
    new axis, which needs three axes to be left. *)
Definition tsnr_mask_4d (ds : Dataset) (tSNR_thresh : option R) : result (list bool) :=
  match tSNR_thresh with
  | None => Ok (repeat false (length (mask_4d ds)))
  | Some th =>
      let squeezed := squeeze_shape (removelast (shape (data ds)) ++ [1%nat]) in
      if (length squeezed <? 3)%nat then
        Raise (IndexError "too many indices for array")
      else
        Ok (repeat_last (t ds) (map (fun q => fltb q (Fin th)) (data_tsnr ds)))
  end.

(** A masked array: the values, and a mask of the same shape or [nomask]
    ([None]). *)
Record masked (A : Type) : Type := mkmasked {
  ma_data : list A;
  ma_mask : option (list bool) }.

Arguments mkmasked {A} ma_data ma_mask.
Arguments ma_data {A} m.
Arguments ma_mask {A} m.

(** [np.ma.masked_where(condition, a)].  A condition that holds nowhere is
    shrunk to [nomask]. *)
Definition masked_where {A : Type} (condition : list bool) (a : list A) : masked A :=
  mkmasked a (if existsb (fun b => b) condition then Some condition else None).

(** [a.reshape((-1, n))] of a buffer: the row count cannot be inferred
    when [n] is 0, and the size must be a multiple of [n]. *)
Definition reshape_rows {A : Type} (n : nat) (l : list A) : result (list (list A)) :=
  if (n =? 0)%nat then
    Raise (ValueError "cannot reshape array of size 0 into shape (0)")
  else if (length l mod n =? 0)%nat then
    Ok (map (fun v => row_of n v l) (seq 0 (length l / n)))
  else Raise (ValueError "cannot reshape array").

(** [data_2d = data_masked.reshape((-1, self.t))]: the rows of values and
    the rows of the mask.  On an object built by [__init__] the two masks
    and the data have one shape, so the shape checks of [|] and of
    [masked_where] pass; they are not modelled. *)
Definition data_2d (ds : Dataset) (tSNR_thresh : option R)
  : result (list (list R) * option (list (list bool))) :=
  rbind (tsnr_mask_4d ds tSNR_thresh) (fun tsnr_mask =>
  let data_masked :=
    masked_where (map (fun p => orb (fst p) (snd p)) (combine (mask_4d ds) tsnr_mask))
                 (flat (data ds)) in
  rbind (reshape_rows (t ds) (ma_data data_masked)) (fun vals =>
  match ma_mask data_masked with
  | None => Ok (vals, None)
  | Some m => rbind (reshape_rows (t ds) m) (fun mrows => Ok (vals, Some mrows))
  end)).

(** [np.where(np.any(~np.ma.getmask(data_2d), axis=1))[0]].  [getmask]
    returns [nomask], the scalar False, when the array has no mask, and
    [np.any] of a scalar has no axis 1. *)
Definition where_any_unmasked (m : option (list (list bool))) : result (list nat) :=
  match m with
  | None => Raise (AxisError "axis 1 is out of bounds for array of dimension 0")
  | Some mrows =>
      Ok (filter (fun v => existsb negb (nth v mrows [])) (seq 0 (length mrows)))
  end.

Definition indices_valid (ds : Dataset) (tSNR_thresh : option R) : result (list nat) :=
  rbind (data_2d ds tSNR_thresh) (fun d => where_any_unmasked (snd d)).

(** [a[idx, :]] for a list of row indices. *)
Fixpoint take_rows {A : Type} (idx : list nat) (a : list A) : result (list A) :=
  match idx with
  | [] => Ok []
  | i :: idx' =>
      match nth_error a i with
      | None => Raise (IndexError "index is out of bounds for axis 0")
      | Some r => rbind (take_rows idx' a) (fun rs => Ok (r :: rs))
      end
  end.

(** [scipy.stats.zscore(a, axis=1)]: each row minus its mean, over its
    standard deviation. *)
Definition zscore_row (r : list float64) : list float64 :=
  map (fun a => fdiv (fsub a (fmean r)) (fstd r)) r.

Definition zscore (a : array2) : array2 := mk2 (ncol a) (map zscore_row (rows a)).

(** Order of [np.sort] on floats: NaN goes last. *)
Definition fleb (a b : float64) : bool :=
  match a, b with
  | Fin u, Fin v => if Rle_dec u v then true else false
  | _, NaN => true
  | NaN, Fin _ => false
  end.

(** [np.argsort].  numpy does not fix the order it gives equal keys under
    the default [kind]; the model is the insertion sort numpy uses on short
    arrays, which keeps them in index order. *)
Fixpoint insert_index (keys : list float64) (i : nat) (l : list nat) : list nat :=
  match l with
  | [] => [i]
  | j :: l' =>
      if fleb (nth i keys NaN) (nth j keys NaN) then i :: j :: l'
      else j :: insert_index keys i l'
  end.

Definition argsort (keys : list float64) : list nat :=
  fold_right (insert_index keys) [] (seq 0 (length keys)).

(** [gs = np.mean(carpet, axis=0)] *)
Definition global_signal (carpet : array2) : list float64 :=
  map fmean (rows (transpose carpet)).

(** [pearsonr_2d(carpet, gs.reshape((1, self.t))).flatten()] *)
Definition gs_corr (n : nat) (carpet : array2) : result (list float64) :=
  let gs := global_signal carpet in
  if (length gs =? n)%nat then
    rbind (pearsonr_2d carpet (mk2 n [gs])) (fun r => Ok (concat (rows r)))
  else Raise (ValueError "cannot reshape array").

(** [sort_index = [int(i) for i in np.flip(np.argsort(gs_corr))]] *)
Definition sort_index (keys : list float64) : list nat := rev (argsort keys).

(** Index [i] sorts no later than index [j]. *)
Definition key_le (keys : list float64) (i j : nat) : Prop :=
  fleb (nth i keys NaN) (nth j keys NaN) = true.

(** The [if reorder:] block. *)
Definition reorder_carpet (n : nat) (carpet : array2) : result array2 :=
  rbind (gs_corr n carpet) (fun keys =>
  rbind (take_rows (sort_index keys) (rows carpet)) (fun rs =>
  Ok (mk2 (ncol carpet) rs))).

(** The carpet before normalisation: [data_2d[indices_valid, :].data]. *)
Definition raw_carpet (ds : Dataset) (tSNR_thresh : option R) : result (list (list R)) :=
  rbind (data_2d ds tSNR_thresh) (fun d =>
  rbind (where_any_unmasked (snd d)) (fun idx =>
  take_rows idx (fst d))).

Definition get_carpet (tSNR_thresh : option R) (reorder save : bool) : M unit :=
  ds <- get_self ;;
  raw <- lift (raw_carpet ds tSNR_thresh) ;;
  let normalized := zscore (mk2 (t ds) (map (map Fin) raw)) in
  carpet <- (if reorder then lift (reorder_carpet (t ds) normalized)
             else ret normalized) ;;
  when save (save_file "carpet.npy" (NpyArray carpet)) ;;;
  update_self (set_carpet carpet).

(** ** Statement vocabulary for the carpet *)

(** What [import_data] guarantees about a constructed object. *)
Definition wf_dataset (ds : Dataset) : Prop :=
  shape (data ds) = [x ds; y ds; z ds; t ds] /\
  shape (mask ds) = [x ds; y ds; z ds] /\
  wf_nd (data ds) /\ wf_nd (mask ds).

Definition nvox (ds : Dataset) : nat := (x ds * y ds * z ds)%nat.

(** Row-major position of voxel (i, j, k). *)
Definition ravel3 (ds : Dataset) (i j k : nat) : nat := ((i * y ds + j) * z ds + k)%nat.

(** The time series of the voxel at flattened position [v], its mask
    value and its quality (temporal mean over temporal standard deviation
    plus [EPSILON]). *)
Definition voxel_series (ds : Dataset) (v : nat) : list R :=
  row_of (t ds) v (flat (data ds)).

Definition mask_value (ds : Dataset) (v : nat) : R := nth v (flat (mask ds)) 0.

Definition quality (r : list R) : R := Rmean r / (Rstd r + EPSILON).

Definition retained (ds : Dataset) (tSNR_thresh : option R) (v : nat) : Prop :=
  0.5 <= mask_value ds v /\
  match tSNR_thresh with
  | None => True
  | Some th => th <= quality (voxel_series ds v)
  end.

Definition retainedb (ds : Dataset) (tSNR_thresh : option R) (v : nat) : bool :=
  (if Rle_dec 0.5 (mask_value ds v) then true else false) &&
  match tSNR_thresh with
  | None => true
  | Some th => if Rle_dec th (quality (voxel_series ds v)) then true else false
  end.

(** The inputs on which [get_carpet] gets as far as building a carpet. *)
Definition carpet_pre (ds : Dataset) (tSNR_thresh : option R) : Prop :=
  wf_dataset ds /\ (1 <= t ds)%nat /\
  (exists v, (v < nvox ds)%nat /\ retainedb ds tSNR_thresh v = false) /\
  (tSNR_thresh = None \/ (x ds <> 1 /\ y ds <> 1 /\ z ds <> 1)%nat).

(** The z-score of a real row. *)
Definition Rzscore (r : list R) : list R := map (fun a => (a - Rmean r) / Rstd r) r.

(** One entry of [pearsonr_2d], as the function computes it on float64
    rows; the sum of squares product carries the [+ 0] of the one-term
    dot product. *)
Definition row_corr (a b : list float64) : float64 :=
  let a_m := map (fun u => fsub u (fmean a)) a in
  let b_m := map (fun u => fsub u (fmean b)) b in
  let ssa := fsum (map (fun u => fmul u u) a_m) in
  let ssb := fsum (map (fun u => fmul u u) b_m) in
  fdiv (vdot a_m b_m)
       (fadd (fsqrt (fadd (fmul ssa ssb) (Fin 0))) (Fin EPSILON)).

(** Correlation of a row with the global signal of a carpet. *)
Definition corr_gs (carpet : array2) (r : list float64) : float64 :=
  row_corr r (global_signal carpet).

(** The retained positions, and the carpet they give: the value
    [get_carpet] is shown to store. *)
Definition retained_indices (ds : Dataset) (tSNR_thresh : option R) : list nat :=
  filter (retainedb ds tSNR_thresh) (seq 0 (nvox ds)).

Definition normalized_carpet (ds : Dataset) (tSNR_thresh : option R) : array2 :=
  mk2 (t ds)
      (map (fun v => zscore_row (map Fin (voxel_series ds v)))
           (retained_indices ds tSNR_thresh)).

Definition reordered (c : array2) : array2 :=
  mk2 (ncol c)
      (map (fun i => nth i (rows c) []) (sort_index (map (corr_gs c) (rows c)))).

Definition final_carpet (ds : Dataset) (tSNR_thresh : option R) (reorder : bool) : array2 :=
  if reorder then reordered (normalized_carpet ds tSNR_thresh)
  else normalized_carpet ds tSNR_thresh.

(** What [get_carpet] leaves in a row whose voxel series is [raw]: a row
    of mean 0 and standard deviation 1, or NaN throughout when [raw] has
    zero standard deviation. *)
Definition zscored_row (raw : list R) (r : list float64) : Prop :=
  (Rstd raw <> 0 /\
   exists zr, r = map Fin zr /\ length zr = length raw /\ Rmean zr = 0 /\ Rstd zr = 1) \/
  (Rstd raw = 0 /\ r = repeat NaN (length raw)).

(** ** Sample objects *)

(** A constructed [Dataset] over a volume of shape [(nx, ny, nz, nt)]. *)
Definition sample_dataset (nx ny nz nt : nat) (vol msk : list R) : Dataset :=
  mkDataset "func.nii" "mask.nii" 2 "out"
            (mknd [nx; ny; nz; nt] vol) (mknd [nx; ny; nz] msk)
            nx ny nz nt "" [] None None None None None.

(** Two voxels along x, one slice, both inside the mask, both of high
    quality. *)
Definition thin_dataset : Dataset :=
  sample_dataset 2 1 1 2 [100; 102; 50; 52] [1; 1].

(** A volume whose mask is all ones. *)
Definition full_mask_dataset : Dataset :=
  sample_dataset 2 2 2 2 [0; 2; 2; 0; 1; 3; 3; 1; 0; 4; 4; 0; 1; 5; 5; 1]
                 [1; 1; 1; 1; 1; 1; 1; 1].

(** Three voxels, the last one outside the mask; the first two have the
    same correlation with the global signal. *)
Definition tie_dataset : Dataset :=
  sample_dataset 3 1 1 2 [0; 2; 2; 0; 0; 0] [1; 1; 0].

(** Three voxels, the second constant in time, the last outside the
    mask. *)
Definition constant_voxel_dataset : Dataset :=
  sample_dataset 3 1 1 2 [0; 2; 5; 5; 0; 0] [1; 1; 0].

(** A mask that excludes every voxel. *)
Definition empty_mask_dataset : Dataset :=
  sample_dataset 2 1 1 2 [0; 2; 2; 0] [0; 0].

Definition sample_files (path : string) : file_status :=
  if String.eqb path "func.nii" then
    Loaded (mknifti (mknd [3; 1; 1; 2]%nat [0; 2; 2; 0; 0; 0]) "" [])
  else if String.eqb path "mask.nii" then
    Loaded (mknifti (mknd [3; 1; 1]%nat [1; 1; 0]) "" [])
  else NoFile.

(** ** [Dataset.fit_pca_and_correlate] *)

(** A value passed as [ncomp]: an int, or something else such as a str. *)
Inductive pyobj : Type :=
| PyInt (n : Z)
| PyStr (s : string).

(** [str(n)] for a natural number and for an int. *)
Definition str_nat (n : nat) : string := NilEmpty.string_of_uint (Nat.to_uint n).

Definition str_Z (n : Z) : string := NilZero.string_of_int (Z.to_int n).

(** [f'{ncomp}'] *)
Definition py_format (ncomp : pyobj) : string :=
  match ncomp with
  | PyInt n => str_Z n
  | PyStr s => s
  end.

(** [range(ncomp)]: empty for a non-positive int, a [TypeError] for a str. *)
Definition py_range (ncomp : pyobj) : result (list nat) :=
  match ncomp with
  | PyInt n => Ok (seq 0 (Z.to_nat n))
  | PyStr _ => Raise (TypeError "'str' object cannot be interpreted as an integer")
  end.

(** [l[:ncomp]]: a negative stop counts from the end. *)
Definition py_slice_to {A : Type} (ncomp : pyobj) (l : list A) : result (list A) :=
  match ncomp with
  | PyInt n =>
      if (n <? 0)%Z then Ok (firstn (length l - Z.to_nat (- n)) l)
      else Ok (firstn (Z.to_nat n) l)
  | PyStr _ => Raise (TypeError "slice indices must be integers")
  end.

(** [np.median] of a 1-d array: NaN when a NaN is present or the array is
    empty; otherwise the middle value of the sorted array, or the mean of
    the two middle values. *)
Fixpoint reals_of (l : list float64) : option (list R) :=
  match l with
  | [] => Some []
  | Fin u :: l' =>
      match reals_of l' with
      | Some rs => Some (u :: rs)
      | None => None
      end
  | NaN :: _ => None
  end.

Fixpoint Rinsert (a : R) (l : list R) : list R :=
  match l with
  | [] => [a]
  | b :: l' => if Rle_dec a b then a :: b :: l' else b :: Rinsert a l'
  end.

Definition Rsort (l : list R) : list R := fold_right Rinsert [] l.

Definition Rmedian (l : list R) : R :=
  let s := Rsort l in
  let n := length s in
  if Nat.even n then (nth (n / 2 - 1) s 0 + nth (n / 2) s 0) / 2
  else nth (n / 2) s 0.

Definition np_median (l : list float64) : float64 :=
  match reals_of l with
  | None => NaN
  | Some [] => NaN
  | Some rs => Fin (Rmedian rs)
  end.

(** [a[:, i]] *)
Definition column (i : nat) (a : array2) : list float64 :=
  map (fun r => nth i r NaN) (rows a).

(** What [PCA(whiten=True)] holds after [fit_transform]: the scores it
    returns, the components (rows of an orthogonal matrix, finite numbers)
    and the explained variance ratios. *)
Record PCA_model : Type := mkPCA {
  pca_scores : array2;
  components_ : list (list R);
  explained_variance_ratio_ : list float64 }.

(** The input validation of [fit_transform]: NaN is refused, and at least
    one sample and one feature are required. *)
Fixpoint reals_of_rows (l : list (list float64)) : option (list (list R)) :=
  match l with
  | [] => Some []
  | r :: l' =>
      match reals_of r, reals_of_rows l' with
      | Some rr, Some rs => Some (rr :: rs)
      | _, _ => None
      end
  end.

Definition check_array (a : array2) : result (list (list R)) :=
  match reals_of_rows (rows a) with
  | None => Raise (ValueError "Input contains NaN")
  | Some X =>
      if (nrow a =? 0)%nat then Raise (ValueError "Found array with 0 sample(s)")
      else if (ncol a =? 0)%nat then Raise (ValueError "Found array with 0 feature(s)")
      else Ok X
  end.

(** [pd.DataFrame(data=..., columns=comp_names)], given the columns of
    [data]: the numbers of columns and of names must agree. *)
Definition pd_DataFrame (cols : list (list R)) (names : list string) : result DataFrame :=
  if (length cols =? length names)%nat then Ok (combine names (map (map Fin) cols))
  else Raise (ValueError "Shape of passed values does not match the indices").

(** [PCs[c] = -1 * PCs[c]]: the column labelled [c] is negated (labels are
    distinct here). *)
Definition negate (col : list float64) : list float64 := map (fmul (Fin (-1))) col.

Definition negate_label (c : string) (df : DataFrame) : DataFrame :=
  map (fun p => if String.eqb (fst p) c then (fst p, negate (snd p)) else p) df.

(** A map that also sees the position of each element. *)
Definition imap_from {A B : Type} (s : nat) (f : nat -> A -> B) (l : list A) : list B :=
  map (fun p => f (fst p) (snd p)) (combine (seq s (length l)) l).

Definition imap {A B : Type} (f : nat -> A -> B) (l : list A) : list B := imap_from 0 f l.

(** [a[:, i] = -1 * a[:, i]] *)
Definition negate_column (i : nat) (a : array2) : array2 :=
  mk2 (ncol a)
      (map (imap (fun j u => if (j =? i)%nat then fmul (Fin (-1)) u else u)) (rows a)).

(** The [if flip_sign:] loop over [enumerate(PCs)], reading the medians
    from the report. *)
Definition flip_step (medians : list float64) (st : DataFrame * array2) (ic : nat * string)
  : DataFrame * array2 :=
  if fltb (nth (fst ic) medians NaN) (Fin 0)
  then (negate_label (snd ic) (fst st), negate_column (fst ic) (snd st))
  else st.

Definition flip_signs (medians : list float64) (PCs : DataFrame) (PC_carpet_R : array2)
  : DataFrame * array2 :=
  fold_left (flip_step medians)
            (combine (seq 0 (length PCs)) (map fst PCs))
            (PCs, PC_carpet_R).

Section Collaborators.

(** [PCA(whiten=True).fit_transform] on a validated input, from sklearn;
    and [int(s)] for a str, [None] standing for [ValueError]. *)
Variable PCA_fit_transform : list (list R) -> PCA_model.
Variable int_of_str : string -> option Z.

Definition py_int (ncomp : pyobj) : result Z :=
  match ncomp with
  | PyInt n => Ok n
  | PyStr s =>
      match int_of_str s with
      | Some n => Ok n
      | None => Raise (ValueError "invalid literal for int() with base 10")
      end
  end.

(** [try: self.ncomp = int(ncomp)] / [except ValueError: print(...)] *)
Definition try_set_ncomp (ncomp : pyobj) : M unit :=
  match py_int ncomp with
  | Ok n => update_self (set_ncomp n)
  | Raise (ValueError _) => ret tt
  | Raise e => lift (Raise e)
  end.

(** The method.  [model.components_.T[:, :ncomp]] is given by its columns,
    the leading rows of [components_]; [PCs.values.T] has one row per
    column of [PCs] and as many columns as the carpet. *)
Definition fit_pca_and_correlate (ncomp : pyobj) (save_pca_scores flip_sign : bool)
  : M unit :=
  try_set_ncomp ncomp ;;;
  ds <- get_self ;;
  carpet <- lift (match carpet ds with
                  | Some c => Ok c
                  | None => Raise (AttributeError "'Dataset' object has no attribute 'carpet'")
                  end) ;;
  X <- lift (check_array carpet) ;;
  let model := PCA_fit_transform X in
  let pca_comps := components_ model in
  let expl_var := explained_variance_ratio_ model in
  update_self (set_expl_var expl_var) ;;;
  save_file "pca_components_all.npy" (NpyArray (of_reals (ncol carpet) pca_comps)) ;;;
  save_file "pca_explained_variance_all.npy" (NpyVector expl_var) ;;;
  when save_pca_scores (save_file "pca_scores_all.npy" (NpyArray (pca_scores model))) ;;;
  idx <- lift (py_range ncomp) ;;
  let comp_names := map (fun i => ("PC" ++ str_nat (i + 1))%string) idx in
  cols <- lift (py_slice_to ncomp pca_comps) ;;
  PCs <- lift (pd_DataFrame cols comp_names) ;;
  save_file ("pca_components_" ++ py_format ncomp ++ ".csv")%string (CsvTable PCs) ;;;
  PC_carpet_R <- lift (pearsonr_2d carpet (mk2 (ncol carpet) (map snd PCs))) ;;
  ev <- lift (py_slice_to ncomp expl_var) ;;
  let medians := map (fun i => np_median (column i PC_carpet_R)) idx in
  report <- lift (if (length ev =? length comp_names)%nat
                  then Ok (mkreport comp_names ev medians)
                  else Raise (ValueError "Length of values does not match length of index")) ;;
  save_file "pca_carpet_correlation_report.csv" (CsvReport report) ;;;
  let flipped := if flip_sign
                 then flip_signs (report_carpet_R_median report) PCs PC_carpet_R
                 else (PCs, PC_carpet_R) in
  update_self (set_PCs (fst flipped) (snd flipped)).

End Collaborators.

(** ** Statement vocabulary for the component analysis *)

(** What sklearn documents of the fitted model on a V x T input: there are
    min(V, T) components, each of length T, and as many variance ratios. *)
Definition sklearn_shapes (PCA_fit_transform : list (list R) -> PCA_model) : Prop :=
  forall (X : list (list R)) (T : nat),
    Forall (fun r => length r = T) X ->
    length (components_ (PCA_fit_transform X)) = Nat.min (length X) T /\
    Forall (fun r => length r = T) (components_ (PCA_fit_transform X)) /\
    length (explained_variance_ratio_ (PCA_fit_transform X)) = Nat.min (length X) T.

(** An object whose carpet is the finite V x T matrix [X], V, T >= 1. *)
Definition has_carpet (w : World) (X : list (list R)) (T : nat) : Prop :=
  carpet (self w) = Some (of_reals T X) /\
  Forall (fun r => length r = T) X /\ X <> [] /\ (1 <= T)%nat.

(** The labels and columns negated by the sign loop over the pairs [ps]. *)
Definition flip_at (medians : list float64) (i : nat) : bool :=
  fltb (nth i medians NaN) (Fin 0).

Definition flipped_pairs (medians : list float64) (ps : list (nat * string))
  : list (nat * string) :=
  filter (fun ic => flip_at medians (fst ic)) ps.

Definition negate_labels (L : list string) (df : DataFrame) : DataFrame :=
  map (fun p => if existsb (String.eqb (fst p)) L then (fst p, negate (snd p)) else p) df.

Definition negate_columns (I : list nat) (a : array2) : array2 :=
  mk2 (ncol a)
      (map (imap (fun j u => if existsb (Nat.eqb j) I then fmul (Fin (-1)) u else u))
           (rows a)).

(** A stand-in for the decomposition with the documented shapes, the
    leading rows of an identity matrix, to run the method on sample
    objects. *)
Definition unit_vector (T i : nat) : list R :=
  map (fun j => if (j =? i)%nat then 1 else 0) (seq 0 T).

Definition toy_PCA (X : list (list R)) : PCA_model :=
  let T := length (hd [] X) in
  let k := Nat.min (length X) T in
  mkPCA (of_reals T X) (map (unit_vector T) (seq 0 k)) (repeat (Fin 0) k).

Definition no_int_of_str (s : string) : option Z := None.

Definition tie_world : World :=
  mkWorld (set_carpet (of_reals 2 [[-1; 1]; [1; -1]; [-1; 1]]) tie_dataset) [].

(** The values [fit_pca_and_correlate] is shown to compute for an int
    [n] on the carpet [X]: labels, the component table, the correlation
    matrix, the report, and the files written. *)
Definition comp_names (n : nat) : list string :=
  map (fun i => ("PC" ++ str_nat (i + 1))%string) (seq 0 n).

Definition fit_comps (m : PCA_model) (n : Z) : list (list R) :=
  firstn (Z.to_nat n) (components_ m).

Definition fit_PCs (m : PCA_model) (n : Z) : DataFrame :=
  combine (comp_names (Z.to_nat n)) (map (map Fin) (fit_comps m n)).

Definition fit_R (m : PCA_model) (X : list (list R)) (n : Z) : array2 :=
  mk2 (length (fit_comps m n))
      (map (fun a => map (fun b => Fin (pearson_eps a b)) (fit_comps m n)) X).

Definition fit_medians (m : PCA_model) (X : list (list R)) (n : Z) : list float64 :=
  map (fun i => np_median (column i (fit_R m X n))) (seq 0 (Z.to_nat n)).

Definition fit_report (m : PCA_model) (X : list (list R)) (n : Z) : Report :=
  mkreport (comp_names (Z.to_nat n))
           (firstn (Z.to_nat n) (explained_variance_ratio_ m))
           (fit_medians m X n).

Definition fit_disk (m : PCA_model) (X : list (list R)) (T : nat) (n : Z)
    (save_pca_scores : bool) (d : list (string * artifact)) : list (string * artifact) :=
  ("pca_carpet_correlation_report.csv"%string, CsvReport (fit_report m X n))
  :: (("pca_components_" ++ str_Z n ++ ".csv")%string, CsvTable (fit_PCs m n))
  :: (if save_pca_scores then [("pca_scores_all.npy"%string, NpyArray (pca_scores m))] else [])
  ++ ("pca_explained_variance_all.npy"%string, NpyVector (explained_variance_ratio_ m))
  :: ("pca_components_all.npy"%string, NpyArray (of_reals T (components_ m)))
  :: d.

Definition fit_final (m : PCA_model) (X : list (list R)) (n : Z) (flip_sign : bool)
  : DataFrame * array2 :=
  if flip_sign then flip_signs (fit_medians m X n) (fit_PCs m n) (fit_R m X n)
  else (fit_PCs m n, fit_R m X n).

(** The object after [try: self.ncomp = int(ncomp)]: [ncomp] is stored
    when [int] succeeds, and nothing changes when it raises [ValueError]. *)
Definition after_int (int_of_str : string -> option Z) (ncomp : pyobj) (ds : Dataset)
  : Dataset :=
  match py_int int_of_str ncomp with
  | Ok n => set_ncomp n ds
  | Raise _ => ds
  end.

(** ** Statement vocabulary for what the methods leave alone *)

(** Two objects that agree on everything the constructor stored and on the
    carpet. *)
Definition same_inputs (ds ds' : Dataset) : Prop :=
  fmri_file ds' = fmri_file ds /\ mask_file ds' = mask_file ds /\ TR ds' = TR ds /\
  output_dir ds' = output_dir ds /\ data ds' = data ds /\ mask ds' = mask ds /\
  x ds' = x ds /\ y ds' = y ds /\ z ds' = z ds /\ t ds' = t ds /\
  mask_header ds' = mask_header ds /\ mask_affine ds' = mask_affine ds /\
  carpet ds' = carpet ds.

(** A computation that, whatever it returns or raises, keeps those
    attributes and only adds files, with names from [names]. *)
Definition keeps {A : Type} (names : list string) (m : M A) : Prop :=
  forall w w' r, m w = (w', r) ->
    same_inputs (self w) (self w') /\
    exists new, disk w' = new ++ disk w /\ Forall (fun p => In (fst p) names) new.

(** The file names [fit_pca_and_correlate] writes to. *)
Definition fit_file_names (ncomp : pyobj) (save_pca_scores : bool) : list string :=
  ["pca_components_all.npy"; "pca_explained_variance_all.npy"]%string
  ++ (if save_pca_scores then ["pca_scores_all.npy"%string] else [])
  ++ [("pca_components_" ++ py_format ncomp ++ ".csv")%string;
      "pca_carpet_correlation_report.csv"%string].

(** * Properties *)

(** ** Scalars and sums *)

Lemma EPSILON_pos : 0 < EPSILON.
Proof. unfold EPSILON. lra. Qed.

Lemma fsum_Fin (l : list R) : fsum (map Fin l) = Fin (Rsum l).
Proof.
  induction l as [|a l IH]; [reflexivity|].
  change (fsum (map Fin (a :: l))) with (fadd (Fin a) (fsum (map Fin l))).
  rewrite IH. reflexivity.
Qed.

Lemma INR_length_nonzero {A : Type} (l : list A) : l <> [] -> INR (length l) <> 0.
Proof.
  destruct l as [|a l]; [congruence|]. intros _.
  apply not_0_INR. simpl. lia.
Qed.

Lemma fdiv_Fin (x y : R) : y <> 0 -> fdiv (Fin x) (Fin y) = Fin (x / y).
Proof.
  intros Hy. unfold fdiv. destruct (Req_dec_T y 0); [contradiction|reflexivity].
Qed.

Lemma fdiv_zero (x : R) : fdiv (Fin x) (Fin 0) = NaN.
Proof.
  unfold fdiv. destruct (Req_dec_T 0 0); [reflexivity|congruence].
Qed.

Lemma fsqrt_Fin (x : R) : 0 <= x -> fsqrt (Fin x) = Fin (sqrt x).
Proof.
  intros Hx. unfold fsqrt. destruct (Rlt_dec x 0); [lra|reflexivity].
Qed.

Lemma fmean_Fin (l : list R) : l <> [] -> fmean (map Fin l) = Fin (Rmean l).
Proof.
  intros Hl. unfold fmean. rewrite fsum_Fin, length_map.
  apply fdiv_Fin. now apply INR_length_nonzero.
Qed.

Lemma sub_mean_Fin (r : list R) :
  map (fun a => fsub a (fmean (map Fin r))) (map Fin r) = map Fin (center r).
Proof.
  destruct r as [|x r]; [reflexivity|].
  rewrite fmean_Fin by discriminate.
  unfold center. rewrite !map_map. reflexivity.
Qed.

Lemma sum_sq_Fin (c : list R) :
  fsum (map (fun a => fmul a a) (map Fin c)) = Fin (sumsq c).
Proof.
  rewrite map_map. unfold sumsq. rewrite <- fsum_Fin, map_map. reflexivity.
Qed.

Lemma vdot_Fin (u v : list R) : vdot (map Fin u) (map Fin v) = Fin (Rdot u v).
Proof.
  unfold vdot, Rdot. rewrite <- fsum_Fin. f_equal.
  revert v. induction u as [|a u IH]; intros [|b v]; simpl; try reflexivity.
  now rewrite IH.
Qed.

Lemma Rsum_nonneg (l : list R) : Forall (fun a => 0 <= a) l -> 0 <= Rsum l.
Proof.
  induction 1; simpl; lra.
Qed.

Lemma sumsq_nonneg (l : list R) : 0 <= sumsq l.
Proof.
  unfold sumsq. apply Rsum_nonneg. apply Forall_forall.
  intros x Hx. apply in_map_iff in Hx. destruct Hx as [a [<- _]]. nra.
Qed.

Lemma Rsum_zero (l : list R) : Forall (fun a => a = 0) l -> Rsum l = 0.
Proof.
  induction 1; simpl; lra.
Qed.

(** ** Arrays *)

Lemma nth_map_lt {A B : Type} (f : A -> B) (l : list A) (k : nat) (d : B) (d' : A) :
  (k < length l)%nat -> nth k (map f l) d = f (nth k l d').
Proof.
  intros Hk. rewrite nth_indep with (d' := f d') by now rewrite length_map.
  apply map_nth.
Qed.

Lemma nth_map_seq {B : Type} (f : nat -> B) (n k : nat) (d : B) :
  (k < n)%nat -> nth k (map f (seq 0 n)) d = f k.
Proof.
  intros Hk. rewrite nth_map_lt with (d' := 0%nat) by now rewrite length_seq.
  now rewrite seq_nth.
Qed.

Lemma map_nth_seq {A : Type} (d : A) (l : list A) (n : nat) :
  length l = n -> map (fun k => nth k l d) (seq 0 n) = l.
Proof.
  intros <-. apply nth_ext with (d := d) (d' := d).
  - now rewrite length_map, length_seq.
  - intros k Hk. rewrite length_map, length_seq in Hk.
    now rewrite nth_map_seq.
Qed.

Lemma transpose_transpose (a : array2) :
  wf2 a -> rows (transpose (transpose a)) = rows a.
Proof.
  intros Hwf. unfold transpose at 1. cbn [rows ncol].
  unfold nrow. cbn [rows transpose].
  apply nth_ext with (d := []) (d' := []).
  - now rewrite length_map, length_seq.
  - intros k Hk. rewrite length_map, length_seq in Hk.
    rewrite nth_map_seq by assumption.
    rewrite map_map.
    erewrite map_ext.
    + apply map_nth_seq.
      unfold wf2 in Hwf. rewrite Forall_forall in Hwf.
      apply Hwf. now apply nth_In.
    + intros j. cbn beta.
      now rewrite nth_map_lt with (d' := []).
Qed.

Lemma sub_row_mean_reals (T : nat) (A : list (list R)) :
  sub_row_mean (of_reals T A) = of_reals T (map center A).
Proof.
  unfold sub_row_mean, of_reals. cbn [ncol rows]. f_equal.
  rewrite !map_map. apply map_ext. intros r. apply sub_mean_Fin.
Qed.

Lemma sum_sq_rows_reals (T : nat) (C : list (list R)) :
  sum_sq_rows (of_reals T C) = map (fun c => Fin (sumsq c)) C.
Proof.
  unfold sum_sq_rows, of_reals. cbn [rows]. rewrite map_map.
  apply map_ext. intros c. apply sum_sq_Fin.
Qed.

Lemma wf2_of_reals (T : nat) (A : list (list R)) :
  Forall (fun r => length r = T) A -> wf2 (of_reals T A).
Proof.
  intros H. unfold wf2, of_reals. cbn [ncol rows].
  apply Forall_map. eapply Forall_impl; [|exact H].
  intros r Hr. cbn beta. now rewrite length_map.
Qed.

Lemma Forall_length_center (T : nat) (A : list (list R)) :
  Forall (fun r => length r = T) A ->
  Forall (fun r => length r = T) (map center A).
Proof.
  intros H. apply Forall_map. eapply Forall_impl; [|exact H].
  intros r Hr. cbn beta. unfold center. now rewrite length_map.
Qed.

Lemma transpose_row_vec (v : list float64) :
  rows (transpose (row_vec v)) = map (fun b => [b]) v.
Proof.
  unfold transpose, row_vec. cbn [rows ncol map].
  apply nth_ext with (d := []) (d' := []).
  - now rewrite !length_map, length_seq.
  - intros k Hk. rewrite length_map, length_seq in Hk.
    rewrite nth_map_seq by assumption.
    now rewrite nth_map_lt with (d' := NaN).
Qed.

Lemma combine_map_same {A B C : Type} (f : A -> B) (g : A -> C) (l : list A) :
  combine (map f l) (map g l) = map (fun a => (f a, g a)) l.
Proof.
  induction l as [|a l IH]; simpl; [reflexivity|now rewrite IH].
Qed.

(** On real matrices of a common width [pearsonr_2d] returns, and its value
    is the matrix of [pearson_eps] of the rows. *)
Lemma pearsonr_numerator_reals (T : nat) (A B : list (list R)) :
  Forall (fun r => length r = T) A ->
  Forall (fun r => length r = T) B ->
  pearsonr_numerator (of_reals T A) (of_reals T B)
  = Ok (mk2 (length B)
            (map (fun a => map (fun b => Fin (Rdot (center a) (center b))) B) A)).
Proof.
  intros HA HB. unfold pearsonr_numerator.
  rewrite !sub_row_mean_reals.
  unfold np_dot.
  replace (ncol (of_reals T (map center A)) =? nrow (transpose (of_reals T (map center B))))%nat
    with true.
  2:{ symmetry. apply Nat.eqb_eq. unfold nrow, transpose, of_reals.
      cbn [ncol rows]. now rewrite length_map, length_seq. }
  rewrite transpose_transpose
    by (apply wf2_of_reals; now apply Forall_length_center).
  unfold of_reals, transpose, nrow. cbn [ncol rows].
  rewrite !length_map. f_equal. f_equal.
  rewrite !map_map. apply map_ext. intros a.
  rewrite !map_map. apply map_ext. intros b.
  apply vdot_Fin.
Qed.

Lemma pearsonr_denominator_reals (T : nat) (A B : list (list R)) :
  pearsonr_denominator (of_reals T A) (of_reals T B)
  = Ok (mk2 (length B)
            (map (fun a => map (fun b =>
               Fin (sqrt (sumsq (center a) * sumsq (center b)) + EPSILON)) B) A)).
Proof.
  unfold pearsonr_denominator.
  rewrite !sub_row_mean_reals, !sum_sq_rows_reals.
  unfold np_dot. cbn [col_vec row_vec ncol nrow rows length Nat.eqb rbind].
  rewrite transpose_row_vec.
  unfold amap. cbn [ncol rows].
  rewrite !length_map. f_equal. f_equal.
  rewrite !map_map. apply map_ext. intros a.
  rewrite !map_map. apply map_ext. intros b.
  unfold vdot. cbn [combine map fst snd fsum fold_right fmul fadd].
  pose proof (sumsq_nonneg (center a)) as Ha.
  pose proof (sumsq_nonneg (center b)) as Hb.
  rewrite fsqrt_Fin by nra.
  cbn [fadd]. now rewrite Rplus_0_r.
Qed.

Lemma pearson_denominator_pos (a b : list R) :
  EPSILON <= sqrt (sumsq (center a) * sumsq (center b)) + EPSILON.
Proof.
  pose proof (sqrt_pos (sumsq (center a) * sumsq (center b))). lra.
Qed.

(** On real matrices of a common width [pearsonr_2d] returns, and its value
    is the matrix of [pearson_eps] of the rows. *)
Lemma pearsonr_2d_reals (T : nat) (A B : list (list R)) :
  Forall (fun r => length r = T) A ->
  Forall (fun r => length r = T) B ->
  pearsonr_2d (of_reals T A) (of_reals T B)
  = Ok (mk2 (length B) (map (fun a => map (fun b => Fin (pearson_eps a b)) B) A)).
Proof.
  intros HA HB. unfold pearsonr_2d.
  rewrite pearsonr_numerator_reals, pearsonr_denominator_reals by assumption.
  cbn [rbind]. unfold map2. cbn [ncol rows]. f_equal. f_equal.
  rewrite combine_map_same, map_map.
  apply map_ext. intros a. cbn [fst snd].
  rewrite combine_map_same, map_map.
  apply map_ext. intros b. cbn [fst snd].
  pose proof (pearson_denominator_pos a b) as Hd.
  pose proof EPSILON_pos as He.
  rewrite fdiv_Fin by lra.
  reflexivity.
Qed.

Lemma entry_pearson (A B : list (list R)) (i j : nat) :
  (i < length A)%nat -> (j < length B)%nat ->
  entry (mk2 (length B) (map (fun a => map (fun b => Fin (pearson_eps a b)) B) A)) i j
  = Fin (pearson_eps (nth i A []) (nth j B [])).
Proof.
  intros Hi Hj. unfold entry. cbn [rows].
  rewrite nth_map_lt with (d' := []) by assumption.
  now rewrite nth_map_lt with (d' := []).
Qed.

(** ** Constant rows *)

Lemma Rsum_repeat (c : R) (n : nat) : Rsum (repeat c n) = INR n * c.
Proof.
  induction n as [|n IH]; [simpl; lra|].
  rewrite S_INR. cbn [repeat Rsum fold_right]. fold (Rsum (repeat c n)).
  rewrite IH. lra.
Qed.

Lemma center_constant (r : list R) :
  constant_row r -> Forall (fun a => a = 0) (center r).
Proof.
  intros [c Hc]. unfold center. apply Forall_map.
  destruct r as [|x r]; [constructor|].
  assert (Hm : Rmean (x :: r) = c).
  { unfold Rmean. rewrite Hc at 1. rewrite Rsum_repeat.
    field. apply INR_length_nonzero. discriminate. }
  rewrite Hm. rewrite Hc. apply Forall_forall.
  intros a Ha. apply repeat_spec in Ha. lra.
Qed.

Lemma Rdot_zero_l (u v : list R) : Forall (fun a => a = 0) u -> Rdot u v = 0.
Proof.
  intros Hu. unfold Rdot. apply Rsum_zero.
  revert v. induction Hu as [|a u Ha Hu IH]; intros [|b v]; cbn [combine map];
    try constructor.
  - cbn [fst snd]. subst a. lra.
  - apply IH.
Qed.

Lemma Rdot_zero_r (u v : list R) : Forall (fun a => a = 0) v -> Rdot u v = 0.
Proof.
  intros Hv. unfold Rdot. apply Rsum_zero.
  revert u. induction Hv as [|b v Hb Hv IH]; intros [|a u]; cbn [combine map];
    try constructor.
  - cbn [fst snd]. subst b. lra.
  - apply IH.
Qed.

Lemma pearson_eps_constant (a b : list R) :
  constant_row a \/ constant_row b -> pearson_eps a b = 0.
Proof.
  intros H. unfold pearson_eps.
  assert (Hn : Rdot (center a) (center b) = 0).
  { destruct H as [H|H]; [apply Rdot_zero_l|apply Rdot_zero_r];
      now apply center_constant. }
  rewrite Hn. unfold Rdiv. apply Rmult_0_l.
Qed.

(** ** Claims on [pearsonr_2d] *)

(** C1.  For real matrices [A] (N x T) and [B] (M x T), for every T and so
    for every T >= 2, and also when N = 1 or M = 1, [pearsonr_2d A B]
    returns an N x M matrix whose entry (i, j) is the dot product of the
    mean-centred row i of [A] with the mean-centred row j of [B], divided by
    the square root of the product of the two sums of squared deviations
    plus [EPSILON] = 1e-9. *)
Theorem pearsonr_2d_batch_pearson (N M T : nat) (A B : list (list R)) :
  length A = N -> length B = M ->
  Forall (fun r => length r = T) A ->
  Forall (fun r => length r = T) B ->
  exists Rm,
    pearsonr_2d (of_reals T A) (of_reals T B) = Ok Rm /\
    nrow Rm = N /\ ncol Rm = M /\ wf2 Rm /\
    forall i j, (i < N)%nat -> (j < M)%nat ->
      entry Rm i j
      = Fin (Rdot (center (nth i A [])) (center (nth j B []))
             / (sqrt (sumsq (center (nth i A [])) * sumsq (center (nth j B [])))
                + 1e-9)).
Proof.
  intros HN HM HA HB. eexists. split; [now apply pearsonr_2d_reals|].
  subst N M. unfold nrow, wf2. cbn [rows ncol]. rewrite length_map.
  repeat split.
  - apply Forall_map, Forall_forall. intros a _. cbn beta. now rewrite length_map.
  - intros i j Hi Hj. now rewrite entry_pearson.
Qed.

Lemma pearsonr_2d_batch_pearson_witness :
  exists Rm,
    pearsonr_2d (of_reals 3 [[1; 2; 3]]) (of_reals 3 [[1; 2; 3]; [3; 2; 1]]) = Ok Rm /\
    nrow Rm = 1%nat /\ ncol Rm = 2%nat /\ wf2 Rm /\
    forall i j, (i < 1)%nat -> (j < 2)%nat ->
      entry Rm i j
      = Fin (Rdot (center (nth i [[1; 2; 3]] []))
                  (center (nth j [[1; 2; 3]; [3; 2; 1]] []))
             / (sqrt (sumsq (center (nth i [[1; 2; 3]] []))
                      * sumsq (center (nth j [[1; 2; 3]; [3; 2; 1]] [])))
                + 1e-9)).
Proof.
  apply (pearsonr_2d_batch_pearson 1 2 3 [[1; 2; 3]] [[1; 2; 3]; [3; 2; 1]]);
    try reflexivity; repeat constructor.
Defined.

(** C10, in exact arithmetic.  On finite real matrices of equal width, and
    with every operation carried out exactly, [pearsonr_2d] returns a
    matrix of finite values; every entry of its denominator is at least
    [EPSILON] = 1e-9 > 0, so no division by zero happens; and a constant
    row, on either side, has correlation exactly 0 with every row of the
    other matrix.  In binary64 the last two statements fail: see
    [pearsonr_2d_binary64_diverges]. *)
Theorem pearsonr_2d_total (T : nat) (A B : list (list R)) :
  Forall (fun r => length r = T) A ->
  Forall (fun r => length r = T) B ->
  exists D Rm,
    pearsonr_denominator (of_reals T A) (of_reals T B) = Ok D /\
    pearsonr_2d (of_reals T A) (of_reals T B) = Ok Rm /\
    forall i j, (i < length A)%nat -> (j < length B)%nat ->
      (exists d, entry D i j = Fin d /\ 0 < 1e-9 <= d) /\
      (exists r, entry Rm i j = Fin r) /\
      (constant_row (nth i A []) \/ constant_row (nth j B []) ->
       entry Rm i j = Fin 0).
Proof.
  intros HA HB. do 2 eexists.
  split; [apply pearsonr_denominator_reals|].
  split; [now apply pearsonr_2d_reals|].
  intros i j Hi Hj. rewrite entry_pearson by assumption.
  repeat split.
  - eexists. split.
    + unfold entry. cbn [rows].
      rewrite nth_map_lt with (d' := []) by assumption.
      now rewrite nth_map_lt with (d' := []).
    + split; [apply EPSILON_pos|apply pearson_denominator_pos].
  - now eexists.
  - intros Hc. now rewrite pearson_eps_constant.
Qed.

Lemma pearsonr_2d_total_witness :
  exists D Rm,
    pearsonr_denominator (of_reals 2 [[5; 5]]) (of_reals 2 [[1; 2]]) = Ok D /\
    pearsonr_2d (of_reals 2 [[5; 5]]) (of_reals 2 [[1; 2]]) = Ok Rm /\
    forall i j, (i < length [[5; 5]])%nat -> (j < length [[1; 2]])%nat ->
      (exists d, entry D i j = Fin d /\ 0 < 1e-9 <= d) /\
      (exists r, entry Rm i j = Fin r) /\
      (constant_row (nth i [[5; 5]] []) \/ constant_row (nth j [[1; 2]] []) ->
       entry Rm i j = Fin 0).
Proof.
  apply (pearsonr_2d_total 2 [[5; 5]] [[1; 2]]); repeat constructor.
Defined.

(** Against C10 as stated, in binary64, on finite inputs.  The constant
    row [0.1, 0.1, 0.1] sums to 0.30000000000000004, so its mean is not
    0.1, its deviations are -2^-56 and not 0, and its correlation with
    itself is about 5.8e-25 and not 0.  Against the row [1e200, -1e200],
    whose squared deviations overflow to infinity, the constant row
    [5, 5] has the denominator sqrt(0 * inf) + EPSILON, a NaN and so not
    at least [EPSILON], and its correlation is NaN. *)
Lemma pearsonr_2d_binary64_diverges :
  forallb PrimFloat.is_finite [0.1; 5; 1e200; -1e200]%float = true /\
  Binary64.sub_row_mean [[0.1; 0.1; 0.1]]%float
  = [[-0x1p-56; -0x1p-56; -0x1p-56]]%float /\
  Binary64.pearsonr_2d [[0.1; 0.1; 0.1]]%float [[0.1; 0.1; 0.1]]%float
  = [[5.7777898331617076e-25]]%float /\
  PrimFloat.ltb 0 5.7777898331617076e-25 = true /\
  Binary64.pearsonr_denominator [[5; 5]]%float [[1e200; -1e200]]%float
  = [[PrimFloat.nan]] /\
  Binary64.pearsonr_2d [[5; 5]]%float [[1e200; -1e200]]%float
  = [[PrimFloat.nan]].
Proof. vm_compute. repeat split; reflexivity. Qed.

(** ** Loading *)

Lemma shape_eqb_true (s1 s2 : list nat) : shape_eqb s1 s2 = true <-> s1 = s2.
Proof.
  unfold shape_eqb. destruct (list_eq_dec Nat.eq_dec s1 s2); split; congruence.
Qed.

Lemma import_data_loaded (fi mi : nifti) :
  import_data (Loaded fi) (Loaded mi)
  = if negb (length (shape (get_fdata fi)) =? 4)%nat then
      Raise (ValueError "fMRI must be 4-dimensional!")
    else if negb (length (shape (get_fdata mi)) =? 3)%nat then
      Raise (ValueError "Mask must be 3-dimensional!")
    else if negb (shape_eqb (firstn 3 (shape (get_fdata fi))) (shape (get_fdata mi))) then
      Raise (ValueError "fMRI and mask must be in the same space!")
    else
      Ok (get_fdata fi, get_fdata mi,
          (nth 0 (shape (get_fdata fi)) 0, nth 1 (shape (get_fdata fi)) 0,
           nth 2 (shape (get_fdata fi)) 0, nth 3 (shape (get_fdata fi)) 0)%nat,
          (header mi, affine mi)).
Proof. reflexivity. Qed.

(** C9.  When both files load, constructing the [Dataset] fails with one of
    the three dimension errors (ShapeMismatch) if and only if the volume is
    not 4-dimensional, or the mask is not 3-dimensional, or the first three
    dimensions of the volume differ from the mask's; it fails in no other
    way; and when the three checks pass the volume and the mask are stored
    unchanged in the object. *)
Theorem Dataset_init_shape_check (fs : string -> file_status)
    (fmri_path mask_path out : string) (tr : R) (fi mi : nifti) :
  fs fmri_path = Loaded fi -> fs mask_path = Loaded mi ->
  ((exists e, Dataset_init fs fmri_path mask_path out tr = Raise e /\ ShapeMismatch e)
   <-> (length (shape (get_fdata fi)) <> 4%nat \/
        length (shape (get_fdata mi)) <> 3%nat \/
        firstn 3 (shape (get_fdata fi)) <> shape (get_fdata mi))) /\
  (forall e, Dataset_init fs fmri_path mask_path out tr = Raise e -> ShapeMismatch e) /\
  (length (shape (get_fdata fi)) = 4%nat ->
   length (shape (get_fdata mi)) = 3%nat ->
   firstn 3 (shape (get_fdata fi)) = shape (get_fdata mi) ->
   exists ds, Dataset_init fs fmri_path mask_path out tr = Ok ds /\
              data ds = get_fdata fi /\ mask ds = get_fdata mi).
Proof.
  intros Hf Hm. unfold Dataset_init. rewrite Hf, Hm, import_data_loaded.
  destruct (Nat.eqb_spec (length (shape (get_fdata fi))) 4) as [H4|H4]; cbn [negb].
  2:{ cbn [rbind]. unfold ShapeMismatch. repeat split.
      - intros _. now left.
      - intros _. eexists. split; [reflexivity|]. now left.
      - intros e [= <-]. now left.
      - intros; contradiction. }
  destruct (Nat.eqb_spec (length (shape (get_fdata mi))) 3) as [H3|H3]; cbn [negb].
  2:{ cbn [rbind]. unfold ShapeMismatch. repeat split.
      - intros _. right. now left.
      - intros _. eexists. split; [reflexivity|]. right. now left.
      - intros e [= <-]. right. now left.
      - intros; contradiction. }
  destruct (shape_eqb (firstn 3 (shape (get_fdata fi))) (shape (get_fdata mi))) eqn:He;
    cbn [negb].
  - apply shape_eqb_true in He. cbn [rbind]. repeat split.
    + intros [e [Hr _]]. discriminate Hr.
    + intros [H|[H|H]]; contradiction.
    + intros e Hr. discriminate Hr.
    + intros _ _ _. eexists. split; [reflexivity|]. split; reflexivity.
  - assert (Hne : firstn 3 (shape (get_fdata fi)) <> shape (get_fdata mi)).
    { intros Heq. apply shape_eqb_true in Heq. congruence. }
    cbn [rbind]. unfold ShapeMismatch. repeat split.
    + intros _. right. now right.
    + intros _. eexists. split; [reflexivity|]. right. now right.
    + intros e [= <-]. right. now right.
    + intros; contradiction.
Qed.

(** ** Buffers, slices and masks *)

Lemma length_repeat_last (n : nat) (m : list bool) :
  length (repeat_last n m) = (length m * n)%nat.
Proof.
  unfold repeat_last. induction m as [|b m IH]; [reflexivity|].
  cbn [flat_map length]. rewrite length_app, repeat_length, IH. lia.
Qed.

Lemma combine_repeat_app {A B : Type} (a : A) (b : B) (n : nat) (l : list A) (l' : list B) :
  combine (repeat a n ++ l) (repeat b n ++ l') = repeat (a, b) n ++ combine l l'.
Proof.
  induction n as [|n IH]; [reflexivity|]. cbn. now rewrite IH.
Qed.

Lemma or_repeat_last (n : nat) (a b : list bool) :
  length a = length b ->
  map (fun p => orb (fst p) (snd p)) (combine (repeat_last n a) (repeat_last n b))
  = repeat_last n (map (fun p => orb (fst p) (snd p)) (combine a b)).
Proof.
  unfold repeat_last. revert b.
  induction a as [|a0 a IH]; intros [|b0 b] Hl; try discriminate; [reflexivity|].
  cbn [flat_map combine map]. rewrite combine_repeat_app, map_app, IH by (simpl in Hl; lia).
  f_equal. clear. induction n as [|n IH]; [reflexivity|]. cbn. now rewrite IH.
Qed.

Lemma existsb_repeat_last (n : nat) (m : list bool) :
  (1 <= n)%nat ->
  existsb (fun b => b) (repeat_last n m) = existsb (fun b => b) m.
Proof.
  intros Hn. unfold repeat_last. induction m as [|b m IH]; [reflexivity|].
  cbn [flat_map existsb]. rewrite existsb_app, IH. f_equal.
  destruct n as [|n]; [lia|]. destruct b; cbn; [reflexivity|].
  clear. induction n as [|n IH]; [reflexivity|]. cbn. exact IH.
Qed.

Lemma row_of_concat {A : Type} (n : nat) (rs : list (list A)) (v : nat) :
  Forall (fun r => length r = n) rs -> (v < length rs)%nat ->
  row_of n v (concat rs) = nth v rs [].
Proof.
  unfold row_of. intros H. revert v.
  induction H as [|r rs Hr H IH]; intros v Hv; [simpl in Hv; lia|].
  destruct v as [|v]; cbn [concat nth].
  - cbn [Nat.mul skipn]. rewrite firstn_app, <- Hr, firstn_all, Nat.sub_diag.
    cbn [firstn]. now rewrite app_nil_r.
  - cbn [Nat.mul]. rewrite skipn_app.
    rewrite skipn_all2 by lia. cbn [app].
    replace (n + v * n - length r)%nat with (v * n)%nat by lia.
    apply IH. simpl in Hv. lia.
Qed.

Lemma length_row_of {A : Type} (n v : nat) (l : list A) :
  ((v + 1) * n <= length l)%nat -> length (row_of n v l) = n.
Proof.
  intros H. unfold row_of. rewrite length_firstn, length_skipn. lia.
Qed.

Lemma reshape_rows_ok {A : Type} (n k : nat) (l : list A) :
  (1 <= n)%nat -> length l = (k * n)%nat ->
  reshape_rows n l = Ok (map (fun v => row_of n v l) (seq 0 k)).
Proof.
  intros Hn Hl. unfold reshape_rows.
  destruct (Nat.eqb_spec n 0) as [->|_]; [lia|].
  rewrite Hl, Nat.Div0.mod_mul, Nat.div_mul by lia. reflexivity.
Qed.

Lemma reshape_rows_repeat_last (n : nat) (m : list bool) :
  (1 <= n)%nat ->
  reshape_rows n (repeat_last n m) = Ok (map (fun b => repeat b n) m).
Proof.
  intros Hn. rewrite reshape_rows_ok with (k := length m)
    by (assumption || apply length_repeat_last).
  f_equal. unfold repeat_last. rewrite flat_map_concat_map.
  apply nth_ext with (d := []) (d' := []).
  - now rewrite !length_map, length_seq.
  - intros v Hv. rewrite length_map, length_seq in Hv.
    rewrite nth_map_seq by assumption.
    apply row_of_concat.
    + apply Forall_map, Forall_forall. intros b _. apply repeat_length.
    + now rewrite length_map.
Qed.

Lemma existsb_negb_repeat (b : bool) (n : nat) :
  (1 <= n)%nat -> existsb negb (repeat b n) = negb b.
Proof.
  intros Hn. destruct n as [|n]; [lia|]. destruct b; cbn; [|reflexivity].
  clear. induction n as [|n IH]; [reflexivity|]. cbn. exact IH.
Qed.

Lemma take_rows_ok {A : Type} (d : A) (idx : list nat) (a : list A) :
  Forall (fun i => (i < length a)%nat) idx ->
  take_rows idx a = Ok (map (fun i => nth i a d) idx).
Proof.
  induction 1 as [|i idx Hi H IH]; [reflexivity|].
  cbn [take_rows map]. rewrite IH.
  destruct (nth_error a i) as [r|] eqn:E.
  - cbn [rbind]. now rewrite (nth_error_nth _ _ d E).
  - apply nth_error_None in E. lia.
Qed.

(** ** Per-voxel statistics *)

Lemma sumsq_center_alt (r : list R) :
  sumsq (center r) = Rsum (map (fun a => (a - Rmean r) * (a - Rmean r)) r).
Proof. unfold sumsq, center. now rewrite map_map. Qed.

Lemma Rstd_arg_nonneg (r : list R) : 0 <= sumsq (center r) / INR (length r).
Proof.
  destruct r as [|a r].
  - cbn. unfold Rdiv. rewrite Rmult_0_l. lra.
  - apply Rmult_le_pos; [apply sumsq_nonneg|].
    apply Rlt_le, Rinv_0_lt_compat. apply lt_0_INR. simpl. lia.
Qed.

Lemma Rstd_nonneg (r : list R) : 0 <= Rstd r.
Proof. apply sqrt_pos. Qed.

Lemma fstd_Fin (r : list R) : r <> [] -> fstd (map Fin r) = Fin (Rstd r).
Proof.
  intros Hr. unfold fstd. rewrite fmean_Fin by assumption.
  rewrite map_map. cbn [fsub fmul].
  rewrite <- map_map with (f := fun a => (a - Rmean r) * (a - Rmean r)) (g := Fin).
  rewrite fmean_Fin by (destruct r; [congruence|discriminate]).
  unfold Rmean at 1. rewrite length_map, <- sumsq_center_alt.
  apply fsqrt_Fin, Rstd_arg_nonneg.
Qed.

Lemma tsnr_Fin (r : list R) :
  r <> [] ->
  fdiv (fmean (map Fin r)) (fadd (fstd (map Fin r)) (Fin EPSILON)) = Fin (quality r).
Proof.
  intros Hr. rewrite fmean_Fin, fstd_Fin by assumption. cbn [fadd].
  pose proof (Rstd_nonneg r). pose proof EPSILON_pos.
  rewrite fdiv_Fin by lra. reflexivity.
Qed.

Lemma map_as_seq {A B : Type} (f : A -> B) (d : A) (l : list A) :
  map f l = map (fun v => f (nth v l d)) (seq 0 (length l)).
Proof.
  rewrite <- map_map with (f := fun v => nth v l d) (g := f).
  now rewrite map_nth_seq.
Qed.

Lemma wf_dataset_lengths (ds : Dataset) :
  wf_dataset ds ->
  length (flat (data ds)) = (nvox ds * t ds)%nat /\
  length (flat (mask ds)) = nvox ds /\
  last_dim (data ds) = t ds /\ n_slices (data ds) = nvox ds.
Proof.
  intros (Hd & Hm & Wd & Wm). unfold wf_nd in Wd, Wm.
  unfold last_dim, n_slices, nvox. rewrite Hd in *. rewrite Hm in Wm.
  cbn in *. repeat split; lia.
Qed.

Lemma voxel_series_nonempty (ds : Dataset) (v : nat) :
  wf_dataset ds -> (1 <= t ds)%nat -> (v < nvox ds)%nat ->
  length (voxel_series ds v) = t ds /\ voxel_series ds v <> [].
Proof.
  intros Hwf Ht Hv. destruct (wf_dataset_lengths ds Hwf) as (Hl & _).
  assert (Hlen : length (voxel_series ds v) = t ds).
  { apply length_row_of. rewrite Hl. nia. }
  split; [assumption|]. intros E. rewrite E in Hlen. simpl in Hlen. lia.
Qed.

Lemma data_tsnr_spec (ds : Dataset) :
  wf_dataset ds -> (1 <= t ds)%nat ->
  data_tsnr ds = map (fun v => Fin (quality (voxel_series ds v))) (seq 0 (nvox ds)).
Proof.
  intros Hwf Ht. destruct (wf_dataset_lengths ds Hwf) as (_ & _ & Hld & Hns).
  unfold data_tsnr, mean_last, std_last. rewrite Hld, Hns.
  rewrite combine_map_same, map_map. apply map_ext_in.
  intros v Hv. apply in_seq in Hv. cbn [fst snd].
  apply tsnr_Fin. apply (voxel_series_nonempty ds v); (assumption || lia).
Qed.

Lemma repeat_false_last (n k : nat) :
  repeat false (k * n) = repeat_last n (repeat false k).
Proof.
  unfold repeat_last. induction k as [|k IH]; [reflexivity|].
  cbn [Nat.mul repeat flat_map]. now rewrite repeat_app, IH.
Qed.

(** The per-voxel exclusion flags behind [mask_4d | tsnr_mask_4d]. *)
Lemma exclusion_spec (ds : Dataset) (th : option R) :
  wf_dataset ds -> (1 <= t ds)%nat ->
  (th = None \/ (x ds <> 1 /\ y ds <> 1 /\ z ds <> 1)%nat) ->
  exists tm,
    tsnr_mask_4d ds th = Ok tm /\
    map (fun p => orb (fst p) (snd p)) (combine (mask_4d ds) tm)
    = repeat_last (t ds) (map (fun v => negb (retainedb ds th v)) (seq 0 (nvox ds))).
Proof.
  intros Hwf Ht Hsq.
  destruct (wf_dataset_lengths ds Hwf) as (Hl & Hlm & _ & _).
  assert (Hmask : mask_4d ds = repeat_last (t ds)
            (map (fun v => if Rlt_dec (mask_value ds v) 0.5 then true else false)
                 (seq 0 (nvox ds)))).
  { unfold mask_4d. f_equal. rewrite map_as_seq with (d := 0), Hlm. reflexivity. }
  assert (Hfin : forall tb : nat -> bool,
    (forall v, (v < nvox ds)%nat ->
       orb (if Rlt_dec (mask_value ds v) 0.5 then true else false) (tb v)
       = negb (retainedb ds th v)) ->
    map (fun p => orb (fst p) (snd p))
        (combine (mask_4d ds) (repeat_last (t ds) (map tb (seq 0 (nvox ds)))))
    = repeat_last (t ds) (map (fun v => negb (retainedb ds th v)) (seq 0 (nvox ds)))).
  { intros tb Htb. rewrite Hmask, or_repeat_last by now rewrite !length_map.
    f_equal. rewrite combine_map_same, map_map. apply map_ext_in.
    intros v Hv. apply in_seq in Hv. cbn [fst snd]. apply Htb. lia. }
  destruct th as [th|].
  - destruct Hsq as [Hsq|(Hx & Hy & Hz)]; [discriminate|].
    eexists. split.
    + unfold tsnr_mask_4d. pose proof Hwf as (Hd & _). rewrite Hd.
      cbn [removelast app squeeze_shape filter].
      destruct (Nat.eqb_spec (x ds) 1) as [|_]; [contradiction|].
      destruct (Nat.eqb_spec (y ds) 1) as [|_]; [contradiction|].
      destruct (Nat.eqb_spec (z ds) 1) as [|_]; [contradiction|].
      cbn [negb length Nat.eqb Nat.ltb Nat.leb].
      rewrite data_tsnr_spec by assumption.
      rewrite map_map. reflexivity.
    + apply Hfin. intros v Hv. unfold retainedb. cbn [fltb].
      destruct (Rlt_dec (mask_value ds v) 0.5), (Rle_dec 0.5 (mask_value ds v));
        try lra; cbn [orb andb negb]; try reflexivity.
      destruct (Rlt_dec (quality (voxel_series ds v)) th),
               (Rle_dec th (quality (voxel_series ds v))); try lra; reflexivity.
  - exists (repeat_last (t ds) (map (fun _ => false) (seq 0 (nvox ds)))). split.
    + unfold tsnr_mask_4d. rewrite Hmask, length_repeat_last, length_map, length_seq.
      rewrite repeat_false_last. do 2 f_equal.
      clear. induction (nvox ds) as [|k IH]; [reflexivity|].
      rewrite seq_S, map_app, <- IH. cbn [map].
      now rewrite <- repeat_cons.
    + apply Hfin. intros v Hv. unfold retainedb.
      destruct (Rlt_dec (mask_value ds v) 0.5), (Rle_dec 0.5 (mask_value ds v));
        try lra; reflexivity.
Qed.

Lemma data_2d_spec (ds : Dataset) (th : option R) :
  carpet_pre ds th ->
  data_2d ds th
  = Ok (map (voxel_series ds) (seq 0 (nvox ds)),
        Some (map (fun v => repeat (negb (retainedb ds th v)) (t ds)) (seq 0 (nvox ds)))).
Proof.
  intros (Hwf & Ht & (v0 & Hv0 & Hex) & Hsq).
  destruct (exclusion_spec ds th Hwf Ht Hsq) as (tm & Htm & Hor).
  destruct (wf_dataset_lengths ds Hwf) as (Hl & _).
  unfold data_2d. rewrite Htm. cbn [rbind]. rewrite Hor.
  unfold masked_where. cbn [ma_data ma_mask].
  rewrite existsb_repeat_last by assumption.
  replace (existsb (fun b => b) (map (fun v => negb (retainedb ds th v)) (seq 0 (nvox ds))))
    with true.
  2:{ symmetry. apply existsb_exists. exists true. split; [|reflexivity].
      apply in_map_iff. exists v0. rewrite Hex. split; [reflexivity|].
      apply in_seq. lia. }
  rewrite reshape_rows_ok with (k := nvox ds) by assumption.
  cbn [rbind]. rewrite reshape_rows_repeat_last by assumption.
  cbn [rbind]. now rewrite map_map.
Qed.

Lemma filter_seq_lt (f : nat -> bool) (n : nat) :
  Forall (fun i => (i < n)%nat) (filter f (seq 0 n)).
Proof.
  apply Forall_forall. intros i Hi. apply filter_In in Hi.
  destruct Hi as [Hi _]. apply in_seq in Hi. lia.
Qed.

Lemma indices_valid_spec (ds : Dataset) (th : option R) :
  carpet_pre ds th ->
  indices_valid ds th = Ok (filter (retainedb ds th) (seq 0 (nvox ds))).
Proof.
  intros Hpre. unfold indices_valid. rewrite data_2d_spec by assumption.
  cbn [rbind snd where_any_unmasked]. rewrite length_map, length_seq.
  f_equal. apply filter_ext_in. intros v Hv. apply in_seq in Hv.
  rewrite nth_map_seq by lia.
  destruct Hpre as (_ & Ht & _).
  rewrite existsb_negb_repeat by assumption. apply negb_involutive.
Qed.

Lemma raw_carpet_spec (ds : Dataset) (th : option R) :
  carpet_pre ds th ->
  raw_carpet ds th
  = Ok (map (voxel_series ds) (filter (retainedb ds th) (seq 0 (nvox ds)))).
Proof.
  intros Hpre. pose proof (indices_valid_spec ds th Hpre) as Hi.
  unfold indices_valid in Hi. unfold raw_carpet.
  rewrite data_2d_spec in * by assumption.
  cbn [rbind snd fst] in *. rewrite Hi. cbn [rbind].
  rewrite take_rows_ok with (d := []).
  - f_equal. apply map_ext_in. intros v Hv.
    apply filter_In in Hv. destruct Hv as [Hv _]. apply in_seq in Hv.
    rewrite nth_map_seq by lia. reflexivity.
  - rewrite length_map, length_seq. apply filter_seq_lt.
Qed.

(** ** The z-score of a row *)

Lemma Rsum_map_scale (k : R) (l : list R) :
  Rsum (map (fun a => a * k) l) = Rsum l * k.
Proof.
  induction l as [|a l IH]; cbn [map Rsum fold_right]; [lra|].
  fold (Rsum (map (fun a => a * k) l)). fold (Rsum l). rewrite IH. lra.
Qed.

Lemma Rsum_map_shift (c : R) (l : list R) :
  Rsum (map (fun a => a - c) l) = Rsum l - INR (length l) * c.
Proof.
  induction l as [|a l IH]; [cbn; lra|].
  rewrite length_cons, S_INR. cbn [map Rsum fold_right].
  fold (Rsum (map (fun a => a - c) l)). fold (Rsum l). rewrite IH. lra.
Qed.

Lemma Rsum_center (r : list R) : r <> [] -> Rsum (center r) = 0.
Proof.
  intros Hr. unfold center. rewrite Rsum_map_shift. unfold Rmean.
  field. now apply INR_length_nonzero.
Qed.

Lemma sumsq_map_scale (k : R) (l : list R) :
  sumsq (map (fun a => a * k) l) = sumsq l * (k * k).
Proof.
  unfold sumsq. rewrite map_map.
  rewrite <- Rsum_map_scale, map_map. f_equal. apply map_ext. intros a. ring.
Qed.

Lemma Rzscore_alt (r : list R) :
  Rzscore r = map (fun a => a * / Rstd r) (center r).
Proof. unfold Rzscore, center. now rewrite map_map. Qed.

Lemma length_Rzscore (r : list R) : length (Rzscore r) = length r.
Proof. unfold Rzscore. apply length_map. Qed.

Lemma Rzscore_mean (r : list R) : r <> [] -> Rmean (Rzscore r) = 0.
Proof.
  intros Hr. unfold Rmean. rewrite Rzscore_alt, Rsum_map_scale, Rsum_center by assumption.
  unfold Rdiv. ring.
Qed.

Lemma Rstd_sqr (r : list R) : Rstd r * Rstd r = sumsq (center r) / INR (length r).
Proof. unfold Rstd. apply sqrt_sqrt, Rstd_arg_nonneg. Qed.

Lemma center_mean_zero (l : list R) : Rmean l = 0 -> center l = l.
Proof.
  intros H. unfold center. rewrite H. rewrite <- map_id. apply map_ext.
  intros a. lra.
Qed.

Lemma Rzscore_std (r : list R) : r <> [] -> Rstd r <> 0 -> Rstd (Rzscore r) = 1.
Proof.
  intros Hr Hs. unfold Rstd at 1.
  rewrite center_mean_zero by now apply Rzscore_mean.
  rewrite length_Rzscore, Rzscore_alt, sumsq_map_scale.
  replace (sumsq (center r) * (/ Rstd r * / Rstd r) / INR (length r))
    with ((sumsq (center r) / INR (length r)) * (/ Rstd r * / Rstd r))
    by (unfold Rdiv; ring).
  rewrite <- Rstd_sqr.
  replace (Rstd r * Rstd r * (/ Rstd r * / Rstd r)) with 1 by (field; assumption).
  apply sqrt_1.
Qed.

Lemma zscore_row_Fin (r : list R) :
  r <> [] -> Rstd r <> 0 -> zscore_row (map Fin r) = map Fin (Rzscore r).
Proof.
  intros Hr Hs. unfold zscore_row, Rzscore.
  rewrite fmean_Fin, fstd_Fin by assumption. rewrite !map_map.
  apply map_ext. intros a. cbn [fsub]. now apply fdiv_Fin.
Qed.

Lemma zscore_row_NaN (r : list R) :
  r <> [] -> Rstd r = 0 -> zscore_row (map Fin r) = repeat NaN (length r).
Proof.
  intros Hr Hs. unfold zscore_row.
  rewrite fmean_Fin, fstd_Fin by assumption. rewrite Hs, map_map.
  cbn [fsub]. generalize (Rmean r) as c. clear. intros c.
  induction r as [|a r IH]; [reflexivity|].
  cbn [map length repeat]. rewrite fdiv_zero. now rewrite IH.
Qed.

(** A row has zero standard deviation exactly when it is constant, and
    then every deviation from the mean is zero as well. *)
Lemma Rsum_zero_nonneg (l : list R) :
  Forall (fun a => 0 <= a) l -> Rsum l = 0 -> Forall (fun a => a = 0) l.
Proof.
  induction 1 as [|a l Ha H IH]; intros Hs; [constructor|].
  cbn [Rsum fold_right] in Hs. fold (Rsum l) in Hs.
  pose proof (Rsum_nonneg l H).
  constructor; [lra|]. apply IH. lra.
Qed.

Lemma Rstd_zero_center (r : list R) :
  r <> [] -> Rstd r = 0 -> Forall (fun a => a = 0) (center r).
Proof.
  intros Hr Hs. pose proof (Rstd_sqr r) as Hq. rewrite Hs in Hq.
  assert (Hss : sumsq (center r) = 0).
  { pose proof (INR_length_nonzero r Hr) as Hn.
    replace (sumsq (center r)) with (sumsq (center r) / INR (length r) * INR (length r))
      by (field; assumption).
    rewrite <- Hq. ring. }
  unfold sumsq in Hss. apply Rsum_zero_nonneg in Hss.
  - rewrite Forall_forall in *. intros a Ha.
    assert (Hsq : a * a = 0) by (apply Hss, in_map_iff; now exists a).
    nra.
  - apply Forall_forall. intros b Hb. apply in_map_iff in Hb.
    destruct Hb as (a & <- & _). nra.
Qed.

(** ** [pearsonr_2d] on arbitrary float64 arrays *)

Lemma pearsonr_2d_rows (A B : array2) :
  wf2 B -> ncol A = ncol B ->
  pearsonr_2d A B
  = Ok (mk2 (nrow B) (map (fun a => map (fun b => row_corr a b) (rows B)) (rows A))).
Proof.
  intros HB Hc. unfold pearsonr_2d, pearsonr_numerator, pearsonr_denominator.
  assert (HwB : wf2 (sub_row_mean B)).
  { unfold wf2, sub_row_mean in *. cbn [ncol rows].
    apply Forall_map. eapply Forall_impl; [|exact HB].
    intros r Hr. cbn beta. now rewrite length_map. }
  unfold np_dot at 1.
  replace (ncol (sub_row_mean A) =? nrow (transpose (sub_row_mean B)))%nat with true.
  2:{ symmetry. apply Nat.eqb_eq. unfold nrow, transpose, sub_row_mean.
      cbn [ncol rows]. now rewrite length_map, length_seq. }
  rewrite transpose_transpose by assumption.
  cbn [rbind].
  unfold np_dot. cbn [col_vec row_vec ncol nrow rows length Nat.eqb rbind].
  rewrite transpose_row_vec.
  unfold map2, amap, transpose, nrow, sub_row_mean, sum_sq_rows. cbn [ncol rows].
  rewrite !length_map. f_equal. f_equal.
  rewrite !map_map. rewrite combine_map_same, map_map.
  apply map_ext. intros a. cbn [fst snd].
  rewrite !map_map. rewrite combine_map_same, map_map.
  apply map_ext. intros b. cbn [fst snd].
  unfold row_corr. rewrite ?map_map. reflexivity.
Qed.

Lemma row_corr_Fin (a b : list R) :
  row_corr (map Fin a) (map Fin b) = Fin (pearson_eps a b).
Proof.
  unfold row_corr. rewrite !sub_mean_Fin, !sum_sq_Fin, vdot_Fin.
  cbn [fmul fadd].
  pose proof (sumsq_nonneg (center a)). pose proof (sumsq_nonneg (center b)).
  rewrite fsqrt_Fin by nra. cbn [fadd].
  rewrite Rplus_0_r.
  pose proof (pearson_denominator_pos a b). pose proof EPSILON_pos.
  rewrite fdiv_Fin by lra. reflexivity.
Qed.

(** ** [np.argsort] and the descending order *)

Lemma fleb_total (a b : float64) : fleb a b = true \/ fleb b a = true.
Proof.
  destruct a as [u|], b as [v|]; cbn; auto.
  destruct (Rle_dec u v), (Rle_dec v u); auto. lra.
Qed.

Lemma fleb_trans (a b c : float64) :
  fleb a b = true -> fleb b c = true -> fleb a c = true.
Proof.
  destruct a as [u|], b as [v|], c as [w|]; cbn; try congruence.
  destruct (Rle_dec u v), (Rle_dec v w), (Rle_dec u w); try congruence. lra.
Qed.

Lemma fleb_refl (a : float64) : fleb a a = true.
Proof. destruct (fleb_total a a); assumption. Qed.

Lemma insert_index_perm (keys : list float64) (i : nat) (l : list nat) :
  Permutation (insert_index keys i l) (i :: l).
Proof.
  induction l as [|j l IH]; cbn [insert_index]; [reflexivity|].
  destruct (fleb (nth i keys NaN) (nth j keys NaN)); [reflexivity|].
  rewrite IH. apply perm_swap.
Qed.

Lemma argsort_perm (keys : list float64) :
  Permutation (argsort keys) (seq 0 (length keys)).
Proof.
  unfold argsort. induction (seq 0 (length keys)) as [|i l IH]; [reflexivity|].
  cbn [fold_right]. rewrite insert_index_perm. now constructor.
Qed.

Lemma insert_index_sorted (keys : list float64) (i : nat) (l : list nat) :
  StronglySorted (key_le keys) l -> StronglySorted (key_le keys) (insert_index keys i l).
Proof.
  induction 1 as [|j l Hs IH Hj]; cbn [insert_index].
  - repeat constructor.
  - destruct (fleb (nth i keys NaN) (nth j keys NaN)) eqn:E.
    + constructor; [now constructor|].
      constructor; [exact E|].
      eapply Forall_impl; [|exact Hj]. intros k Hk.
      unfold key_le in *. eapply fleb_trans; eassumption.
    + constructor; [assumption|].
      assert (Hji : key_le keys j i).
      { unfold key_le. destruct (fleb_total (nth j keys NaN) (nth i keys NaN)); congruence. }
      apply (Permutation_Forall (Permutation_sym (insert_index_perm keys i l))).
      now constructor.
Qed.

Lemma argsort_sorted (keys : list float64) :
  StronglySorted (key_le keys) (argsort keys).
Proof.
  unfold argsort. induction (seq 0 (length keys)) as [|i l IH]; [constructor|].
  cbn [fold_right]. now apply insert_index_sorted.
Qed.

Lemma StronglySorted_app {A : Type} (P : A -> A -> Prop) (l1 l2 : list A) :
  StronglySorted P l1 -> StronglySorted P l2 ->
  (forall a b, In a l1 -> In b l2 -> P a b) ->
  StronglySorted P (l1 ++ l2).
Proof.
  induction 1 as [|a l1 Hs IH Ha]; intros H2 Hc; [assumption|].
  cbn [app]. constructor.
  - apply IH; [assumption|]. intros u v Hu Hv. apply Hc; [now right|assumption].
  - apply Forall_app. split; [assumption|].
    apply Forall_forall. intros v Hv. apply Hc; [now left|assumption].
Qed.

Lemma StronglySorted_rev {A : Type} (P : A -> A -> Prop) (l : list A) :
  StronglySorted P l -> StronglySorted (fun a b => P b a) (rev l).
Proof.
  induction 1 as [|a l Hs IH Ha]; [constructor|].
  cbn [rev]. apply StronglySorted_app; [assumption|repeat constructor|].
  intros u v Hu [<-|[]]. apply in_rev in Hu.
  rewrite Forall_forall in Ha. now apply Ha.
Qed.

Lemma sort_index_perm (keys : list float64) :
  Permutation (sort_index keys) (seq 0 (length keys)).
Proof.
  unfold sort_index. rewrite <- Permutation_rev. apply argsort_perm.
Qed.

Lemma sort_index_sorted (keys : list float64) :
  StronglySorted (fun i j => key_le keys j i) (sort_index keys).
Proof.
  unfold sort_index. apply StronglySorted_rev, argsort_sorted.
Qed.

Lemma sort_index_lt (keys : list float64) :
  Forall (fun i => (i < length keys)%nat) (sort_index keys).
Proof.
  apply Forall_forall. intros i Hi.
  apply (Permutation_in _ (sort_index_perm keys)) in Hi.
  apply in_seq in Hi. lia.
Qed.

(** ** Running [get_carpet] *)

Lemma length_global_signal (c : array2) : length (global_signal c) = ncol c.
Proof.
  unfold global_signal, transpose. cbn [rows].
  now rewrite !length_map, length_seq.
Qed.

Lemma concat_map_singleton {A B : Type} (f : A -> B) (l : list A) :
  concat (map (fun a => [f a]) l) = map f l.
Proof.
  induction l as [|a l IH]; [reflexivity|]. cbn. now rewrite IH.
Qed.

Lemma gs_corr_spec (n : nat) (c : array2) :
  ncol c = n -> gs_corr n c = Ok (map (corr_gs c) (rows c)).
Proof.
  intros Hn. unfold gs_corr. rewrite length_global_signal, Hn, Nat.eqb_refl.
  rewrite pearsonr_2d_rows.
  - cbn [rbind rows map]. unfold corr_gs. now rewrite concat_map_singleton.
  - unfold wf2. cbn [rows ncol]. constructor; [|constructor].
    now rewrite length_global_signal.
  - exact Hn.
Qed.

Lemma reorder_carpet_spec (n : nat) (c : array2) :
  ncol c = n -> reorder_carpet n c = Ok (reordered c).
Proof.
  intros Hn. unfold reorder_carpet. rewrite gs_corr_spec by assumption.
  cbn [rbind]. rewrite take_rows_ok with (d := []).
  - reflexivity.
  - pose proof (sort_index_lt (map (corr_gs c) (rows c))) as H.
    now rewrite length_map in H.
Qed.

Lemma get_carpet_run (th : option R) (reorder save : bool) (w : World) :
  carpet_pre (self w) th ->
  get_carpet th reorder save w
  = (mkWorld (set_carpet (final_carpet (self w) th reorder) (self w))
             (if save
              then ("carpet.npy"%string, NpyArray (final_carpet (self w) th reorder)) :: disk w
              else disk w),
     Ok tt).
Proof.
  intros Hpre. unfold get_carpet, bind, get_self, lift.
  rewrite raw_carpet_spec by assumption.
  assert (Hn : zscore (mk2 (t (self w))
                 (map (map Fin) (map (voxel_series (self w))
                    (filter (retainedb (self w) th) (seq 0 (nvox (self w)))))))
               = normalized_carpet (self w) th).
  { unfold zscore, normalized_carpet, retained_indices. cbn [ncol rows].
    now rewrite !map_map. }
  rewrite Hn. unfold final_carpet.
  destruct reorder.
  - rewrite reorder_carpet_spec by reflexivity.
    destruct save; reflexivity.
  - destruct save; reflexivity.
Qed.

(** ** The constructed object *)

Lemma Dataset_init_shape_check_witness :
  ((exists e, Dataset_init sample_files "func.nii" "mask.nii" "out" 2 = Raise e /\ ShapeMismatch e)
   <-> (length [3; 1; 1; 2]%nat <> 4%nat \/
        length [3; 1; 1]%nat <> 3%nat \/
        firstn 3 [3; 1; 1; 2]%nat <> [3; 1; 1]%nat)) /\
  (forall e, Dataset_init sample_files "func.nii" "mask.nii" "out" 2 = Raise e -> ShapeMismatch e) /\
  (length [3; 1; 1; 2]%nat = 4%nat ->
   length [3; 1; 1]%nat = 3%nat ->
   firstn 3 [3; 1; 1; 2]%nat = [3; 1; 1]%nat ->
   exists ds, Dataset_init sample_files "func.nii" "mask.nii" "out" 2 = Ok ds /\
              data ds = mknd [3; 1; 1; 2]%nat [0; 2; 2; 0; 0; 0] /\
              mask ds = mknd [3; 1; 1]%nat [1; 1; 0]).
Proof.
  apply (Dataset_init_shape_check sample_files "func.nii" "mask.nii" "out" 2
           (mknifti (mknd [3; 1; 1; 2]%nat [0; 2; 2; 0; 0; 0]) "" [])
           (mknifti (mknd [3; 1; 1]%nat [1; 1; 0]) "" [])); reflexivity.
Defined.

(** [import_data] establishes the invariant the carpet code relies on. *)
Lemma Dataset_init_wf (fs : string -> file_status)
    (fmri_path mask_path out : string) (tr : R) (fi mi : nifti) (ds : Dataset) :
  fs fmri_path = Loaded fi -> fs mask_path = Loaded mi ->
  wf_nd (get_fdata fi) -> wf_nd (get_fdata mi) ->
  Dataset_init fs fmri_path mask_path out tr = Ok ds -> wf_dataset ds.
Proof.
  intros Hf Hm Wf Wm. unfold Dataset_init. rewrite Hf, Hm, import_data_loaded.
  destruct (Nat.eqb_spec (length (shape (get_fdata fi))) 4) as [H4|]; cbn [negb];
    [|discriminate].
  destruct (Nat.eqb_spec (length (shape (get_fdata mi))) 3) as [H3|]; cbn [negb];
    [|discriminate].
  destruct (shape_eqb (firstn 3 (shape (get_fdata fi))) (shape (get_fdata mi))) eqn:He;
    cbn [negb]; [|discriminate].
  apply shape_eqb_true in He. cbn [rbind]. intros [= <-].
  unfold wf_dataset. cbn [data mask x y z t].
  destruct (shape (get_fdata fi)) as [|a [|b [|c [|d [|]]]]]; try discriminate.
  cbn [firstn] in He. cbn [nth]. rewrite <- He. repeat split; assumption.
Qed.

(** ** When [get_carpet] raises *)

Lemma get_carpet_raise (th : option R) (reorder save : bool) (w : World) (e : exn) :
  raw_carpet (self w) th = Raise e -> get_carpet th reorder save w = (w, Raise e).
Proof.
  intros H. unfold get_carpet, bind, get_self, lift. now rewrite H.
Qed.

Lemma data_2d_raise (ds : Dataset) (th : option R) (e : exn) :
  data_2d ds th = Raise e -> raw_carpet ds th = Raise e.
Proof. intros H. unfold raw_carpet. now rewrite H. Qed.

Lemma tsnr_mask_4d_singleton (ds : Dataset) (th : R) :
  wf_dataset ds ->
  ~ (x ds <> 1 /\ y ds <> 1 /\ z ds <> 1)%nat ->
  tsnr_mask_4d ds (Some th) = Raise (IndexError "too many indices for array").
Proof.
  intros (Hd & _) Hn. unfold tsnr_mask_4d. rewrite Hd.
  cbn [removelast app squeeze_shape filter].
  destruct (Nat.eqb_spec (x ds) 1), (Nat.eqb_spec (y ds) 1), (Nat.eqb_spec (z ds) 1);
    cbn [negb length Nat.eqb Nat.ltb Nat.leb]; try reflexivity.
  exfalso. apply Hn. now repeat split.
Qed.

Lemma data_2d_nothing_excluded (ds : Dataset) (th : option R) :
  wf_dataset ds -> (1 <= t ds)%nat ->
  (th = None \/ (x ds <> 1 /\ y ds <> 1 /\ z ds <> 1)%nat) ->
  (forall v, (v < nvox ds)%nat -> retainedb ds th v = true) ->
  data_2d ds th = Ok (map (voxel_series ds) (seq 0 (nvox ds)), None).
Proof.
  intros Hwf Ht Hsq Hall.
  destruct (exclusion_spec ds th Hwf Ht Hsq) as (tm & Htm & Hor).
  destruct (wf_dataset_lengths ds Hwf) as (Hl & _).
  unfold data_2d. rewrite Htm. cbn [rbind]. rewrite Hor.
  unfold masked_where. cbn [ma_data ma_mask].
  rewrite existsb_repeat_last by assumption.
  replace (existsb (fun b => b) (map (fun v => negb (retainedb ds th v)) (seq 0 (nvox ds))))
    with false.
  2:{ symmetry. apply not_true_is_false. intros H.
      apply existsb_exists in H. destruct H as (b & Hin & Hb). subst b.
      apply in_map_iff in Hin. destruct Hin as (v & Hv & Hin).
      apply in_seq in Hin. rewrite Hall in Hv by lia. discriminate. }
  rewrite reshape_rows_ok with (k := nvox ds) by assumption.
  reflexivity.
Qed.

(** [get_carpet] returns normally on exactly the inputs described by
    [carpet_pre]. *)
Lemma get_carpet_ok_pre (th : option R) (reorder save : bool) (w w' : World) :
  wf_dataset (self w) ->
  get_carpet th reorder save w = (w', Ok tt) -> carpet_pre (self w) th.
Proof.
  intros Hwf Hrun.
  assert (Hsq : th = None \/ (x (self w) <> 1 /\ y (self w) <> 1 /\ z (self w) <> 1)%nat).
  { destruct th as [th|]; [|now left]. right.
    destruct (Nat.eq_dec (x (self w)) 1) as [Hx|Hx];
      [|destruct (Nat.eq_dec (y (self w)) 1) as [Hy|Hy];
        [|destruct (Nat.eq_dec (z (self w)) 1) as [Hz|Hz]; [|now repeat split]]];
      exfalso;
      (rewrite (get_carpet_raise _ _ _ _ (IndexError "too many indices for array")) in Hrun;
       [discriminate|]);
      apply data_2d_raise; unfold data_2d;
      (rewrite tsnr_mask_4d_singleton by (assumption || tauto)); reflexivity. }
  assert (Ht : (1 <= t (self w))%nat).
  { destruct (t (self w)) as [|k] eqn:Et; [|lia]. exfalso.
    destruct (tsnr_mask_4d (self w) th) as [tm|e] eqn:Etm.
    - rewrite (get_carpet_raise _ _ _ _
                 (ValueError "cannot reshape array of size 0 into shape (0)")) in Hrun;
        [discriminate|].
      apply data_2d_raise. unfold data_2d. rewrite Etm, Et. reflexivity.
    - rewrite (get_carpet_raise _ _ _ _ e) in Hrun; [discriminate|].
      apply data_2d_raise. unfold data_2d. now rewrite Etm. }
  repeat split; try assumption; try (destruct Hwf as (? & ? & ? & ?); assumption).
  destruct (forallb (retainedb (self w) th) (seq 0 (nvox (self w)))) eqn:Eall.
  - exfalso. rewrite forallb_forall in Eall.
    rewrite (get_carpet_raise _ _ _ _
               (AxisError "axis 1 is out of bounds for array of dimension 0")) in Hrun;
      [discriminate|].
    unfold raw_carpet. rewrite data_2d_nothing_excluded; try assumption; [reflexivity|].
    intros v Hv. apply Eall, in_seq. lia.
  - assert (Hex : exists v, In v (seq 0 (nvox (self w))) /\ retainedb (self w) th v = false).
    { clear -Eall. induction (seq 0 (nvox (self w))) as [|v l IH]; [discriminate|].
      cbn [forallb] in Eall. apply andb_false_iff in Eall.
      destruct Eall as [E|E].
      - exists v. split; [now left|assumption].
      - destruct (IH E) as (v' & Hin & Hv'). exists v'. split; [now right|assumption]. }
    destruct Hex as (v & Hin & Hv). apply in_seq in Hin.
    exists v. split; [lia|assumption].
Qed.

(** ** Claims on [get_carpet] *)

(** C2.  The claim asks for the retained index sequence on every volume,
    mask and threshold setting.  On a volume with a spatial axis of length
    one and the default threshold 15.0, where both voxels lie inside the
    mask, [get_carpet] computes no index sequence: squeezing the quality map
    drops the axis and the three-slice indexing that follows raises
    [IndexError]. *)
Theorem get_carpet_singleton_axis_raises :
  get_carpet (Some 15) true true (mkWorld thin_dataset [])
  = (mkWorld thin_dataset [], Raise (IndexError "too many indices for array")).
Proof. reflexivity. Qed.

(** The second way [get_carpet] stops short: when no voxel is excluded the
    masked array carries [nomask], and [np.any(..., axis=1)] of the scalar
    raises [AxisError]. *)
Lemma get_carpet_nothing_excluded_raises :
  get_carpet None true true (mkWorld full_mask_dataset [])
  = (mkWorld full_mask_dataset [],
     Raise (AxisError "axis 1 is out of bounds for array of dimension 0")).
Proof.
  unfold get_carpet, bind, get_self, lift, raw_carpet, data_2d.
  cbn [self tsnr_mask_4d rbind].
  unfold masked_where, mask_4d, full_mask_dataset, sample_dataset.
  cbn [mask flat t map repeat_last flat_map repeat app length combine fst snd].
  destruct (Rlt_dec 1 0.5) as [H|_]; [lra|].
  cbn [orb existsb ma_data ma_mask data flat].
  reflexivity.
Qed.

Lemma retainedb_true_iff (ds : Dataset) (th : option R) (v : nat) :
  retainedb ds th v = true <-> retained ds th v.
Proof.
  unfold retainedb, retained.
  destruct (Rle_dec 0.5 (mask_value ds v)) as [Hm|Hm]; cbn [andb].
  - destruct th as [th|].
    + destruct (Rle_dec th (quality (voxel_series ds v))); split; intros H;
        try tauto; try discriminate.
    + tauto.
  - split; [discriminate|tauto].
Qed.

Lemma filter_seq_sorted (f : nat -> bool) (s n : nat) :
  StronglySorted lt (filter f (seq s n)).
Proof.
  revert s. induction n as [|n IH]; intros s; [constructor|].
  cbn [seq filter]. destruct (f s); [|apply IH].
  constructor; [apply IH|].
  apply Forall_forall. intros i Hi. apply filter_In in Hi.
  destruct Hi as [Hi _]. apply in_seq in Hi. lia.
Qed.

Lemma ravel3_onto (ds : Dataset) (v : nat) :
  (v < nvox ds)%nat ->
  exists i j k, (i < x ds /\ j < y ds /\ k < z ds)%nat /\ v = ravel3 ds i j k.
Proof.
  unfold nvox, ravel3. intros Hv.
  assert (Hz : z ds <> 0%nat) by (intros E; rewrite E in Hv; lia).
  assert (Hy : y ds <> 0%nat) by (intros E; rewrite E in Hv; lia).
  exists (v / z ds / y ds)%nat, ((v / z ds) mod y ds)%nat, (v mod z ds)%nat.
  pose proof (Nat.div_mod_eq v (z ds)) as E1.
  pose proof (Nat.div_mod_eq (v / z ds) (y ds)) as E2.
  pose proof (Nat.mod_upper_bound v (z ds) Hz).
  pose proof (Nat.mod_upper_bound (v / z ds) (y ds) Hy).
  repeat split; try assumption.
  - apply Nat.Div0.div_lt_upper_bound. apply Nat.Div0.div_lt_upper_bound. nia.
  - rewrite E1 at 1. rewrite E2 at 1. ring.
Qed.

Lemma ravel3_lt (ds : Dataset) (i j k : nat) :
  (i < x ds)%nat -> (j < y ds)%nat -> (k < z ds)%nat -> (ravel3 ds i j k < nvox ds)%nat.
Proof.
  unfold ravel3, nvox. intros Hi Hj Hk.
  assert (H1 : (i * y ds + j + 1 <= x ds * y ds)%nat) by nia.
  assert (H2 : ((i * y ds + j + 1) * z ds <= x ds * y ds * z ds)%nat)
    by (apply Nat.mul_le_mono_r; exact H1).
  lia.
Qed.

(** On the inputs where [get_carpet] gets through, the index sequence it
    computes is the increasing sequence of the row-major positions of the
    voxels with mask >= 0.5 and, under a threshold, quality >= threshold;
    and the carpet has one row per index. *)
Lemma get_carpet_indices (th : option R) (reorder save : bool) (w : World) :
  carpet_pre (self w) th ->
  exists idx w' c,
    indices_valid (self w) th = Ok idx /\
    get_carpet th reorder save w = (w', Ok tt) /\
    carpet (self w') = Some c /\
    nrow c = length idx /\ ncol c = t (self w) /\
    StronglySorted lt idx /\
    (forall v, In v idx <-> (v < nvox (self w))%nat /\ retained (self w) th v) /\
    (forall v, In v idx <->
       exists i j k, (i < x (self w) /\ j < y (self w) /\ k < z (self w))%nat /\
                     v = ravel3 (self w) i j k /\
                     retained (self w) th (ravel3 (self w) i j k)).
Proof.
  intros Hpre.
  assert (Hin : forall v, In v (retained_indices (self w) th) <->
                          (v < nvox (self w))%nat /\ retained (self w) th v).
  { intros v. unfold retained_indices. rewrite filter_In, in_seq, retainedb_true_iff.
    intuition lia. }
  exists (retained_indices (self w) th). do 2 eexists.
  split; [now apply indices_valid_spec|].
  split; [now apply get_carpet_run|].
  cbn [self carpet set_carpet]. split; [reflexivity|].
  split.
  { unfold final_carpet, reordered, normalized_carpet, nrow.
    destruct reorder; cbn [rows ncol]; rewrite ?length_map; [|reflexivity].
    rewrite (Permutation_length (sort_index_perm _)).
    now rewrite length_seq, !length_map. }
  split.
  { unfold final_carpet, reordered, normalized_carpet. destruct reorder; reflexivity. }
  split; [apply filter_seq_sorted|].
  split; [exact Hin|].
  intros v. rewrite Hin. split.
  - intros [Hv Hr]. destruct (ravel3_onto _ v Hv) as (i & j & k & Hb & ->).
    now exists i, j, k.
  - intros (i & j & k & (Hi & Hj & Hk) & -> & Hr).
    split; [now apply ravel3_lt|assumption].
Qed.

Lemma zscored_row_spec (raw : list R) :
  raw <> [] -> zscored_row raw (zscore_row (map Fin raw)).
Proof.
  intros Hr. unfold zscored_row.
  destruct (Req_dec_T (Rstd raw) 0) as [Hs|Hs].
  - right. split; [assumption|]. now apply zscore_row_NaN.
  - left. split; [assumption|]. exists (Rzscore raw).
    split; [now apply zscore_row_Fin|].
    split; [apply length_Rzscore|].
    split; [now apply Rzscore_mean|now apply Rzscore_std].
Qed.

Lemma final_carpet_rows_incl (ds : Dataset) (th : option R) (reorder : bool) (r : list float64) :
  In r (rows (final_carpet ds th reorder)) -> In r (rows (normalized_carpet ds th)).
Proof.
  unfold final_carpet. destruct reorder; [|trivial].
  unfold reordered. cbn [rows]. intros Hr.
  apply in_map_iff in Hr. destruct Hr as (i & <- & Hi).
  apply nth_In.
  pose proof (sort_index_lt (map (corr_gs (normalized_carpet ds th))
                                 (rows (normalized_carpet ds th)))) as Hlt.
  rewrite Forall_forall in Hlt. specialize (Hlt i Hi).
  now rewrite length_map in Hlt.
Qed.

(** Reordering rearranges the rows and loses none. *)
Lemma reordered_perm (c : array2) : Permutation (rows (reordered c)) (rows c).
Proof.
  unfold reordered. cbn [rows].
  pose proof (sort_index_perm (map (corr_gs c) (rows c))) as Hp.
  rewrite length_map in Hp.
  rewrite (Permutation_map (fun i => nth i (rows c) []) Hp).
  now rewrite map_nth_seq.
Qed.

(** C3.  Every carpet [get_carpet] produces has z-scored rows, one for
    each retained voxel: each stored row is the z-score of the series of a
    retained voxel, a row of mean 0 and standard deviation 1 (exactly, on
    real numbers), except that a series of zero standard deviation gives a
    row of NaN; and conversely every retained voxel has its z-scored row
    in the carpet (the rows are those of the retained voxels, in their
    order or rearranged), so the NaN row of a constant voxel is there and
    not dropped.  Whether the call returns does not depend on such rows:
    it returns on every input that meets [carpet_pre]. *)
Theorem get_carpet_rows_zscored (th : option R) (reorder save : bool) (w : World) :
  wf_dataset (self w) ->
  (carpet_pre (self w) th ->
   exists w', get_carpet th reorder save w = (w', Ok tt)) /\
  (forall w', get_carpet th reorder save w = (w', Ok tt) ->
     exists c,
       carpet (self w') = Some c /\
       Forall (fun r => exists v,
                 In v (retained_indices (self w) th) /\
                 r = zscore_row (map Fin (voxel_series (self w) v)) /\
                 zscored_row (voxel_series (self w) v) r)
              (rows c) /\
       Permutation (rows c)
         (map (fun v => zscore_row (map Fin (voxel_series (self w) v)))
              (retained_indices (self w) th)) /\
       (forall v, (v < nvox (self w))%nat -> retained (self w) th v ->
          In v (retained_indices (self w) th) /\
          In (zscore_row (map Fin (voxel_series (self w) v))) (rows c) /\
          zscored_row (voxel_series (self w) v)
                      (zscore_row (map Fin (voxel_series (self w) v))) /\
          (Rstd (voxel_series (self w) v) = 0 ->
           In (repeat NaN (t (self w))) (rows c)))).
Proof.
  intros Hwf. split.
  - intros Hpre. eexists. now apply get_carpet_run.
  - intros w' Hrun.
    pose proof (get_carpet_ok_pre th reorder save w w' Hwf Hrun) as Hpre.
    rewrite get_carpet_run in Hrun by assumption.
    injection Hrun as <-.
    eexists. cbn [self carpet set_carpet]. split; [reflexivity|].
    destruct Hpre as (_ & Ht & _).
    assert (Hperm : Permutation (rows (final_carpet (self w) th reorder))
                      (map (fun v => zscore_row (map Fin (voxel_series (self w) v)))
                           (retained_indices (self w) th))).
    { unfold final_carpet. destruct reorder; [|reflexivity].
      apply (reordered_perm (normalized_carpet (self w) th)). }
    split; [|split; [exact Hperm|]].
    + apply Forall_forall. intros r Hr.
      apply final_carpet_rows_incl in Hr.
      unfold normalized_carpet in Hr. cbn [rows] in Hr.
      apply in_map_iff in Hr. destruct Hr as (v & <- & Hv).
      exists v. split; [assumption|]. split; [reflexivity|].
      apply zscored_row_spec.
      unfold retained_indices in Hv. apply filter_In in Hv.
      destruct Hv as [Hv _]. apply in_seq in Hv.
      apply (voxel_series_nonempty (self w) v); (assumption || lia).
    + intros v Hv Hret.
      assert (Hin : In v (retained_indices (self w) th)).
      { unfold retained_indices. apply filter_In. split; [apply in_seq; lia|].
        now apply retainedb_true_iff. }
      destruct (voxel_series_nonempty (self w) v Hwf Ht Hv) as [Hlen Hne].
      assert (Hrow : In (zscore_row (map Fin (voxel_series (self w) v)))
                        (rows (final_carpet (self w) th reorder))).
      { apply (Permutation_in _ (Permutation_sym Hperm)).
        apply in_map_iff. now exists v. }
      split; [exact Hin|]. split; [exact Hrow|].
      split; [now apply zscored_row_spec|].
      intros Hstd. rewrite <- Hlen, <- zscore_row_NaN by assumption. exact Hrow.
Qed.

Lemma constant_voxel_pre : carpet_pre constant_voxel_dataset None.
Proof.
  repeat split; try reflexivity.
  - cbn. lia.
  - exists 2%nat. split; [cbn; lia|].
    unfold retainedb, mask_value. cbn.
    destruct (Rle_dec 0.5 0); [lra|reflexivity].
  - now left.
Qed.

Lemma get_carpet_rows_zscored_witness :
  (carpet_pre constant_voxel_dataset None ->
   exists w', get_carpet None true true (mkWorld constant_voxel_dataset []) = (w', Ok tt)) /\
  (forall w', get_carpet None true true (mkWorld constant_voxel_dataset []) = (w', Ok tt) ->
     exists c,
       carpet (self w') = Some c /\
       Forall (fun r => exists v,
                 In v (retained_indices constant_voxel_dataset None) /\
                 r = zscore_row (map Fin (voxel_series constant_voxel_dataset v)) /\
                 zscored_row (voxel_series constant_voxel_dataset v) r)
              (rows c) /\
       Permutation (rows c)
         (map (fun v => zscore_row (map Fin (voxel_series constant_voxel_dataset v)))
              (retained_indices constant_voxel_dataset None)) /\
       (forall v, (v < nvox constant_voxel_dataset)%nat ->
          retained constant_voxel_dataset None v ->
          In v (retained_indices constant_voxel_dataset None) /\
          In (zscore_row (map Fin (voxel_series constant_voxel_dataset v))) (rows c) /\
          zscored_row (voxel_series constant_voxel_dataset v)
                      (zscore_row (map Fin (voxel_series constant_voxel_dataset v))) /\
          (Rstd (voxel_series constant_voxel_dataset v) = 0 ->
           In (repeat NaN (t constant_voxel_dataset)) (rows c)))).
Proof.
  apply (get_carpet_rows_zscored None true true (mkWorld constant_voxel_dataset [])).
  repeat split; reflexivity.
Defined.

Lemma filter_none {A : Type} (f : A -> bool) (l : list A) :
  (forall a, In a l -> f a = false) -> filter f l = [].
Proof.
  induction l as [|a l IH]; intros H; [reflexivity|].
  cbn [filter]. rewrite (H a) by now left.
  apply IH. intros b Hb. apply H. now right.
Qed.

(** C8, as the code has it.  When every voxel is excluded (and the call
    gets as far as building a carpet), [get_carpet] does not fail: it
    returns normally and stores a carpet with no rows. *)
Theorem get_carpet_all_excluded (th : option R) (reorder save : bool) (w : World) :
  carpet_pre (self w) th ->
  (forall v, (v < nvox (self w))%nat -> retainedb (self w) th v = false) ->
  exists w',
    get_carpet th reorder save w = (w', Ok tt) /\
    carpet (self w') = Some (mk2 (t (self w)) []).
Proof.
  intros Hpre Hall. eexists. split; [now apply get_carpet_run|].
  cbn [self carpet set_carpet]. f_equal.
  assert (Hn : normalized_carpet (self w) th = mk2 (t (self w)) []).
  { unfold normalized_carpet, retained_indices. rewrite filter_none; [reflexivity|].
    intros v Hv. apply in_seq in Hv. apply Hall. lia. }
  unfold final_carpet. rewrite Hn. destruct reorder; reflexivity.
Qed.

Lemma empty_mask_excluded (v : nat) :
  (v < nvox empty_mask_dataset)%nat -> retainedb empty_mask_dataset None v = false.
Proof.
  intros Hv. unfold retainedb, mask_value.
  destruct v as [|[|v]]; cbn; [| |cbn in Hv; lia];
    (destruct (Rle_dec 0.5 0); [lra|reflexivity]).
Qed.

Lemma empty_mask_pre : carpet_pre empty_mask_dataset None.
Proof.
  repeat split; try reflexivity.
  - cbn. lia.
  - exists 0%nat. split; [cbn; lia|]. apply empty_mask_excluded. cbn. lia.
  - now left.
Qed.

Lemma get_carpet_all_excluded_witness :
  exists w',
    get_carpet None true true (mkWorld empty_mask_dataset []) = (w', Ok tt) /\
    carpet (self w') = Some (mk2 (t empty_mask_dataset) []).
Proof.
  apply (get_carpet_all_excluded None true true (mkWorld empty_mask_dataset []));
    [exact empty_mask_pre|exact empty_mask_excluded].
Defined.

(** Against C8 as stated: with a mask that excludes every voxel,
    [get_carpet] raises nothing and produces a carpet. *)
Lemma get_carpet_empty_mask_returns :
  (forall v, (v < nvox empty_mask_dataset)%nat ->
             retainedb empty_mask_dataset None v = false) /\
  get_carpet None true true (mkWorld empty_mask_dataset [])
  = (mkWorld (set_carpet (mk2 2 []) empty_mask_dataset)
             [("carpet.npy"%string, NpyArray (mk2 2 []))],
     Ok tt) /\
  ~ (exists e, snd (get_carpet None true true (mkWorld empty_mask_dataset [])) = Raise e).
Proof.
  assert (Hrun : get_carpet None true true (mkWorld empty_mask_dataset [])
                 = (mkWorld (set_carpet (mk2 2 []) empty_mask_dataset)
                            [("carpet.npy"%string, NpyArray (mk2 2 []))], Ok tt)).
  { rewrite get_carpet_run by exact empty_mask_pre.
    assert (Hn : normalized_carpet empty_mask_dataset None = mk2 2 []).
    { unfold normalized_carpet, retained_indices. rewrite filter_none; [reflexivity|].
      intros v Hv. apply in_seq in Hv. apply empty_mask_excluded. lia. }
    cbn [self disk]. unfold final_carpet. rewrite Hn. reflexivity. }
  split; [exact empty_mask_excluded|]. split; [exact Hrun|].
  rewrite Hrun. intros [e He]. discriminate He.
Qed.

(** ** Reordering *)

Lemma fsum_perm (l l' : list float64) : Permutation l l' -> fsum l = fsum l'.
Proof.
  induction 1 as [|a l l' H IH|a b l|l l' l'' H1 IH1 H2 IH2].
  - reflexivity.
  - unfold fsum in *. cbn [fold_right]. now rewrite IH.
  - unfold fsum. cbn [fold_right].
    destruct a as [u|], b as [v|], (fold_right fadd (Fin 0) l) as [s|];
      cbn [fadd]; try reflexivity.
    f_equal. ring.
  - congruence.
Qed.

Lemma fmean_perm (l l' : list float64) : Permutation l l' -> fmean l = fmean l'.
Proof.
  intros H. unfold fmean. now rewrite (fsum_perm l l' H), (Permutation_length H).
Qed.

Lemma global_signal_perm (c c' : array2) :
  ncol c = ncol c' -> Permutation (rows c) (rows c') ->
  global_signal c = global_signal c'.
Proof.
  intros Hn Hp. unfold global_signal, transpose. cbn [rows].
  rewrite Hn, !map_map. apply map_ext. intros k.
  apply fmean_perm. now apply Permutation_map.
Qed.

Lemma StronglySorted_map_in {A B : Type} (Q : A -> A -> Prop) (P : B -> B -> Prop)
    (f : A -> B) (l : list A) :
  (forall a b, In a l -> In b l -> Q a b -> P (f a) (f b)) ->
  StronglySorted Q l -> StronglySorted P (map f l).
Proof.
  intros Hf Hs. induction Hs as [|a l Hs IH Ha]; [constructor|].
  cbn [map]. constructor.
  - apply IH. intros u v Hu Hv. apply Hf; now right.
  - apply Forall_map, Forall_forall. intros b Hb.
    rewrite Forall_forall in Ha.
    apply Hf; [now left|now right|now apply Ha].
Qed.

Lemma StronglySorted_impl {A : Type} (Q P : A -> A -> Prop) (l : list A) :
  (forall a b, Q a b -> P a b) -> StronglySorted Q l -> StronglySorted P l.
Proof.
  intros Himp Hs. induction Hs as [|a l Hs IH Ha]; constructor; [assumption|].
  eapply Forall_impl; [|exact Ha]. intros b. apply Himp.
Qed.

Lemma reordered_sorted (c : array2) :
  StronglySorted (fun r1 r2 => fleb (corr_gs c r2) (corr_gs c r1) = true)
                 (rows (reordered c)).
Proof.
  unfold reordered. cbn [rows].
  pose proof (sort_index_lt (map (corr_gs c) (rows c))) as Hlt.
  rewrite length_map, Forall_forall in Hlt.
  eapply StronglySorted_map_in; [|apply sort_index_sorted].
  intros i j Hi Hj Hk. cbn beta in Hk. unfold key_le in Hk.
  rewrite !nth_map_lt with (d' := []) in Hk by now apply Hlt.
  exact Hk.
Qed.

Lemma sorted_head_max {A : Type} (P : A -> A -> Prop) (d : A) (l : list A) :
  (forall a, P a a) -> StronglySorted P l ->
  forall a, In a l -> P (hd d l) a.
Proof.
  intros Hrefl Hs a Ha. destruct Hs as [|h l Hs Hh]; [contradiction|].
  cbn [hd]. destruct Ha as [<-|Ha]; [apply Hrefl|].
  rewrite Forall_forall in Hh. now apply Hh.
Qed.

(** C4, as the code has it.  With [reorder] the stored carpet is a
    permutation of the rows of the normalised carpet (the one stored
    without [reorder]); its global signal is the same; its rows are in
    descending order of the correlation with the global signal that
    [pearsonr_2d] computes; and the first row has the largest correlation
    of all rows.  Nothing is promised on the order of rows with equal
    correlation. *)
Theorem get_carpet_reorder_sorted (th : option R) (save : bool) (w : World) :
  carpet_pre (self w) th ->
  exists w0 w1 c,
    get_carpet th false save w = (w0, Ok tt) /\
    carpet (self w0) = Some (normalized_carpet (self w) th) /\
    get_carpet th true save w = (w1, Ok tt) /\
    carpet (self w1) = Some c /\
    Permutation (rows c) (rows (normalized_carpet (self w) th)) /\
    global_signal c = global_signal (normalized_carpet (self w) th) /\
    gs_corr (t (self w)) c = Ok (map (corr_gs c) (rows c)) /\
    StronglySorted (fun r1 r2 => fleb (corr_gs c r2) (corr_gs c r1) = true) (rows c) /\
    (forall r, In r (rows c) ->
               fleb (corr_gs c r) (corr_gs c (hd [] (rows c))) = true).
Proof.
  intros Hpre. do 3 eexists.
  split; [now apply get_carpet_run|].
  split; [reflexivity|].
  split; [now apply get_carpet_run|].
  cbn [self carpet set_carpet final_carpet]. split; [reflexivity|].
  set (c0 := normalized_carpet (self w) th).
  assert (Hgs : global_signal (reordered c0) = global_signal c0)
    by (apply global_signal_perm; [reflexivity|apply reordered_perm]).
  assert (Hcorr : forall r, corr_gs (reordered c0) r = corr_gs c0 r)
    by (intros r; unfold corr_gs; now rewrite Hgs).
  assert (Hsorted : StronglySorted
            (fun r1 r2 => fleb (corr_gs (reordered c0) r2) (corr_gs (reordered c0) r1) = true)
            (rows (reordered c0))).
  { eapply StronglySorted_impl; [|apply reordered_sorted].
    intros r1 r2 H. cbn beta in *. now rewrite !Hcorr. }
  split; [apply reordered_perm|].
  split; [exact Hgs|].
  split; [now apply gs_corr_spec|].
  split; [exact Hsorted|].
  intros r Hr.
  apply (sorted_head_max
           (fun r1 r2 => fleb (corr_gs (reordered c0) r2) (corr_gs (reordered c0) r1) = true)
           [] (rows (reordered c0))); try assumption.
  intros a. apply fleb_refl.
Qed.

Lemma tie_pre : carpet_pre tie_dataset None.
Proof.
  repeat split; try reflexivity.
  - cbn. lia.
  - exists 2%nat. split; [cbn; lia|].
    unfold retainedb, mask_value. cbn.
    destruct (Rle_dec 0.5 0); [lra|reflexivity].
  - now left.
Qed.

Lemma get_carpet_reorder_sorted_witness :
  exists w0 w1 c,
    get_carpet None false true (mkWorld tie_dataset []) = (w0, Ok tt) /\
    carpet (self w0) = Some (normalized_carpet tie_dataset None) /\
    get_carpet None true true (mkWorld tie_dataset []) = (w1, Ok tt) /\
    carpet (self w1) = Some c /\
    Permutation (rows c) (rows (normalized_carpet tie_dataset None)) /\
    global_signal c = global_signal (normalized_carpet tie_dataset None) /\
    gs_corr (t tie_dataset) c = Ok (map (corr_gs c) (rows c)) /\
    StronglySorted (fun r1 r2 => fleb (corr_gs c r2) (corr_gs c r1) = true) (rows c) /\
    (forall r, In r (rows c) ->
               fleb (corr_gs c r) (corr_gs c (hd [] (rows c))) = true).
Proof.
  apply (get_carpet_reorder_sorted None true (mkWorld tie_dataset [])).
  exact tie_pre.
Defined.

(** The two series of [tie_dataset] and their z-scores. *)
Lemma Rmean_pair (a b : R) : Rmean [a; b] = (a + b) / 2.
Proof. unfold Rmean. cbn. lra. Qed.

Lemma Rstd_pair (a b : R) : a - b = 2 \/ b - a = 2 -> Rstd [a; b] = 1.
Proof.
  intros H. unfold Rstd, center, sumsq. rewrite Rmean_pair.
  cbn [map Rsum fold_right length].
  replace ((((a - (a + b) / 2) * (a - (a + b) / 2)
            + ((b - (a + b) / 2) * (b - (a + b) / 2) + 0))) / INR 2) with 1.
  - apply sqrt_1.
  - cbn [INR]. destruct H as [H|H].
    + replace a with (b + 2) by lra. field.
    + replace b with (a + 2) by lra. field.
Qed.

Lemma zscore_row_02 : zscore_row (map Fin [0; 2]) = [Fin (-1); Fin 1].
Proof.
  assert (Hs : Rstd [0; 2] = 1) by (apply Rstd_pair; right; lra).
  rewrite zscore_row_Fin by (try discriminate; rewrite Hs; lra).
  unfold Rzscore. rewrite Hs, Rmean_pair. cbn [map].
  repeat f_equal; lra.
Qed.

Lemma zscore_row_20 : zscore_row (map Fin [2; 0]) = [Fin 1; Fin (-1)].
Proof.
  assert (Hs : Rstd [2; 0] = 1) by (apply Rstd_pair; left; lra).
  rewrite zscore_row_Fin by (try discriminate; rewrite Hs; lra).
  unfold Rzscore. rewrite Hs, Rmean_pair. cbn [map].
  repeat f_equal; lra.
Qed.

Lemma tie_retained_indices : retained_indices tie_dataset None = [0; 1]%nat.
Proof.
  unfold retained_indices, retainedb, mask_value. cbn.
  destruct (Rle_dec 0.5 1); [|lra].
  destruct (Rle_dec 0.5 0); [lra|]. reflexivity.
Qed.

Lemma tie_normalized_rows :
  rows (normalized_carpet tie_dataset None) = [[Fin (-1); Fin 1]; [Fin 1; Fin (-1)]].
Proof.
  unfold normalized_carpet. rewrite tie_retained_indices. cbn [rows map].
  change (voxel_series tie_dataset 0) with [0; 2].
  change (voxel_series tie_dataset 1) with [2; 0].
  now rewrite zscore_row_02, zscore_row_20.
Qed.

Lemma tie_global_signal :
  global_signal (normalized_carpet tie_dataset None) = map Fin [0; 0].
Proof.
  unfold global_signal, transpose. rewrite tie_normalized_rows.
  cbn [ncol normalized_carpet t tie_dataset sample_dataset seq map nth rows].
  unfold fmean, fsum. cbn [fold_right fadd length INR].
  rewrite !fdiv_Fin by lra. repeat f_equal; lra.
Qed.

Lemma tie_corr (r : list R) :
  corr_gs (normalized_carpet tie_dataset None) (map Fin r) = Fin 0.
Proof.
  unfold corr_gs. rewrite tie_global_signal, row_corr_Fin.
  f_equal. apply pearson_eps_constant. right. now exists 0.
Qed.

(** Against C4 as stated: the two rows of the normalised carpet of
    [tie_dataset] have the same correlation with the global signal, and
    [get_carpet] stores them in the reverse of their original order. *)
Lemma get_carpet_reverses_ties :
  rows (normalized_carpet tie_dataset None) = [[Fin (-1); Fin 1]; [Fin 1; Fin (-1)]] /\
  corr_gs (normalized_carpet tie_dataset None) [Fin (-1); Fin 1]
  = corr_gs (normalized_carpet tie_dataset None) [Fin 1; Fin (-1)] /\
  exists w1,
    get_carpet None true false (mkWorld tie_dataset []) = (w1, Ok tt) /\
    carpet (self w1) = Some (mk2 2 [[Fin 1; Fin (-1)]; [Fin (-1); Fin 1]]).
Proof.
  split; [exact tie_normalized_rows|].
  split.
  { change [Fin (-1); Fin 1] with (map Fin [-1; 1]).
    change [Fin 1; Fin (-1)] with (map Fin [1; -1]).
    now rewrite !tie_corr. }
  eexists. split; [apply get_carpet_run; exact tie_pre|].
  cbn [self carpet set_carpet final_carpet]. f_equal.
  assert (Hkeys : map (corr_gs (normalized_carpet tie_dataset None))
                      [[Fin (-1); Fin 1]; [Fin 1; Fin (-1)]] = [Fin 0; Fin 0]).
  { cbn [map].
    change [Fin (-1); Fin 1] with (map Fin [-1; 1]).
    change [Fin 1; Fin (-1)] with (map Fin [1; -1]).
    now rewrite !tie_corr. }
  unfold reordered. rewrite tie_normalized_rows, Hkeys.
  unfold sort_index, argsort. cbn [length seq fold_right insert_index nth fleb].
  destruct (Rle_dec 0 0); [|lra].
  reflexivity.
Qed.

(** In [constant_voxel_dataset] the second retained voxel is constant in
    time; the call returns and its row is NaN throughout. *)
Lemma constant_voxel_row_nan :
  exists w' c,
    get_carpet None false true (mkWorld constant_voxel_dataset []) = (w', Ok tt) /\
    carpet (self w') = Some c /\
    nth 1 (rows c) [] = [NaN; NaN].
Proof.
  do 2 eexists. split; [apply get_carpet_run; exact constant_voxel_pre|].
  cbn [self carpet set_carpet final_carpet]. split; [reflexivity|].
  assert (Hidx : retained_indices constant_voxel_dataset None = [0; 1]%nat).
  { unfold retained_indices, retainedb, mask_value. cbn.
    destruct (Rle_dec 0.5 1); [|lra].
    destruct (Rle_dec 0.5 0); [lra|]. reflexivity. }
  unfold normalized_carpet. rewrite Hidx. cbn [rows map nth].
  change (voxel_series constant_voxel_dataset 1) with [5; 5].
  rewrite zscore_row_NaN; [reflexivity|discriminate|].
  unfold Rstd, center, sumsq. rewrite Rmean_pair. cbn [map Rsum fold_right length].
  replace (((5 - (5 + 5) / 2) * (5 - (5 + 5) / 2) + ((5 - (5 + 5) / 2) * (5 - (5 + 5) / 2) + 0))
           / INR 2) with 0 by (cbn [INR]; field).
  apply sqrt_0.
Qed.

(** ** The median *)

Lemma Rinsert_perm (a : R) (l : list R) : Permutation (Rinsert a l) (a :: l).
Proof.
  induction l as [|b l IH]; cbn [Rinsert]; [reflexivity|].
  destruct (Rle_dec a b); [reflexivity|].
  rewrite IH. apply perm_swap.
Qed.

Lemma Rsort_perm (l : list R) : Permutation (Rsort l) l.
Proof.
  induction l as [|a l IH]; [reflexivity|].
  cbn [Rsort fold_right]. fold (Rsort l). rewrite Rinsert_perm. now constructor.
Qed.

Lemma Rinsert_sorted (a : R) (l : list R) :
  StronglySorted Rle l -> StronglySorted Rle (Rinsert a l).
Proof.
  induction 1 as [|b l Hs IH Hb]; cbn [Rinsert].
  - repeat constructor.
  - destruct (Rle_dec a b) as [Hab|Hab].
    + constructor; [now constructor|].
      constructor; [assumption|].
      eapply Forall_impl; [|exact Hb]. intros c Hc. cbn beta in *. lra.
    + constructor; [assumption|].
      apply (Permutation_Forall (Permutation_sym (Rinsert_perm a l))).
      constructor; [lra|assumption].
Qed.

Lemma Rsort_sorted (l : list R) : StronglySorted Rle (Rsort l).
Proof.
  induction l as [|a l IH]; [constructor|].
  cbn [Rsort fold_right]. fold (Rsort l). now apply Rinsert_sorted.
Qed.

Lemma sorted_unique (l1 l2 : list R) :
  StronglySorted Rle l1 -> StronglySorted Rle l2 -> Permutation l1 l2 -> l1 = l2.
Proof.
  intros H1. revert l2. induction H1 as [|a l1 H1 IH Ha]; intros l2 H2 Hp.
  - apply Permutation_nil in Hp. now subst.
  - destruct H2 as [|b l2 H2 Hb].
    + apply Permutation_sym, Permutation_nil in Hp. discriminate.
    + assert (Hab : a = b).
      { rewrite Forall_forall in Ha, Hb.
        assert (Hin1 : In a (b :: l2)) by (eapply Permutation_in; [exact Hp|now left]).
        assert (Hin2 : In b (a :: l1))
          by (eapply Permutation_in; [apply Permutation_sym; exact Hp|now left]).
        destruct Hin1 as [->|Hin1]; [reflexivity|].
        destruct Hin2 as [->|Hin2]; [reflexivity|].
        apply Rle_antisym; [now apply Ha|now apply Hb]. }
      subst b. f_equal. apply IH; [assumption|].
      now apply Permutation_cons_inv in Hp.
Qed.

Lemma Rsort_opp (l : list R) : Rsort (map Ropp l) = rev (map Ropp (Rsort l)).
Proof.
  apply sorted_unique.
  - apply Rsort_sorted.
  - rewrite <- map_rev.
    apply StronglySorted_map_in with (Q := fun a b => b <= a).
    + intros a b _ _ H. lra.
    + apply StronglySorted_rev with (P := Rle), Rsort_sorted.
  - rewrite Rsort_perm, <- Permutation_rev.
    apply Permutation_map, Permutation_sym, Rsort_perm.
Qed.

Lemma length_Rsort (l : list R) : length (Rsort l) = length l.
Proof. apply Permutation_length, Rsort_perm. Qed.

Lemma nth_rev_opp (s : list R) (i : nat) :
  (i < length s)%nat ->
  nth i (rev (map Ropp s)) 0 = - nth (length s - S i) s 0.
Proof.
  intros Hi. rewrite rev_nth by now rewrite length_map.
  rewrite length_map. now rewrite nth_map_lt with (d' := 0) by lia.
Qed.

Lemma Rmedian_opp (l : list R) : Rmedian (map Ropp l) = - Rmedian l.
Proof.
  unfold Rmedian. rewrite Rsort_opp, length_rev, length_map.
  set (s := Rsort l). set (n := length s).
  destruct (Nat.even n) eqn:En.
  - apply Nat.even_spec in En. destruct En as [k Hk].
    destruct k as [|k].
    + assert (Hs : s = []) by (apply length_zero_iff_nil; subst n; lia).
      rewrite Hk, Hs. cbn. lra.
    + assert (Hd : (n / 2 = S k)%nat)
        by (rewrite Hk, Nat.mul_comm; apply Nat.div_mul; lia).
      rewrite Hd.
      rewrite !nth_rev_opp by (fold n; lia). fold n.
      replace (n - S (S k - 1))%nat with (S k) by lia.
      replace (n - S (S k))%nat with (S k - 1)%nat by lia.
      lra.
  - assert (Ho : Nat.odd n = true) by (unfold Nat.odd; now rewrite En).
    apply Nat.odd_spec in Ho. destruct Ho as [k Hk].
    assert (Hd : (n / 2 = k)%nat).
    { rewrite Hk. replace (2 * k + 1)%nat with (1 + k * 2)%nat by lia.
      rewrite Nat.div_add by lia. reflexivity. }
    rewrite Hd. rewrite nth_rev_opp by (fold n; lia). fold n.
    replace (n - S k)%nat with k by lia. reflexivity.
Qed.

Lemma reals_of_Fin (l : list R) : reals_of (map Fin l) = Some l.
Proof.
  induction l as [|a l IH]; [reflexivity|]. cbn [map reals_of]. now rewrite IH.
Qed.

Lemma reals_of_rows_Fin (X : list (list R)) :
  reals_of_rows (map (map Fin) X) = Some X.
Proof.
  induction X as [|r X IH]; [reflexivity|].
  cbn [map reals_of_rows]. now rewrite reals_of_Fin, IH.
Qed.

Lemma np_median_Fin (l : list R) : l <> [] -> np_median (map Fin l) = Fin (Rmedian l).
Proof.
  intros Hl. unfold np_median. rewrite reals_of_Fin.
  destruct l; [congruence|reflexivity].
Qed.

Lemma negate_Fin (l : list R) : negate (map Fin l) = map Fin (map Ropp l).
Proof.
  unfold negate. rewrite !map_map. apply map_ext. intros a.
  cbn [fmul]. f_equal. ring.
Qed.

Lemma np_median_negate (l : list R) :
  l <> [] -> np_median (negate (map Fin l)) = Fin (- Rmedian l).
Proof.
  intros Hl. rewrite negate_Fin, np_median_Fin, Rmedian_opp; [reflexivity|].
  destruct l; [congruence|discriminate].
Qed.

(** ** Position-aware maps *)

Lemma imap_from_cons {A B : Type} (s : nat) (f : nat -> A -> B) (a : A) (l : list A) :
  imap_from s f (a :: l) = f s a :: imap_from (S s) f l.
Proof. reflexivity. Qed.

Lemma length_imap_from {A B : Type} (s : nat) (f : nat -> A -> B) (l : list A) :
  length (imap_from s f l) = length l.
Proof.
  revert s. induction l as [|a l IH]; intros s; [reflexivity|].
  rewrite imap_from_cons. cbn [length]. now rewrite IH.
Qed.

Lemma imap_from_compose {A B C : Type} (s : nat) (f : nat -> A -> B) (g : nat -> B -> C)
    (l : list A) :
  imap_from s g (imap_from s f l) = imap_from s (fun j a => g j (f j a)) l.
Proof.
  revert s. induction l as [|a l IH]; intros s; [reflexivity|].
  rewrite !imap_from_cons. now rewrite IH.
Qed.

Lemma imap_from_ext {A B : Type} (s : nat) (f g : nat -> A -> B) (l : list A) :
  (forall j a, (s <= j < s + length l)%nat -> f j a = g j a) ->
  imap_from s f l = imap_from s g l.
Proof.
  revert s. induction l as [|a l IH]; intros s H; [reflexivity|].
  rewrite !imap_from_cons. f_equal.
  - apply H. cbn [length]. lia.
  - apply IH. intros j b Hj. apply H. cbn [length]. lia.
Qed.

Lemma nth_imap_from {A B : Type} (s : nat) (f : nat -> A -> B) (l : list A) (i : nat)
    (d : B) (d' : A) :
  (i < length l)%nat -> nth i (imap_from s f l) d = f (s + i)%nat (nth i l d').
Proof.
  revert s i. induction l as [|a l IH]; intros s i Hi; [simpl in Hi; lia|].
  rewrite imap_from_cons. destruct i as [|i]; cbn [nth].
  - now rewrite Nat.add_0_r.
  - rewrite IH by (simpl in Hi; lia). f_equal. lia.
Qed.

Lemma imap_from_id {A : Type} (s : nat) (l : list A) : imap_from s (fun _ a => a) l = l.
Proof.
  revert s. induction l as [|a l IH]; intros s; [reflexivity|].
  rewrite imap_from_cons. now rewrite IH.
Qed.

(** ** The sign loop *)

Lemma negate_labels_nil (df : DataFrame) : negate_labels [] df = df.
Proof.
  unfold negate_labels. cbn [existsb]. erewrite map_ext; [apply map_id|].
  now intros p.
Qed.

Lemma negate_columns_nil (a : array2) : negate_columns [] a = a.
Proof.
  unfold negate_columns. cbn [existsb]. destruct a as [n rs]. cbn [ncol rows].
  f_equal. erewrite map_ext; [apply map_id|].
  intros r. apply imap_from_id.
Qed.

Lemma negate_labels_step (c : string) (L : list string) (df : DataFrame) :
  ~ In c L ->
  negate_labels L (negate_label c df) = negate_labels (c :: L) df.
Proof.
  intros Hc. unfold negate_labels, negate_label. rewrite map_map.
  apply map_ext. intros [l col]. cbn [fst snd existsb].
  destruct (String.eqb l c) eqn:E; cbn [fst snd orb].
  - apply String.eqb_eq in E. subst l.
    replace (existsb (String.eqb c) L) with false; [reflexivity|].
    symmetry. apply not_true_is_false. intros H.
    apply existsb_exists in H. destruct H as (c' & Hin & Heq).
    apply String.eqb_eq in Heq. now subst c'.
  - reflexivity.
Qed.

Lemma negate_columns_step (i : nat) (I : list nat) (a : array2) :
  ~ In i I ->
  negate_columns I (negate_column i a) = negate_columns (i :: I) a.
Proof.
  intros Hi. unfold negate_columns, negate_column. cbn [ncol rows].
  f_equal. rewrite map_map. apply map_ext. intros r.
  unfold imap. rewrite imap_from_compose. apply imap_from_ext.
  intros j u _. cbn [existsb].
  destruct (Nat.eqb_spec j i) as [->|Hji]; cbn [orb]; [|reflexivity].
  replace (existsb (Nat.eqb i) I) with false; [reflexivity|].
  symmetry. apply not_true_is_false. intros H.
  apply existsb_exists in H. destruct H as (i' & Hin & Heq).
  apply Nat.eqb_eq in Heq. now subst i'.
Qed.

Lemma flip_loop_spec (medians : list float64) (ps : list (nat * string))
    (df : DataFrame) (a : array2) :
  NoDup (map fst ps) -> NoDup (map snd ps) ->
  fold_left (flip_step medians) ps (df, a)
  = (negate_labels (map snd (flipped_pairs medians ps)) df,
     negate_columns (map fst (flipped_pairs medians ps)) a).
Proof.
  revert df a. induction ps as [|[i c] ps IH]; intros df a Hi Hc.
  - cbn [fold_left flipped_pairs filter map].
    now rewrite negate_labels_nil, negate_columns_nil.
  - cbn [map fst snd] in Hi, Hc. inversion Hi as [|? ? Hi1 Hi2]; subst.
    inversion Hc as [|? ? Hc1 Hc2]; subst.
    change (fold_left (flip_step medians) ((i, c) :: ps) (df, a))
      with (fold_left (flip_step medians) ps
              (if flip_at medians i then (negate_label c df, negate_column i a)
               else (df, a))).
    unfold flipped_pairs. cbn [filter fst]. fold (flipped_pairs medians ps).
    destruct (flip_at medians i).
    + rewrite IH by assumption. cbn [map fst snd]. f_equal.
      * apply negate_labels_step. intros H. apply Hc1.
        apply in_map_iff in H. destruct H as ([i' c'] & Heq & Hin).
        cbn [snd] in Heq. subst c'.
        apply filter_In in Hin. destruct Hin as [Hin _].
        apply in_map_iff. now exists (i', c).
      * apply negate_columns_step. intros H. apply Hi1.
        apply in_map_iff in H. destruct H as ([i' c'] & Heq & Hin).
        cbn [fst] in Heq. subst i'.
        apply filter_In in Hin. destruct Hin as [Hin _].
        apply in_map_iff. now exists (i, c').
    + now rewrite IH.
Qed.

Lemma in_combine_seq {A : Type} (d : A) (l : list A) (s i : nat) (c : A) :
  In (i, c) (combine (seq s (length l)) l) <->
  (s <= i < s + length l)%nat /\ nth (i - s) l d = c.
Proof.
  revert s. induction l as [|a l IH]; intros s.
  - cbn. split; [contradiction|lia].
  - cbn [length seq combine In]. rewrite IH. split.
    + intros [[= <- <-]|[Hr Hn]].
      * rewrite Nat.sub_diag. cbn. split; [lia|reflexivity].
      * split; [lia|]. replace (i - s)%nat with (S (i - S s)) by lia. exact Hn.
    + intros [Hr Hn]. destruct (Nat.eq_dec i s) as [->|Hne].
      * left. rewrite Nat.sub_diag in Hn. cbn in Hn. now subst.
      * right. split; [lia|].
        replace (i - s)%nat with (S (i - S s)) in Hn by lia. exact Hn.
Qed.

Lemma map_fst_combine_seq {A : Type} (l : list A) (s : nat) :
  map fst (combine (seq s (length l)) l) = seq s (length l).
Proof.
  revert s. induction l as [|a l IH]; intros s; [reflexivity|].
  cbn. now rewrite IH.
Qed.

Lemma map_snd_combine_seq {A : Type} (l : list A) (s : nat) :
  map snd (combine (seq s (length l)) l) = l.
Proof.
  revert s. induction l as [|a l IH]; intros s; [reflexivity|].
  cbn. now rewrite IH.
Qed.

Lemma imap_from_ext_nth {A B : Type} (d : A) (s : nat) (f g : nat -> A -> B) (l : list A) :
  (forall j, (j < length l)%nat -> f (s + j)%nat (nth j l d) = g (s + j)%nat (nth j l d)) ->
  imap_from s f l = imap_from s g l.
Proof.
  revert s. induction l as [|a l IH]; intros s H; [reflexivity|].
  rewrite !imap_from_cons. f_equal.
  - specialize (H 0%nat). cbn [nth length] in H. rewrite Nat.add_0_r in H.
    apply H. lia.
  - apply IH. intros j Hj. specialize (H (S j)). cbn [nth length] in H.
    replace (S s + j)%nat with (s + S j)%nat by lia. apply H. lia.
Qed.

Lemma map_as_imap {A B : Type} (g : A -> B) (l : list A) :
  map g l = imap (fun _ a => g a) l.
Proof.
  unfold imap. generalize 0%nat as s.
  induction l as [|a l IH]; intros s; [reflexivity|].
  rewrite imap_from_cons. cbn [map]. now rewrite <- IH.
Qed.

Lemma flipped_label_iff (medians : list float64) (names : list string) (j : nat) :
  NoDup names -> (j < length names)%nat ->
  existsb (String.eqb (nth j names ""%string))
          (map snd (flipped_pairs medians (combine (seq 0 (length names)) names)))
  = flip_at medians j.
Proof.
  intros Hnd Hj. destruct (flip_at medians j) eqn:Ef.
  - apply existsb_exists. exists (nth j names ""%string).
    split; [|apply String.eqb_refl].
    apply in_map_iff. exists (j, nth j names ""%string). split; [reflexivity|].
    unfold flipped_pairs. apply filter_In. split; [|exact Ef].
    apply (in_combine_seq ""%string). rewrite Nat.sub_0_r. split; [lia|reflexivity].
  - apply not_true_is_false. intros H.
    apply existsb_exists in H. destruct H as (c & Hin & Heq).
    apply String.eqb_eq in Heq. subst c.
    apply in_map_iff in Hin. destruct Hin as ([i c] & Hc & Hin).
    cbn [snd] in Hc. subst c.
    unfold flipped_pairs in Hin. apply filter_In in Hin. destruct Hin as [Hin Hfl].
    apply (in_combine_seq ""%string) in Hin. rewrite Nat.sub_0_r in Hin.
    destruct Hin as [Hi Hn]. cbn [fst] in Hfl.
    assert (i = j) by (apply (NoDup_nth names ""%string); (assumption || lia)).
    subst i. congruence.
Qed.

Lemma flipped_index_iff (medians : list float64) (names : list string) (j : nat) :
  existsb (Nat.eqb j)
          (map fst (flipped_pairs medians (combine (seq 0 (length names)) names)))
  = (j <? length names)%nat && flip_at medians j.
Proof.
  destruct ((j <? length names)%nat && flip_at medians j) eqn:E.
  - apply andb_true_iff in E. destruct E as [Hj Ef]. apply Nat.ltb_lt in Hj.
    apply existsb_exists. exists j. split; [|apply Nat.eqb_refl].
    apply in_map_iff. exists (j, nth j names ""%string). split; [reflexivity|].
    unfold flipped_pairs. apply filter_In. split; [|exact Ef].
    apply (in_combine_seq ""%string). rewrite Nat.sub_0_r. split; [lia|reflexivity].
  - apply not_true_is_false. intros H.
    apply existsb_exists in H. destruct H as (i & Hin & Heq).
    apply Nat.eqb_eq in Heq. subst i.
    apply in_map_iff in Hin. destruct Hin as ([i c] & Hc & Hin).
    cbn [fst] in Hc. subst i.
    unfold flipped_pairs in Hin. apply filter_In in Hin. destruct Hin as [Hin Hfl].
    apply (in_combine_seq ""%string) in Hin. destruct Hin as [Hi _].
    cbn [fst] in Hfl. rewrite Hfl in E.
    assert (Hlt : (j <? length names)%nat = true) by (apply Nat.ltb_lt; lia).
    rewrite Hlt in E. discriminate.
Qed.

Lemma flip_signs_spec (medians : list float64) (df : DataFrame) (a : array2) :
  NoDup (map fst df) ->
  flip_signs medians df a
  = (imap (fun j p => if flip_at medians j then (fst p, negate (snd p)) else p) df,
     mk2 (ncol a)
         (map (imap (fun j u => if (j <? length df)%nat && flip_at medians j
                                then fmul (Fin (-1)) u else u))
              (rows a))).
Proof.
  intros Hnd. unfold flip_signs.
  assert (Hlen : length df = length (map fst df)) by now rewrite length_map.
  rewrite Hlen.
  rewrite flip_loop_spec.
  2:{ rewrite map_fst_combine_seq. apply seq_NoDup. }
  2:{ now rewrite map_snd_combine_seq. }
  f_equal.
  - unfold negate_labels. rewrite map_as_imap. unfold imap.
    apply imap_from_ext_nth with (d := (""%string, [])).
    intros j Hj. cbn [Nat.add].
    replace (fst (nth j df (""%string, []))) with (nth j (map fst df) ""%string)
      by (now rewrite nth_map_lt with (d' := (""%string, @nil float64))).
    rewrite flipped_label_iff by (assumption || lia).
    now rewrite nth_map_lt with (d' := (""%string, @nil float64)).
  - unfold negate_columns. f_equal. apply map_ext. intros r.
    unfold imap. apply imap_from_ext. intros j u _.
    now rewrite flipped_index_iff.
Qed.

(** ** Running [fit_pca_and_correlate] *)

Lemma map_snd_combine {A B : Type} (l : list A) (l' : list B) :
  length l = length l' -> map snd (combine l l') = l'.
Proof.
  revert l'. induction l as [|a l IH]; intros [|b l'] H; try discriminate; [reflexivity|].
  cbn. rewrite IH; [reflexivity|]. simpl in H. lia.
Qed.

Lemma map_fst_combine {A B : Type} (l : list A) (l' : list B) :
  length l = length l' -> map fst (combine l l') = l.
Proof.
  revert l'. induction l as [|a l IH]; intros [|b l'] H; try discriminate; [reflexivity|].
  cbn. rewrite IH; [reflexivity|]. simpl in H. lia.
Qed.

Lemma length_comp_names (n : nat) : length (comp_names n) = n.
Proof. unfold comp_names. now rewrite length_map, length_seq. Qed.

Lemma check_array_reals (T : nat) (X : list (list R)) :
  X <> [] -> (1 <= T)%nat -> check_array (of_reals T X) = Ok X.
Proof.
  intros HX HT. unfold check_array, of_reals, nrow. cbn [rows ncol].
  rewrite reals_of_rows_Fin, length_map.
  destruct X as [|r X]; [congruence|]. cbn [length Nat.eqb].
  destruct T; [lia|reflexivity].
Qed.

Section Fit.

Variable PCA_fit_transform : list (list R) -> PCA_model.
Variable int_of_str : string -> option Z.
Hypothesis shapes : sklearn_shapes PCA_fit_transform.

Lemma fit_comps_shape (X : list (list R)) (T : nat) (n : Z) :
  Forall (fun r => length r = T) X ->
  (0 <= n <= Z.of_nat (Nat.min (length X) T))%Z ->
  length (fit_comps (PCA_fit_transform X) n) = Z.to_nat n /\
  Forall (fun r => length r = T) (fit_comps (PCA_fit_transform X) n) /\
  length (firstn (Z.to_nat n) (explained_variance_ratio_ (PCA_fit_transform X)))
  = Z.to_nat n.
Proof.
  intros HX Hn. destruct (shapes X T HX) as (Hk & Hc & He).
  unfold fit_comps. rewrite !length_firstn, Hk, He.
  repeat split; try lia.
  apply Forall_forall. intros r Hr.
  rewrite Forall_forall in Hc. apply Hc.
  rewrite <- (firstn_skipn (Z.to_nat n)). apply in_or_app. now left.
Qed.

Lemma fit_run (X : list (list R)) (T : nat) (n : Z) (save_pca_scores flip_sign : bool)
    (w : World) :
  has_carpet w X T ->
  (0 <= n <= Z.of_nat (Nat.min (length X) T))%Z ->
  fit_pca_and_correlate PCA_fit_transform int_of_str (PyInt n) save_pca_scores flip_sign w
  = (mkWorld
       (set_PCs (fst (fit_final (PCA_fit_transform X) X n flip_sign))
                (snd (fit_final (PCA_fit_transform X) X n flip_sign))
                (set_expl_var (explained_variance_ratio_ (PCA_fit_transform X))
                              (set_ncomp n (self w))))
       (fit_disk (PCA_fit_transform X) X T n save_pca_scores (disk w)),
     Ok tt).
Proof.
  intros (Hc & HX & Hne & HT) Hn.
  destruct (fit_comps_shape X T n HX Hn) as (Hlc & Hwc & Hle).
  unfold fit_pca_and_correlate, try_set_ncomp, py_int.
  unfold bind at 1. unfold update_self at 1.
  unfold bind at 1. unfold get_self. cbn [self carpet set_ncomp].
  unfold bind at 1. unfold lift at 1. rewrite Hc.
  unfold bind at 1. unfold lift at 1. rewrite check_array_reals by assumption.
  set (m := PCA_fit_transform X) in *.
  unfold bind at 1. unfold update_self at 1.
  unfold bind at 1. unfold save_file at 1.
  unfold bind at 1. unfold save_file at 1.
  unfold bind at 1.
  assert (Hwhen : forall w0, when save_pca_scores
            (save_file "pca_scores_all.npy" (NpyArray (pca_scores m))) w0
          = (mkWorld (self w0)
               ((if save_pca_scores
                 then [("pca_scores_all.npy"%string, NpyArray (pca_scores m))] else [])
                ++ disk w0), Ok tt)).
  { intros [s0 d0]. destruct save_pca_scores; reflexivity. }
  rewrite Hwhen. cbn [self disk].
  unfold bind at 1. unfold lift at 1. cbn [py_range].
  unfold bind at 1. unfold lift at 1. unfold py_slice_to at 1.
  replace (n <? 0)%Z with false by (symmetry; apply Z.ltb_ge; lia).
  fold (fit_comps m n). fold (comp_names (Z.to_nat n)).
  unfold bind at 1. unfold lift at 1. unfold pd_DataFrame.
  rewrite Hlc, length_comp_names, Nat.eqb_refl.
  fold (fit_PCs m n).
  unfold bind at 1. unfold save_file at 1. cbn [py_format].
  unfold bind at 1. unfold lift at 1.
  assert (Hvals : mk2 (ncol (of_reals T X)) (map snd (fit_PCs m n))
                  = of_reals T (fit_comps m n)).
  { unfold fit_PCs. rewrite map_snd_combine; [reflexivity|].
    now rewrite length_comp_names, length_map. }
  rewrite Hvals, pearsonr_2d_reals by assumption.
  fold (fit_R m X n).
  unfold bind at 1. unfold lift at 1. unfold py_slice_to.
  replace (n <? 0)%Z with false by (symmetry; apply Z.ltb_ge; lia).
  unfold bind at 1. unfold lift at 1.
  rewrite Hle, Nat.eqb_refl.
  fold (fit_medians m X n). fold (fit_report m X n).
  unfold bind at 1. unfold save_file at 1.
  unfold update_self. cbn [self disk report_carpet_R_median fit_report].
  unfold fit_final, fit_disk.
  destruct flip_sign; reflexivity.
Qed.

End Fit.

(** ** Component labels *)

Lemma str_nat_inj (a b : nat) : str_nat a = str_nat b -> a = b.
Proof.
  unfold str_nat. intros H.
  assert (Hu : Some (Nat.to_uint a) = Some (Nat.to_uint b))
    by (rewrite <- !NilEmpty.usu; now rewrite H).
  injection Hu as Hu.
  rewrite <- (Unsigned.of_to a), <- (Unsigned.of_to b). now rewrite Hu.
Qed.

Lemma comp_names_NoDup (n : nat) : NoDup (comp_names n).
Proof.
  unfold comp_names. apply NoDup_map_NoDup_ForallPairs; [|apply seq_NoDup].
  intros i j _ _ H. cbn [append] in H. injection H as H.
  apply str_nat_inj in H. lia.
Qed.

(** ** Correlation with a negated row *)

Lemma Rsum_map_opp (l : list R) : Rsum (map Ropp l) = - Rsum l.
Proof.
  induction l as [|a l IH]; cbn [map Rsum fold_right]; [lra|].
  fold (Rsum (map Ropp l)). fold (Rsum l). rewrite IH. lra.
Qed.

Lemma center_opp (b : list R) : center (map Ropp b) = map Ropp (center b).
Proof.
  unfold center. rewrite !map_map.
  assert (Hm : Rmean (map Ropp b) = - Rmean b).
  { unfold Rmean. rewrite Rsum_map_opp, length_map. unfold Rdiv. ring. }
  rewrite Hm. apply map_ext. intros a. ring.
Qed.

Lemma sumsq_opp (v : list R) : sumsq (map Ropp v) = sumsq v.
Proof.
  unfold sumsq. rewrite map_map. f_equal. apply map_ext. intros a. ring.
Qed.

Lemma Rdot_opp_r (u v : list R) : Rdot u (map Ropp v) = - Rdot u v.
Proof.
  unfold Rdot. rewrite <- Rsum_map_opp, map_map. f_equal.
  revert v. induction u as [|a u IH]; intros [|b v]; cbn [map combine]; try reflexivity.
  cbn [fst snd]. rewrite IH. f_equal. ring.
Qed.

Lemma pearson_eps_opp_r (a b : list R) :
  pearson_eps a (map Ropp b) = - pearson_eps a b.
Proof.
  unfold pearson_eps. rewrite center_opp, Rdot_opp_r, sumsq_opp.
  unfold Rdiv. ring.
Qed.

(** ** Columns of the correlation matrix *)

Lemma column_fit_R (m : PCA_model) (X : list (list R)) (n : Z) (i : nat) :
  (i < length (fit_comps m n))%nat ->
  column i (fit_R m X n)
  = map Fin (map (fun a => pearson_eps a (nth i (fit_comps m n) [])) X).
Proof.
  intros Hi. unfold column, fit_R. cbn [rows]. rewrite !map_map.
  apply map_ext. intros a. now rewrite nth_map_lt with (d' := []).
Qed.

Lemma nth_fit_medians (m : PCA_model) (X : list (list R)) (n : Z) (i : nat) :
  (i < Z.to_nat n)%nat ->
  nth i (fit_medians m X n) NaN = np_median (column i (fit_R m X n)).
Proof.
  intros Hi. unfold fit_medians. now rewrite nth_map_seq.
Qed.

Lemma column_imap (f : nat -> float64 -> float64) (a : array2) (i : nat) :
  Forall (fun r => (i < length r)%nat) (rows a) ->
  column i (mk2 (ncol a) (map (imap f) (rows a))) = map (f i) (column i a).
Proof.
  intros H. unfold column. cbn [rows]. rewrite !map_map.
  apply map_ext_in. intros r Hr. rewrite Forall_forall in H.
  unfold imap. rewrite nth_imap_from with (d' := NaN) by now apply H.
  reflexivity.
Qed.

(** ** The stored correlations are those of the stored components *)

Lemma map_imap_from {A B C : Type} (s : nat) (g : B -> C) (f : nat -> A -> B) (l : list A) :
  map g (imap_from s f l) = imap_from s (fun j a => g (f j a)) l.
Proof.
  revert s. induction l as [|a l IH]; intros s; [reflexivity|].
  rewrite !imap_from_cons. cbn [map]. now rewrite IH.
Qed.

Lemma imap_from_map {A B C : Type} (s : nat) (f : nat -> B -> C) (g : A -> B) (l : list A) :
  imap_from s f (map g l) = imap_from s (fun j a => f j (g a)) l.
Proof.
  revert s. induction l as [|a l IH]; intros s; [reflexivity|].
  cbn [map]. rewrite !imap_from_cons. now rewrite IH.
Qed.

Lemma length_imap {A B : Type} (f : nat -> A -> B) (l : list A) :
  length (imap f l) = length l.
Proof. apply length_imap_from. Qed.

(** The component vectors after the sign loop. *)
Lemma flipped_columns (medians : list float64) (names : list string) (comps : list (list R)) :
  length names = length comps ->
  map snd (imap (fun j (p : string * list float64) =>
                   if flip_at medians j then (fst p, negate (snd p)) else p)
                (combine names (map (map Fin) comps)))
  = map (map Fin)
        (imap (fun j b => if flip_at medians j then map Ropp b else b) comps).
Proof.
  intros Hl. unfold imap. rewrite !map_imap_from.
  transitivity (imap_from 0
                  (fun j (p : string * list float64) =>
                     if flip_at medians j then negate (snd p) else snd p)
                  (combine names (map (map Fin) comps))).
  { apply imap_from_ext. intros j p _. now destruct (flip_at medians j). }
  rewrite <- imap_from_map with (g := snd)
    (f := fun j c => if flip_at medians j then negate c else c).
  rewrite map_snd_combine by now rewrite length_map.
  rewrite imap_from_map. apply imap_from_ext. intros j b _.
  destruct (flip_at medians j); [apply negate_Fin|reflexivity].
Qed.

Lemma flipped_correlation (m : PCA_model) (X : list (list R)) (T : nat) (n : Z)
    (medians : list float64) :
  length (fit_comps m n) = Z.to_nat n ->
  Forall (fun r => length r = T) X ->
  Forall (fun r => length r = T) (fit_comps m n) ->
  pearsonr_2d (of_reals T X)
              (mk2 T (map snd (imap (fun j (p : string * list float64) =>
                                       if flip_at medians j then (fst p, negate (snd p)) else p)
                                    (fit_PCs m n))))
  = Ok (mk2 (ncol (fit_R m X n))
            (map (imap (fun j u => if (j <? length (fit_PCs m n))%nat && flip_at medians j
                                   then fmul (Fin (-1)) u else u))
                 (rows (fit_R m X n)))).
Proof.
  intros Hlc HX Hwc.
  assert (HlP : length (fit_PCs m n) = length (fit_comps m n)).
  { unfold fit_PCs. rewrite length_combine, length_comp_names, length_map, Hlc. lia. }
  unfold fit_PCs at 1.
  rewrite flipped_columns by now rewrite length_comp_names.
  set (comps' := imap (fun j b => if flip_at medians j then map Ropp b else b)
                      (fit_comps m n)).
  change (mk2 T (map (map Fin) comps')) with (of_reals T comps').
  rewrite pearsonr_2d_reals.
  - unfold fit_R. cbn [ncol rows]. f_equal. f_equal.
    + unfold comps'. apply length_imap.
    + rewrite map_map. apply map_ext. intros a.
      unfold comps', imap. rewrite map_imap_from, imap_from_map.
      apply imap_from_ext. intros j b Hj.
      replace (j <? length (fit_PCs m n))%nat with true
        by (symmetry; apply Nat.ltb_lt; lia).
      cbn [andb]. destruct (flip_at medians j); [|reflexivity].
      rewrite pearson_eps_opp_r. cbn [fmul]. f_equal. ring.
  - assumption.
  - unfold comps', imap, imap_from. apply Forall_map, Forall_forall.
    intros [j b] Hin. cbn [fst snd].
    apply in_combine_r in Hin. rewrite Forall_forall in Hwc.
    destruct (flip_at medians j); [rewrite length_map|]; now apply Hwc.
Qed.

(** ** Claims on [fit_pca_and_correlate] *)

Lemma fit_R_rows_length (m : PCA_model) (X : list (list R)) (n : Z) (i : nat) :
  (i < length (fit_comps m n))%nat ->
  Forall (fun r => (i < length r)%nat) (rows (fit_R m X n)).
Proof.
  intros Hi. unfold fit_R. cbn [rows]. apply Forall_map, Forall_forall.
  intros a _. cbn beta. now rewrite length_map.
Qed.

(** C5.  With sign flipping, compared with the same call without it: for
    every component i < ncomp the label is unchanged, and the component
    column and the i-th correlation column are both multiplied by -1 when
    the median of the original correlations of component i with the carpet
    rows is negative, and both left as they are otherwise; the stored
    correlation matrix is the correlation of the carpet with the stored
    components; and afterwards the median of every one of the ncomp
    correlation columns is finite and >= 0. *)
Theorem fit_sign_flip (PCA_fit_transform : list (list R) -> PCA_model)
    (int_of_str : string -> option Z)
    (X : list (list R)) (T : nat) (n : Z) (save_pca_scores : bool) (w : World) :
  sklearn_shapes PCA_fit_transform ->
  has_carpet w X T ->
  (0 <= n <= Z.of_nat (Nat.min (length X) T))%Z ->
  exists w0 w1 P0 R0 P1 R1,
    fit_pca_and_correlate PCA_fit_transform int_of_str (PyInt n) save_pca_scores false w
    = (w0, Ok tt) /\
    PCs (self w0) = Some P0 /\ PC_carpet_R (self w0) = Some R0 /\
    fit_pca_and_correlate PCA_fit_transform int_of_str (PyInt n) save_pca_scores true w
    = (w1, Ok tt) /\
    PCs (self w1) = Some P1 /\ PC_carpet_R (self w1) = Some R1 /\
    pearsonr_2d (of_reals T X) (mk2 T (map snd P1)) = Ok R1 /\
    length P0 = Z.to_nat n /\ length P1 = Z.to_nat n /\
    forall i, (i < Z.to_nat n)%nat ->
      fst (nth i P1 (""%string, [])) = fst (nth i P0 (""%string, [])) /\
      (fltb (np_median (column i R0)) (Fin 0) = true ->
       snd (nth i P1 (""%string, [])) = negate (snd (nth i P0 (""%string, []))) /\
       column i R1 = negate (column i R0)) /\
      (fltb (np_median (column i R0)) (Fin 0) = false ->
       snd (nth i P1 (""%string, [])) = snd (nth i P0 (""%string, [])) /\
       column i R1 = column i R0) /\
      exists med, np_median (column i R1) = Fin med /\ 0 <= med.
Proof.
  intros Hsh Hcar Hn.
  pose proof Hcar as (_ & HX & Hne & _).
  destruct (fit_comps_shape PCA_fit_transform Hsh X T n HX Hn) as (Hlc & Hwc & _).
  set (m := PCA_fit_transform X) in *.
  assert (HlP : length (fit_PCs m n) = Z.to_nat n).
  { unfold fit_PCs. rewrite length_combine, length_comp_names, length_map, Hlc. lia. }
  assert (Hnd : NoDup (map fst (fit_PCs m n))).
  { unfold fit_PCs. rewrite map_fst_combine.
    - apply comp_names_NoDup.
    - now rewrite length_comp_names, length_map. }
  pose proof (fit_run PCA_fit_transform int_of_str Hsh X T n save_pca_scores false w Hcar Hn)
    as Hrun0.
  pose proof (fit_run PCA_fit_transform int_of_str Hsh X T n save_pca_scores true w Hcar Hn)
    as Hrun1.
  fold m in Hrun0, Hrun1. unfold fit_final in Hrun0, Hrun1.
  rewrite flip_signs_spec in Hrun1 by assumption.
  cbn [fst snd] in Hrun0, Hrun1.
  do 2 eexists. exists (fit_PCs m n), (fit_R m X n). do 2 eexists.
  split; [exact Hrun0|].
  split; [reflexivity|]. split; [reflexivity|].
  split; [exact Hrun1|].
  cbn [self PCs PC_carpet_R set_PCs].
  split; [reflexivity|]. split; [reflexivity|].
  split; [now apply flipped_correlation|].
  split; [assumption|].
  split; [unfold imap; now rewrite length_imap_from|].
  intros i Hi.
  rewrite column_imap by (apply fit_R_rows_length; lia).
  unfold imap. rewrite !nth_imap_from with (d' := (""%string, @nil float64)) by lia.
  cbn [Nat.add].
  assert (Hlt : (i <? length (fit_PCs m n))%nat = true) by (apply Nat.ltb_lt; lia).
  rewrite Hlt. cbn [andb].
  unfold flip_at. rewrite nth_fit_medians by assumption.
  assert (Hcol := column_fit_R m X n i ltac:(lia)).
  assert (Hne' : map (fun a => pearson_eps a (nth i (fit_comps m n) [])) X <> [])
    by (destruct X; [congruence|discriminate]).
  destruct (fltb (np_median (column i (fit_R m X n))) (Fin 0)) eqn:Ef.
  - split; [reflexivity|]. split; [intros _; split; reflexivity|].
    split; [discriminate|].
    rewrite Hcol, np_median_Fin in Ef by assumption.
    fold (negate (column i (fit_R m X n))).
    rewrite Hcol, np_median_negate by assumption.
    eexists. split; [reflexivity|].
    cbn [fltb] in Ef.
    destruct (Rlt_dec (Rmedian (map (fun a => pearson_eps a (nth i (fit_comps m n) [])) X)) 0);
      [lra|discriminate].
  - split; [reflexivity|]. split; [discriminate|].
    rewrite map_id.
    split; [intros _; split; reflexivity|].
    + rewrite Hcol, np_median_Fin in Ef by assumption.
      rewrite Hcol, np_median_Fin by assumption.
      eexists. split; [reflexivity|].
      cbn [fltb] in Ef.
      destruct (Rlt_dec (Rmedian (map (fun a => pearson_eps a (nth i (fit_comps m n) [])) X)) 0);
        [discriminate|lra].
Qed.

Lemma toy_PCA_shapes : sklearn_shapes toy_PCA.
Proof.
  intros X T HX. unfold toy_PCA. cbn [components_ explained_variance_ratio_].
  assert (Hk : Nat.min (length X) (length (hd [] X)) = Nat.min (length X) T).
  { destruct X as [|r X]; [reflexivity|]. inversion HX; subst. reflexivity. }
  rewrite length_map, length_seq, repeat_length, Hk.
  repeat split.
  apply Forall_map, Forall_forall. intros i Hi. apply in_seq in Hi.
  unfold unit_vector. rewrite length_map, length_seq.
  destruct X as [|r X]; [simpl in Hi; lia|]. inversion HX; subst. reflexivity.
Qed.

Lemma tie_world_has_carpet : has_carpet tie_world [[-1; 1]; [1; -1]; [-1; 1]] 2.
Proof.
  unfold has_carpet. repeat split; try reflexivity.
  - repeat constructor.
  - discriminate.
  - lia.
Qed.

Lemma fit_sign_flip_witness :
  exists w0 w1 P0 R0 P1 R1,
    fit_pca_and_correlate toy_PCA no_int_of_str (PyInt 2) false false tie_world
    = (w0, Ok tt) /\
    PCs (self w0) = Some P0 /\ PC_carpet_R (self w0) = Some R0 /\
    fit_pca_and_correlate toy_PCA no_int_of_str (PyInt 2) false true tie_world
    = (w1, Ok tt) /\
    PCs (self w1) = Some P1 /\ PC_carpet_R (self w1) = Some R1 /\
    pearsonr_2d (of_reals 2 [[-1; 1]; [1; -1]; [-1; 1]]) (mk2 2 (map snd P1)) = Ok R1 /\
    length P0 = Z.to_nat 2 /\ length P1 = Z.to_nat 2 /\
    forall i, (i < Z.to_nat 2)%nat ->
      fst (nth i P1 (""%string, [])) = fst (nth i P0 (""%string, [])) /\
      (fltb (np_median (column i R0)) (Fin 0) = true ->
       snd (nth i P1 (""%string, [])) = negate (snd (nth i P0 (""%string, []))) /\
       column i R1 = negate (column i R0)) /\
      (fltb (np_median (column i R0)) (Fin 0) = false ->
       snd (nth i P1 (""%string, [])) = snd (nth i P0 (""%string, [])) /\
       column i R1 = column i R0) /\
      exists med, np_median (column i R1) = Fin med /\ 0 <= med.
Proof.
  apply (fit_sign_flip toy_PCA no_int_of_str [[-1; 1]; [1; -1]; [-1; 1]] 2 2 false tie_world).
  - exact toy_PCA_shapes.
  - exact tie_world_has_carpet.
  - cbn. lia.
Defined.

(** C6.  The run with sign flipping writes exactly the files of the run
    without it: the full components, the full explained variance, the
    optional scores, the table of the first ncomp components and the
    report, all with the sign of the decomposition (the table holds the
    leading rows of [components_], the report the medians of the unflipped
    correlations).  The two final objects differ only in the in-memory
    component table and correlation matrix; the carpet and the stored
    explained variance are the same. *)
Theorem fit_flip_frame (PCA_fit_transform : list (list R) -> PCA_model)
    (int_of_str : string -> option Z)
    (X : list (list R)) (T : nat) (n : Z) (save_pca_scores : bool) (w : World) :
  sklearn_shapes PCA_fit_transform ->
  has_carpet w X T ->
  (0 <= n <= Z.of_nat (Nat.min (length X) T))%Z ->
  exists w0 w1 P0 R0 P1 R1,
    fit_pca_and_correlate PCA_fit_transform int_of_str (PyInt n) save_pca_scores false w
    = (w0, Ok tt) /\
    PCs (self w0) = Some P0 /\ PC_carpet_R (self w0) = Some R0 /\
    fit_pca_and_correlate PCA_fit_transform int_of_str (PyInt n) save_pca_scores true w
    = (w1, Ok tt) /\
    self w1 = set_PCs P1 R1 (self w0) /\
    carpet (self w1) = carpet (self w) /\
    expl_var (self w1) = Some (explained_variance_ratio_ (PCA_fit_transform X)) /\
    map snd P0 = map (map Fin) (firstn (Z.to_nat n) (components_ (PCA_fit_transform X))) /\
    disk w1 = disk w0 /\
    disk w1
    = ("pca_carpet_correlation_report.csv"%string,
       CsvReport (mkreport (map fst P0)
                    (firstn (Z.to_nat n) (explained_variance_ratio_ (PCA_fit_transform X)))
                    (map (fun i => np_median (column i R0)) (seq 0 (Z.to_nat n)))))
      :: (("pca_components_" ++ str_Z n ++ ".csv")%string, CsvTable P0)
      :: (if save_pca_scores
          then [("pca_scores_all.npy"%string, NpyArray (pca_scores (PCA_fit_transform X)))]
          else [])
      ++ ("pca_explained_variance_all.npy"%string,
          NpyVector (explained_variance_ratio_ (PCA_fit_transform X)))
      :: ("pca_components_all.npy"%string,
          NpyArray (of_reals T (components_ (PCA_fit_transform X))))
      :: disk w.
Proof.
  intros Hsh Hcar Hn.
  pose proof Hcar as (_ & HX & Hne & _).
  destruct (fit_comps_shape PCA_fit_transform Hsh X T n HX Hn) as (Hlc & _ & _).
  pose proof (fit_run PCA_fit_transform int_of_str Hsh X T n save_pca_scores false w Hcar Hn)
    as Hrun0.
  pose proof (fit_run PCA_fit_transform int_of_str Hsh X T n save_pca_scores true w Hcar Hn)
    as Hrun1.
  set (m := PCA_fit_transform X) in *.
  do 2 eexists. exists (fit_PCs m n), (fit_R m X n). do 2 eexists.
  split; [exact Hrun0|].
  cbn [self disk PCs PC_carpet_R set_PCs fit_final fst snd].
  split; [reflexivity|]. split; [reflexivity|].
  split; [exact Hrun1|].
  cbn [self disk].
  split; [reflexivity|].
  split; [reflexivity|].
  split; [reflexivity|].
  assert (Hl : length (comp_names (Z.to_nat n)) = length (map (map Fin) (fit_comps m n)))
    by now rewrite length_comp_names, length_map.
  split; [unfold fit_PCs; now rewrite map_snd_combine|].
  split; [reflexivity|].
  unfold fit_disk, fit_report, fit_medians, fit_PCs.
  now rewrite map_fst_combine.
Qed.

Lemma fit_flip_frame_witness :
  exists w0 w1 P0 R0 P1 R1,
    fit_pca_and_correlate toy_PCA no_int_of_str (PyInt 2) true false tie_world
    = (w0, Ok tt) /\
    PCs (self w0) = Some P0 /\ PC_carpet_R (self w0) = Some R0 /\
    fit_pca_and_correlate toy_PCA no_int_of_str (PyInt 2) true true tie_world
    = (w1, Ok tt) /\
    self w1 = set_PCs P1 R1 (self w0) /\
    carpet (self w1) = carpet (self tie_world) /\
    expl_var (self w1)
    = Some (explained_variance_ratio_ (toy_PCA [[-1; 1]; [1; -1]; [-1; 1]])) /\
    map snd P0
    = map (map Fin) (firstn (Z.to_nat 2) (components_ (toy_PCA [[-1; 1]; [1; -1]; [-1; 1]]))) /\
    disk w1 = disk w0 /\
    disk w1
    = ("pca_carpet_correlation_report.csv"%string,
       CsvReport (mkreport (map fst P0)
                    (firstn (Z.to_nat 2)
                       (explained_variance_ratio_ (toy_PCA [[-1; 1]; [1; -1]; [-1; 1]])))
                    (map (fun i => np_median (column i R0)) (seq 0 (Z.to_nat 2)))))
      :: (("pca_components_" ++ str_Z 2 ++ ".csv")%string, CsvTable P0)
      :: (if true
          then [("pca_scores_all.npy"%string,
                 NpyArray (pca_scores (toy_PCA [[-1; 1]; [1; -1]; [-1; 1]])))]
          else [])
      ++ ("pca_explained_variance_all.npy"%string,
          NpyVector (explained_variance_ratio_ (toy_PCA [[-1; 1]; [1; -1]; [-1; 1]])))
      :: ("pca_components_all.npy"%string,
          NpyArray (of_reals 2 (components_ (toy_PCA [[-1; 1]; [1; -1]; [-1; 1]]))))
      :: disk tie_world.
Proof.
  apply (fit_flip_frame toy_PCA no_int_of_str [[-1; 1]; [1; -1]; [-1; 1]] 2 2 true tie_world).
  - exact toy_PCA_shapes.
  - exact tie_world_has_carpet.
  - cbn. lia.
Defined.

Lemma when_save_run (b : bool) (name : string) (a : artifact) (w0 : World) :
  when b (save_file name a) w0
  = (mkWorld (self w0) ((if b then [(name, a)] else []) ++ disk w0), Ok tt).
Proof. destruct w0 as [s0 d0]. destruct b; reflexivity. Qed.

(** With more components requested than were fitted, the call stops at the
    construction of the component table, after the first files are
    written. *)
Lemma fit_run_too_many (PCA_fit_transform : list (list R) -> PCA_model)
    (int_of_str : string -> option Z)
    (X : list (list R)) (T : nat) (n : Z) (save_pca_scores flip_sign : bool) (w : World) :
  sklearn_shapes PCA_fit_transform ->
  has_carpet w X T ->
  (Z.of_nat (Nat.min (length X) T) < n)%Z ->
  fit_pca_and_correlate PCA_fit_transform int_of_str (PyInt n) save_pca_scores flip_sign w
  = (mkWorld
       (set_expl_var (explained_variance_ratio_ (PCA_fit_transform X))
                     (set_ncomp n (self w)))
       ((if save_pca_scores
         then [("pca_scores_all.npy"%string, NpyArray (pca_scores (PCA_fit_transform X)))]
         else [])
        ++ ("pca_explained_variance_all.npy"%string,
            NpyVector (explained_variance_ratio_ (PCA_fit_transform X)))
        :: ("pca_components_all.npy"%string,
            NpyArray (of_reals T (components_ (PCA_fit_transform X))))
        :: disk w),
     Raise (ValueError "Shape of passed values does not match the indices")).
Proof.
  intros Hsh (Hc & HX & Hne & HT) Hn.
  destruct (Hsh X T HX) as (Hk & _ & _).
  unfold fit_pca_and_correlate, try_set_ncomp, py_int.
  unfold bind at 1. unfold update_self at 1.
  unfold bind at 1. unfold get_self. cbn [self carpet set_ncomp].
  unfold bind at 1. unfold lift at 1. rewrite Hc.
  unfold bind at 1. unfold lift at 1. rewrite check_array_reals by assumption.
  set (m := PCA_fit_transform X) in *.
  unfold bind at 1. unfold update_self at 1.
  unfold bind at 1. unfold save_file at 1.
  unfold bind at 1. unfold save_file at 1.
  unfold bind at 1. rewrite when_save_run. cbn [self disk].
  unfold bind at 1. unfold lift at 1. cbn [py_range].
  unfold bind at 1. unfold lift at 1. unfold py_slice_to at 1.
  replace (n <? 0)%Z with false by (symmetry; apply Z.ltb_ge; lia).
  unfold bind at 1. unfold lift at 1. unfold pd_DataFrame.
  rewrite length_firstn, Hk, length_map, length_seq.
  replace (Nat.min (Z.to_nat n) (Nat.min (length X) T) =? Z.to_nat n)%nat with false
    by (symmetry; apply Nat.eqb_neq; lia).
  reflexivity.
Qed.

(** A str passed as [ncomp]: whatever [int] makes of it, the call stops at
    [range(ncomp)] with a [TypeError], after the first files are written. *)
Lemma fit_run_str (PCA_fit_transform : list (list R) -> PCA_model)
    (int_of_str : string -> option Z)
    (X : list (list R)) (T : nat) (s : string) (save_pca_scores flip_sign : bool) (w : World) :
  has_carpet w X T ->
  exists w',
    fit_pca_and_correlate PCA_fit_transform int_of_str (PyStr s) save_pca_scores flip_sign w
    = (w', Raise (TypeError "'str' object cannot be interpreted as an integer")) /\
    ncomp (self w') = match int_of_str s with
                      | Some k => Some k
                      | None => ncomp (self w)
                      end.
Proof.
  intros (Hc & HX & Hne & HT).
  unfold fit_pca_and_correlate, try_set_ncomp, py_int.
  destruct (int_of_str s) as [k|].
  - unfold bind at 1. unfold update_self at 1.
    unfold bind at 1. unfold get_self. cbn [self carpet set_ncomp].
    unfold bind at 1. unfold lift at 1. rewrite Hc.
    unfold bind at 1. unfold lift at 1. rewrite check_array_reals by assumption.
    unfold bind at 1. unfold update_self at 1.
    unfold bind at 1. unfold save_file at 1.
    unfold bind at 1. unfold save_file at 1.
    unfold bind at 1. rewrite when_save_run. cbn [self disk].
    unfold bind at 1. unfold lift at 1. cbn [py_range].
    eexists. split; reflexivity.
  - unfold bind at 1. unfold ret at 1.
    unfold bind at 1. unfold get_self.
    unfold bind at 1. unfold lift at 1. rewrite Hc.
    unfold bind at 1. unfold lift at 1. rewrite check_array_reals by assumption.
    unfold bind at 1. unfold update_self at 1.
    unfold bind at 1. unfold save_file at 1.
    unfold bind at 1. unfold save_file at 1.
    unfold bind at 1. rewrite when_save_run. cbn [self disk].
    unfold bind at 1. unfold lift at 1. cbn [py_range].
    eexists. split; reflexivity.
Qed.

(** A negative int [ncomp]: [range(ncomp)] is empty and the slices
    [:ncomp] count from the end. *)
Lemma fit_run_negative (PCA_fit_transform : list (list R) -> PCA_model)
    (int_of_str : string -> option Z)
    (X : list (list R)) (T : nat) (n : Z) (save_pca_scores flip_sign : bool) (w : World) :
  sklearn_shapes PCA_fit_transform ->
  has_carpet w X T ->
  (n < 0)%Z -> (n <= - Z.of_nat (Nat.min (length X) T))%Z ->
  fit_pca_and_correlate PCA_fit_transform int_of_str (PyInt n) save_pca_scores flip_sign w
  = (mkWorld
       (set_PCs [] (mk2 0 (map (fun _ => []) X))
          (set_expl_var (explained_variance_ratio_ (PCA_fit_transform X))
                        (set_ncomp n (self w))))
       (("pca_carpet_correlation_report.csv"%string, CsvReport (mkreport [] [] []))
        :: (("pca_components_" ++ str_Z n ++ ".csv")%string, CsvTable [])
        :: (if save_pca_scores
            then [("pca_scores_all.npy"%string, NpyArray (pca_scores (PCA_fit_transform X)))]
            else [])
        ++ ("pca_explained_variance_all.npy"%string,
            NpyVector (explained_variance_ratio_ (PCA_fit_transform X)))
        :: ("pca_components_all.npy"%string,
            NpyArray (of_reals T (components_ (PCA_fit_transform X))))
        :: disk w),
     Ok tt).
Proof.
  intros Hsh (Hc & HX & Hne & HT) Hneg Hn.
  destruct (Hsh X T HX) as (Hk & _ & He).
  unfold fit_pca_and_correlate, try_set_ncomp, py_int.
  unfold bind at 1. unfold update_self at 1.
  unfold bind at 1. unfold get_self. cbn [self carpet set_ncomp].
  unfold bind at 1. unfold lift at 1. rewrite Hc.
  unfold bind at 1. unfold lift at 1. rewrite check_array_reals by assumption.
  set (m := PCA_fit_transform X) in *.
  unfold bind at 1. unfold update_self at 1.
  unfold bind at 1. unfold save_file at 1.
  unfold bind at 1. unfold save_file at 1.
  unfold bind at 1. rewrite when_save_run. cbn [self disk].
  unfold bind at 1. unfold lift at 1. cbn [py_range].
  replace (Z.to_nat n) with 0%nat by lia. cbn [seq map].
  unfold bind at 1. unfold lift at 1. unfold py_slice_to at 1.
  replace (n <? 0)%Z with true by (symmetry; apply Z.ltb_lt; lia).
  replace (length (components_ m) - Z.to_nat (- n))%nat with 0%nat by lia.
  cbn [firstn].
  unfold bind at 1. unfold lift at 1. unfold pd_DataFrame.
  cbn [length Nat.eqb combine map].
  unfold bind at 1. unfold save_file at 1. cbn [py_format self disk].
  unfold bind at 1. unfold lift at 1.
  change (mk2 (ncol (of_reals T X)) []) with (of_reals T []).
  rewrite pearsonr_2d_reals by (assumption || constructor).
  cbn [length map].
  unfold bind at 1. unfold lift at 1. unfold py_slice_to.
  replace (n <? 0)%Z with true by (symmetry; apply Z.ltb_lt; lia).
  replace (length (explained_variance_ratio_ m) - Z.to_nat (- n))%nat with 0%nat by lia.
  cbn [firstn length Nat.eqb].
  unfold bind at 1. unfold lift at 1.
  unfold bind at 1. unfold save_file at 1.
  unfold update_self. cbn [self disk report_carpet_R_median].
  destruct flip_sign; reflexivity.
Qed.

Lemma fit_run_negative_raise (PCA_fit_transform : list (list R) -> PCA_model)
    (int_of_str : string -> option Z)
    (X : list (list R)) (T : nat) (n : Z) (save_pca_scores flip_sign : bool) (w : World) :
  sklearn_shapes PCA_fit_transform ->
  has_carpet w X T ->
  (n < 0)%Z -> (- Z.of_nat (Nat.min (length X) T) < n)%Z ->
  fit_pca_and_correlate PCA_fit_transform int_of_str (PyInt n) save_pca_scores flip_sign w
  = (mkWorld
       (set_expl_var (explained_variance_ratio_ (PCA_fit_transform X))
                     (set_ncomp n (self w)))
       ((if save_pca_scores
         then [("pca_scores_all.npy"%string, NpyArray (pca_scores (PCA_fit_transform X)))]
         else [])
        ++ ("pca_explained_variance_all.npy"%string,
            NpyVector (explained_variance_ratio_ (PCA_fit_transform X)))
        :: ("pca_components_all.npy"%string,
            NpyArray (of_reals T (components_ (PCA_fit_transform X))))
        :: disk w),
     Raise (ValueError "Shape of passed values does not match the indices")).
Proof.
  intros Hsh (Hc & HX & Hne & HT) Hneg Hn.
  destruct (Hsh X T HX) as (Hk & _ & _).
  unfold fit_pca_and_correlate, try_set_ncomp, py_int.
  unfold bind at 1. unfold update_self at 1.
  unfold bind at 1. unfold get_self. cbn [self carpet set_ncomp].
  unfold bind at 1. unfold lift at 1. rewrite Hc.
  unfold bind at 1. unfold lift at 1. rewrite check_array_reals by assumption.
  set (m := PCA_fit_transform X) in *.
  unfold bind at 1. unfold update_self at 1.
  unfold bind at 1. unfold save_file at 1.
  unfold bind at 1. unfold save_file at 1.
  unfold bind at 1. rewrite when_save_run. cbn [self disk].
  unfold bind at 1. unfold lift at 1. cbn [py_range].
  replace (Z.to_nat n) with 0%nat by lia. cbn [seq map].
  unfold bind at 1. unfold lift at 1. unfold py_slice_to at 1.
  replace (n <? 0)%Z with true by (symmetry; apply Z.ltb_lt; lia).
  unfold bind at 1. unfold lift at 1. unfold pd_DataFrame.
  rewrite length_firstn, Hk. cbn [length].
  replace (Nat.min (Nat.min (length X) T - Z.to_nat (- n)) (Nat.min (length X) T) =? 0)%nat
    with false by (symmetry; apply Nat.eqb_neq; lia).
  reflexivity.
Qed.

(** C7, as the code has it.  [fit_pca_and_correlate] does not validate
    [ncomp]: a [ValueError] from [int(ncomp)] is caught and only reported.
    On a finite V x T carpet, with k = min(V, T) fitted components, an int
    [ncomp] with 0 <= ncomp <= k raises nothing, zero included, and is
    stored; an int [ncomp] above k, so in particular above T, fails with
    the [ValueError] raised when the component table is built, after the
    full components and the variance are written; an int [ncomp] <= -k
    raises nothing either; an int [ncomp] with -k < ncomp < 0 fails with
    the same [ValueError]; and a str fails with the [TypeError] of
    [range]. *)
Theorem fit_ncomp_handling (PCA_fit_transform : list (list R) -> PCA_model)
    (int_of_str : string -> option Z)
    (X : list (list R)) (T : nat) (save_pca_scores flip_sign : bool) (w : World) :
  sklearn_shapes PCA_fit_transform ->
  has_carpet w X T ->
  (forall n, (0 <= n <= Z.of_nat (Nat.min (length X) T))%Z ->
     exists w',
       fit_pca_and_correlate PCA_fit_transform int_of_str (PyInt n)
                             save_pca_scores flip_sign w = (w', Ok tt) /\
       ncomp (self w') = Some n) /\
  (forall n, (Z.of_nat (Nat.min (length X) T) < n)%Z ->
     exists w' msg,
       fit_pca_and_correlate PCA_fit_transform int_of_str (PyInt n)
                             save_pca_scores flip_sign w = (w', Raise (ValueError msg)) /\
       msg = "Shape of passed values does not match the indices"%string /\
       read_file "pca_components_all.npy" (disk w')
       = Some (NpyArray (of_reals T (components_ (PCA_fit_transform X))))) /\
  (forall n, (n <= - Z.of_nat (Nat.min (length X) T))%Z ->
     exists w',
       fit_pca_and_correlate PCA_fit_transform int_of_str (PyInt n)
                             save_pca_scores flip_sign w = (w', Ok tt) /\
       ncomp (self w') = Some n) /\
  (forall n, (- Z.of_nat (Nat.min (length X) T) < n < 0)%Z ->
     exists w' msg,
       fit_pca_and_correlate PCA_fit_transform int_of_str (PyInt n)
                             save_pca_scores flip_sign w = (w', Raise (ValueError msg)) /\
       msg = "Shape of passed values does not match the indices"%string /\
       read_file "pca_components_all.npy" (disk w')
       = Some (NpyArray (of_reals T (components_ (PCA_fit_transform X))))) /\
  (forall s,
     exists w' msg,
       fit_pca_and_correlate PCA_fit_transform int_of_str (PyStr s)
                             save_pca_scores flip_sign w = (w', Raise (TypeError msg)) /\
       msg = "'str' object cannot be interpreted as an integer"%string).
Proof.
  intros Hsh Hcar.
  assert (Hk : (1 <= Nat.min (length X) T)%nat).
  { destruct Hcar as (_ & _ & Hne & HT). destruct X; [congruence|]. cbn [length]. lia. }
  split; [|split; [|split; [|split]]].
  - intros n Hn. eexists. split; [now apply (fit_run _ _ Hsh X T)|]. reflexivity.
  - intros n Hn. do 2 eexists. split; [now apply (fit_run_too_many _ _ X T)|].
    split; [reflexivity|].
    cbn [disk]. destruct save_pca_scores; reflexivity.
  - intros n Hn. eexists.
    split; [apply (fit_run_negative _ _ X T); (assumption || lia)|]. reflexivity.
  - intros n Hn. do 2 eexists.
    split; [apply (fit_run_negative_raise _ _ X T); (assumption || lia)|].
    split; [reflexivity|].
    cbn [disk]. destruct save_pca_scores; reflexivity.
  - intros s.
    destruct (fit_run_str PCA_fit_transform int_of_str X T s save_pca_scores flip_sign w Hcar)
      as (w' & Hrun & _).
    now exists w', "'str' object cannot be interpreted as an integer"%string.
Qed.

Lemma fit_ncomp_handling_witness :
  (forall n, (0 <= n <= Z.of_nat (Nat.min (length [[-1; 1]; [1; -1]; [-1; 1]]) 2))%Z ->
     exists w',
       fit_pca_and_correlate toy_PCA no_int_of_str (PyInt n) false true tie_world
       = (w', Ok tt) /\
       ncomp (self w') = Some n) /\
  (forall n, (Z.of_nat (Nat.min (length [[-1; 1]; [1; -1]; [-1; 1]]) 2) < n)%Z ->
     exists w' msg,
       fit_pca_and_correlate toy_PCA no_int_of_str (PyInt n) false true tie_world
       = (w', Raise (ValueError msg)) /\
       msg = "Shape of passed values does not match the indices"%string /\
       read_file "pca_components_all.npy" (disk w')
       = Some (NpyArray (of_reals 2 (components_ (toy_PCA [[-1; 1]; [1; -1]; [-1; 1]]))))) /\
  (forall n, (n <= - Z.of_nat (Nat.min (length [[-1; 1]; [1; -1]; [-1; 1]]) 2))%Z ->
     exists w',
       fit_pca_and_correlate toy_PCA no_int_of_str (PyInt n) false true tie_world
       = (w', Ok tt) /\
       ncomp (self w') = Some n) /\
  (forall n, (- Z.of_nat (Nat.min (length [[-1; 1]; [1; -1]; [-1; 1]]) 2) < n < 0)%Z ->
     exists w' msg,
       fit_pca_and_correlate toy_PCA no_int_of_str (PyInt n) false true tie_world
       = (w', Raise (ValueError msg)) /\
       msg = "Shape of passed values does not match the indices"%string /\
       read_file "pca_components_all.npy" (disk w')
       = Some (NpyArray (of_reals 2 (components_ (toy_PCA [[-1; 1]; [1; -1]; [-1; 1]]))))) /\
  (forall s,
     exists w' msg,
       fit_pca_and_correlate toy_PCA no_int_of_str (PyStr s) false true tie_world
       = (w', Raise (TypeError msg)) /\
       msg = "'str' object cannot be interpreted as an integer"%string).
Proof.
  apply (fit_ncomp_handling toy_PCA no_int_of_str [[-1; 1]; [1; -1]; [-1; 1]] 2 false true
           tie_world).
  - exact toy_PCA_shapes.
  - exact tie_world_has_carpet.
Defined.

(** Against C7 as stated: [ncomp = 0] is not a positive integer, and the
    call raises nothing. *)
Lemma fit_accepts_zero_components :
  exists w',
    fit_pca_and_correlate toy_PCA no_int_of_str (PyInt 0) false true tie_world
    = (w', Ok tt) /\
    ncomp (self w') = Some 0%Z /\ PCs (self w') = Some [].
Proof.
  eexists. split.
  - apply (fit_run toy_PCA no_int_of_str toy_PCA_shapes
             [[-1; 1]; [1; -1]; [-1; 1]] 2 0 false true tie_world).
    + exact tie_world_has_carpet.
    + cbn. lia.
  - split; reflexivity.
Qed.

(** * Further properties of the code *)

(** ** [pearsonr_2d]: shapes, NaN, symmetry and bounds *)

Lemma pearsonr_2d_mismatch (A B : array2) :
  ncol A <> ncol B -> pearsonr_2d A B = Raise (ValueError "shapes not aligned").
Proof.
  intros Hne. unfold pearsonr_2d, pearsonr_numerator, np_dot.
  replace (ncol (sub_row_mean A) =? nrow (transpose (sub_row_mean B)))%nat with false.
  - reflexivity.
  - symmetry. apply Nat.eqb_neq. unfold nrow, transpose, sub_row_mean.
    cbn [ncol rows]. now rewrite length_map, length_seq.
Qed.

(** X1.  On any float64 arrays, NaN included, [pearsonr_2d A B] returns
    exactly when the column counts agree: then the result has one row per
    row of [A] and one column per row of [B]; otherwise the matrix product
    raises [ValueError]. *)
Theorem pearsonr_2d_shape (A B : array2) :
  wf2 B ->
  (ncol A = ncol B ->
   exists Rm, pearsonr_2d A B = Ok Rm /\
              nrow Rm = nrow A /\ ncol Rm = nrow B /\ wf2 Rm) /\
  (ncol A <> ncol B ->
   exists msg, pearsonr_2d A B = Raise (ValueError msg)).
Proof.
  intros HB. split.
  - intros Hc. eexists. split; [now apply pearsonr_2d_rows|].
    unfold nrow, wf2. cbn [rows ncol]. rewrite length_map.
    repeat split. apply Forall_map, Forall_forall.
    intros a _. cbn beta. now rewrite length_map.
  - intros Hne. eexists. now apply pearsonr_2d_mismatch.
Qed.

Lemma pearsonr_2d_shape_witness :
  (ncol (mk2 2 [[Fin 1; NaN]]) = ncol (mk2 2 [[Fin 1; Fin 2]; [Fin 0; Fin 1]]) ->
   exists Rm, pearsonr_2d (mk2 2 [[Fin 1; NaN]]) (mk2 2 [[Fin 1; Fin 2]; [Fin 0; Fin 1]]) = Ok Rm /\
              nrow Rm = nrow (mk2 2 [[Fin 1; NaN]]) /\
              ncol Rm = nrow (mk2 2 [[Fin 1; Fin 2]; [Fin 0; Fin 1]]) /\ wf2 Rm) /\
  (ncol (mk2 2 [[Fin 1; NaN]]) <> ncol (mk2 2 [[Fin 1; Fin 2]; [Fin 0; Fin 1]]) ->
   exists msg, pearsonr_2d (mk2 2 [[Fin 1; NaN]]) (mk2 2 [[Fin 1; Fin 2]; [Fin 0; Fin 1]])
               = Raise (ValueError msg)).
Proof.
  apply (pearsonr_2d_shape (mk2 2 [[Fin 1; NaN]]) (mk2 2 [[Fin 1; Fin 2]; [Fin 0; Fin 1]])).
  repeat constructor.
Defined.

Lemma fsum_NaN (l : list float64) : In NaN l -> fsum l = NaN.
Proof.
  induction l as [|a l IH]; [contradiction|].
  intros [->|H]; [reflexivity|].
  change (fsum (a :: l)) with (fadd a (fsum l)). rewrite IH by assumption.
  now destruct a.
Qed.

Lemma fmean_NaN (l : list float64) : In NaN l -> fmean l = NaN.
Proof. intros H. unfold fmean. now rewrite fsum_NaN. Qed.

Lemma sum_sq_NaN (a : list float64) :
  In NaN a ->
  fsum (map (fun u => fmul u u) (map (fun u => fsub u (fmean a)) a)) = NaN.
Proof.
  intros H. apply fsum_NaN. rewrite map_map. apply in_map_iff.
  exists NaN. split; [reflexivity|assumption].
Qed.

Lemma row_corr_NaN_l (a b : list float64) : In NaN a -> row_corr a b = NaN.
Proof.
  intros H. unfold row_corr. rewrite (sum_sq_NaN a H). cbn [fmul fadd fsqrt].
  now destruct (vdot _ _).
Qed.

Lemma row_corr_NaN_r (a b : list float64) : In NaN b -> row_corr a b = NaN.
Proof.
  intros H. unfold row_corr. rewrite (sum_sq_NaN b H).
  destruct (fsum (map (fun u => fmul u u) (map (fun u => fsub u (fmean a)) a)));
    cbn [fmul fadd fsqrt]; now destruct (vdot _ _).
Qed.

(** X2.  A NaN anywhere in a row makes every correlation of that row NaN:
    a NaN in row i of [A] gives a NaN row i of the result, and a NaN in row
    j of [B] a NaN column j. *)
Theorem pearsonr_2d_nan (A B : array2) :
  wf2 B -> ncol A = ncol B ->
  exists Rm, pearsonr_2d A B = Ok Rm /\
    forall i j, (i < nrow A)%nat -> (j < nrow B)%nat ->
      In NaN (nth i (rows A) []) \/ In NaN (nth j (rows B) []) ->
      entry Rm i j = NaN.
Proof.
  intros HB Hc. eexists. split; [now apply pearsonr_2d_rows|].
  intros i j Hi Hj H. unfold entry. cbn [rows].
  rewrite nth_map_lt with (d' := []) by assumption.
  rewrite nth_map_lt with (d' := []) by assumption.
  destruct H; [now apply row_corr_NaN_l|now apply row_corr_NaN_r].
Qed.

Lemma pearsonr_2d_nan_witness :
  exists Rm, pearsonr_2d (mk2 2 [[Fin 1; NaN]]) (mk2 2 [[Fin 1; Fin 2]; [Fin 0; Fin 1]]) = Ok Rm /\
    forall i j, (i < nrow (mk2 2 [[Fin 1; NaN]]))%nat ->
                (j < nrow (mk2 2 [[Fin 1; Fin 2]; [Fin 0; Fin 1]]))%nat ->
      In NaN (nth i (rows (mk2 2 [[Fin 1; NaN]])) []) \/
      In NaN (nth j (rows (mk2 2 [[Fin 1; Fin 2]; [Fin 0; Fin 1]])) []) ->
      entry Rm i j = NaN.
Proof.
  apply (pearsonr_2d_nan (mk2 2 [[Fin 1; NaN]]) (mk2 2 [[Fin 1; Fin 2]; [Fin 0; Fin 1]]));
    [repeat constructor|reflexivity].
Defined.

Lemma Rdot_sym (u v : list R) : Rdot u v = Rdot v u.
Proof.
  unfold Rdot. f_equal.
  revert v. induction u as [|a u IH]; intros [|b v]; cbn [combine map]; try reflexivity.
  cbn [fst snd]. rewrite IH. f_equal. ring.
Qed.

Lemma pearson_eps_sym (a b : list R) : pearson_eps a b = pearson_eps b a.
Proof.
  unfold pearson_eps. rewrite Rdot_sym.
  now rewrite (Rmult_comm (sumsq (center a))).
Qed.

(** X3.  Swapping the arguments transposes the result: entry (i, j) of
    [pearsonr_2d A B] is entry (j, i) of [pearsonr_2d B A]. *)
Theorem pearsonr_2d_swap (T : nat) (A B : list (list R)) :
  Forall (fun r => length r = T) A ->
  Forall (fun r => length r = T) B ->
  exists R1 R2,
    pearsonr_2d (of_reals T A) (of_reals T B) = Ok R1 /\
    pearsonr_2d (of_reals T B) (of_reals T A) = Ok R2 /\
    forall i j, (i < length A)%nat -> (j < length B)%nat ->
      entry R1 i j = entry R2 j i.
Proof.
  intros HA HB. do 2 eexists.
  split; [now apply pearsonr_2d_reals|].
  split; [now apply pearsonr_2d_reals|].
  intros i j Hi Hj. rewrite !entry_pearson by assumption.
  now rewrite pearson_eps_sym.
Qed.

Lemma pearsonr_2d_swap_witness :
  exists R1 R2,
    pearsonr_2d (of_reals 3 [[1; 2; 4]]) (of_reals 3 [[1; 0; 1]; [3; 2; 1]]) = Ok R1 /\
    pearsonr_2d (of_reals 3 [[1; 0; 1]; [3; 2; 1]]) (of_reals 3 [[1; 2; 4]]) = Ok R2 /\
    forall i j, (i < length [[1; 2; 4]])%nat -> (j < length [[1; 0; 1]; [3; 2; 1]])%nat ->
      entry R1 i j = entry R2 j i.
Proof.
  apply (pearsonr_2d_swap 3 [[1; 2; 4]] [[1; 0; 1]; [3; 2; 1]]); repeat constructor.
Defined.

Lemma Forall_length_map_map {A B : Type} (f : A -> B) (T : nat) (X : list (list A)) :
  Forall (fun r => length r = T) X ->
  Forall (fun r => length r = T) (map (map f) X).
Proof.
  intros H. apply Forall_map. eapply Forall_impl; [|exact H].
  intros r Hr. cbn beta. now rewrite length_map.
Qed.

(** X4.  Negating the rows of [B] negates every correlation: entry (i, j)
    of [pearsonr_2d A (-B)] is minus entry (i, j) of [pearsonr_2d A B]. *)
Theorem pearsonr_2d_negated (T : nat) (A B : list (list R)) :
  Forall (fun r => length r = T) A ->
  Forall (fun r => length r = T) B ->
  exists R1 R2,
    pearsonr_2d (of_reals T A) (of_reals T B) = Ok R1 /\
    pearsonr_2d (of_reals T A) (of_reals T (map (map Ropp) B)) = Ok R2 /\
    forall i j, (i < length A)%nat -> (j < length B)%nat ->
      entry R2 i j = fneg (entry R1 i j).
Proof.
  intros HA HB. do 2 eexists.
  split; [now apply pearsonr_2d_reals|].
  split; [apply pearsonr_2d_reals; [assumption|now apply Forall_length_map_map]|].
  intros i j Hi Hj.
  rewrite !entry_pearson by (assumption || now rewrite length_map).
  cbn [fneg]. f_equal.
  rewrite nth_map_lt with (d' := []) by assumption.
  apply pearson_eps_opp_r.
Qed.

Lemma pearsonr_2d_negated_witness :
  exists R1 R2,
    pearsonr_2d (of_reals 3 [[1; 2; 4]]) (of_reals 3 [[1; 0; 1]; [3; 2; 1]]) = Ok R1 /\
    pearsonr_2d (of_reals 3 [[1; 2; 4]])
                (of_reals 3 (map (map Ropp) [[1; 0; 1]; [3; 2; 1]])) = Ok R2 /\
    forall i j, (i < length [[1; 2; 4]])%nat -> (j < length [[1; 0; 1]; [3; 2; 1]])%nat ->
      entry R2 i j = fneg (entry R1 i j).
Proof.
  apply (pearsonr_2d_negated 3 [[1; 2; 4]] [[1; 0; 1]; [3; 2; 1]]); repeat constructor.
Defined.

(** The Cauchy-Schwarz inequality for the dot product of two lists. *)
Lemma Rdot_sqr_le (u v : list R) : Rdot u v * Rdot u v <= sumsq u * sumsq v.
Proof.
  revert v. induction u as [|a u IH]; intros [|b v].
  - cbn. lra.
  - pose proof (sumsq_nonneg (b :: v)). cbn. nra.
  - pose proof (sumsq_nonneg (a :: u)). cbn. nra.
  - change (Rdot (a :: u) (b :: v)) with (a * b + Rdot u v).
    change (sumsq (a :: u)) with (a * a + sumsq u).
    change (sumsq (b :: v)) with (b * b + sumsq v).
    specialize (IH v).
    pose proof (sumsq_nonneg u) as HU. pose proof (sumsq_nonneg v) as HV.
    set (D := Rdot u v) in *. set (U := sumsq u) in *. set (V := sumsq v) in *.
    assert (Hx : 0 <= a * a * V + b * b * U - 2 * a * b * D).
    { destruct (Req_dec_T U 0) as [HU0|HU0].
      - assert (HD : D = 0) by nra. rewrite HD, HU0. nra.
      - assert (HUp : 0 < U) by lra.
        assert (Hm : 0 <= U * (a * a * V + b * b * U - 2 * a * b * D)).
        { pose proof (Rle_0_sqr (a * D - b * U)) as Hs. unfold Rsqr in Hs.
          assert (Ha : 0 <= a * a * (U * V - D * D)) by (apply Rmult_le_pos; nra).
          nra. }
        destruct (Rle_lt_dec 0 (a * a * V + b * b * U - 2 * a * b * D)) as [|Hneg];
          [assumption|].
        exfalso. assert (U * (a * a * V + b * b * U - 2 * a * b * D) < 0) by nra. lra. }
    nra.
Qed.

Lemma Rabs_Rdot_le (u v : list R) : Rabs (Rdot u v) <= sqrt (sumsq u * sumsq v).
Proof.
  rewrite <- sqrt_Rsqr_abs. apply sqrt_le_1_alt. unfold Rsqr. apply Rdot_sqr_le.
Qed.

(** In exact arithmetic the regularised correlation stays strictly inside
    (-1, 1). *)
Lemma pearson_eps_bound (a b : list R) : -1 < pearson_eps a b < 1.
Proof.
  unfold pearson_eps.
  pose proof (Rabs_Rdot_le (center a) (center b)) as Hcs.
  pose proof (sqrt_pos (sumsq (center a) * sumsq (center b))) as Hs.
  pose proof EPSILON_pos as He.
  set (d := sqrt (sumsq (center a) * sumsq (center b)) + EPSILON) in *.
  assert (Hd : 0 < d) by (unfold d; lra).
  assert (Habs : Rabs (Rdot (center a) (center b)) < d) by (unfold d; lra).
  apply Rabs_def2 in Habs. destruct Habs as [H1 H2].
  split.
  - apply Rmult_lt_reg_r with d; [assumption|].
    unfold Rdiv. rewrite Rmult_assoc, Rinv_l by lra. lra.
  - apply Rmult_lt_reg_r with d; [assumption|].
    unfold Rdiv. rewrite Rmult_assoc, Rinv_l by lra. lra.
Qed.






(** ** Construction *)

(** X8.  [Dataset(...)] returns an object exactly when both files load and
    the three dimension checks pass.  An exception of [nib.load] other
    than [IOError] (nibabel's [ImageFileError] for a file that is not an
    image) is not caught and leaves the constructor: that of the
    functional file whatever the mask, that of the mask when the
    functional file was loaded, was missing or failed with [IOError].
    A functional file that is missing or fails with [IOError] gives
    [UnboundLocalError] on [fmri_nifti] when the mask raises nothing
    uncaught; with the functional file loaded, a mask that is missing or
    fails with [IOError] gives it on [mask_nifti], before any dimension is
    looked at. *)
Theorem Dataset_init_outcomes (fs : string -> file_status)
    (fmri_path mask_path out : string) (tr : R) :
  ((exists ds, Dataset_init fs fmri_path mask_path out tr = Ok ds) <->
   exists fi mi,
     fs fmri_path = Loaded fi /\ fs mask_path = Loaded mi /\
     length (shape (get_fdata fi)) = 4%nat /\
     length (shape (get_fdata mi)) = 3%nat /\
     firstn 3 (shape (get_fdata fi)) = shape (get_fdata mi)) /\
  (forall e, fs fmri_path = LoadRaises e ->
   Dataset_init fs fmri_path mask_path out tr = Raise e) /\
  (forall e, (forall e', fs fmri_path <> LoadRaises e') -> fs mask_path = LoadRaises e ->
   Dataset_init fs fmri_path mask_path out tr = Raise e) /\
  (fs fmri_path = NoFile \/ fs fmri_path = LoadIOError ->
   (forall e, fs mask_path <> LoadRaises e) ->
   Dataset_init fs fmri_path mask_path out tr = Raise (UnboundLocalError "fmri_nifti")) /\
  (forall fi, fs fmri_path = Loaded fi ->
   fs mask_path = NoFile \/ fs mask_path = LoadIOError ->
   Dataset_init fs fmri_path mask_path out tr = Raise (UnboundLocalError "mask_nifti")).
Proof.
  split; [|split; [|split; [|split]]].
  - split.
    + intros [ds Hds]. unfold Dataset_init in Hds.
      destruct (fs fmri_path) as [| |e|fi] eqn:Ef;
        destruct (fs mask_path) as [| |e'|mi] eqn:Em; try discriminate.
      exists fi, mi. rewrite import_data_loaded in Hds.
      destruct (Nat.eqb_spec (length (shape (get_fdata fi))) 4) as [H4|];
        cbn [negb] in Hds; [|discriminate].
      destruct (Nat.eqb_spec (length (shape (get_fdata mi))) 3) as [H3|];
        cbn [negb] in Hds; [|discriminate].
      destruct (shape_eqb (firstn 3 (shape (get_fdata fi))) (shape (get_fdata mi))) eqn:He;
        cbn [negb] in Hds; [|discriminate].
      apply shape_eqb_true in He. now repeat split.
    + intros (fi & mi & Hf & Hm & H4 & H3 & He).
      unfold Dataset_init. rewrite Hf, Hm, import_data_loaded.
      rewrite H4, H3. cbn [Nat.eqb negb].
      apply shape_eqb_true in He. rewrite He. cbn [negb rbind]. now eexists.
  - intros e Hf. unfold Dataset_init. now rewrite Hf.
  - intros e Hf Hm. unfold Dataset_init. rewrite Hm.
    destruct (fs fmri_path) as [| |e'|fi]; try reflexivity.
    exfalso. now apply (Hf e').
  - intros Hf Hm. unfold Dataset_init.
    destruct (fs mask_path) as [| |e|mi]; try (exfalso; now apply (Hm e));
      destruct Hf as [-> | ->]; reflexivity.
  - intros fi Hf Hm. unfold Dataset_init. rewrite Hf.
    destruct Hm as [-> | ->]; reflexivity.
Qed.

Lemma Dataset_init_outcomes_witness :
  ((exists ds, Dataset_init sample_files "func.nii" "nowhere.nii" "out" 2 = Ok ds) <->
   exists fi mi,
     sample_files "func.nii" = Loaded fi /\ sample_files "nowhere.nii" = Loaded mi /\
     length (shape (get_fdata fi)) = 4%nat /\
     length (shape (get_fdata mi)) = 3%nat /\
     firstn 3 (shape (get_fdata fi)) = shape (get_fdata mi)) /\
  (forall e, sample_files "func.nii" = LoadRaises e ->
   Dataset_init sample_files "func.nii" "nowhere.nii" "out" 2 = Raise e) /\
  (forall e, (forall e', sample_files "func.nii" <> LoadRaises e') ->
   sample_files "nowhere.nii" = LoadRaises e ->
   Dataset_init sample_files "func.nii" "nowhere.nii" "out" 2 = Raise e) /\
  (sample_files "func.nii" = NoFile \/ sample_files "func.nii" = LoadIOError ->
   (forall e, sample_files "nowhere.nii" <> LoadRaises e) ->
   Dataset_init sample_files "func.nii" "nowhere.nii" "out" 2
   = Raise (UnboundLocalError "fmri_nifti")) /\
  (forall fi, sample_files "func.nii" = Loaded fi ->
   sample_files "nowhere.nii" = NoFile \/ sample_files "nowhere.nii" = LoadIOError ->
   Dataset_init sample_files "func.nii" "nowhere.nii" "out" 2
   = Raise (UnboundLocalError "mask_nifti")).
Proof.
  apply (Dataset_init_outcomes sample_files "func.nii" "nowhere.nii" "out" 2).
Defined.

(** X9.  A constructed object is consistent: [x, y, z, t] are the
    dimensions of the stored volume, the stored mask has shape [(x, y, z)],
    the header and affine are the mask's, the paths and TR are those
    given, and none of [carpet], [ncomp], [expl_var], [PCs], [PC_carpet_R]
    exists yet. *)
Theorem Dataset_init_object (fs : string -> file_status)
    (fmri_path mask_path out : string) (tr : R) (fi mi : nifti) (ds : Dataset) :
  fs fmri_path = Loaded fi -> fs mask_path = Loaded mi ->
  wf_nd (get_fdata fi) -> wf_nd (get_fdata mi) ->
  Dataset_init fs fmri_path mask_path out tr = Ok ds ->
  wf_dataset ds /\
  data ds = get_fdata fi /\ mask ds = get_fdata mi /\
  mask_header ds = header mi /\ mask_affine ds = affine mi /\
  fmri_file ds = fmri_path /\ mask_file ds = mask_path /\
  output_dir ds = out /\ TR ds = tr /\
  carpet ds = None /\ ncomp ds = None /\ expl_var ds = None /\
  PCs ds = None /\ PC_carpet_R ds = None.
Proof.
  intros Hf Hm Wf Wm Hinit.
  split; [apply (Dataset_init_wf fs fmri_path mask_path out tr fi mi ds); assumption|].
  unfold Dataset_init in Hinit. rewrite Hf, Hm, import_data_loaded in Hinit.
  destruct (negb (length (shape (get_fdata fi)) =? 4)%nat); [discriminate|].
  destruct (negb (length (shape (get_fdata mi)) =? 3)%nat); [discriminate|].
  destruct (negb (shape_eqb (firstn 3 (shape (get_fdata fi))) (shape (get_fdata mi))));
    [discriminate|].
  cbn [rbind] in Hinit. injection Hinit as <-. repeat split.
Qed.

Lemma Dataset_init_object_witness :
  exists ds,
    Dataset_init sample_files "func.nii" "mask.nii" "out" 2 = Ok ds /\
    wf_dataset ds /\
    data ds = mknd [3; 1; 1; 2]%nat [0; 2; 2; 0; 0; 0] /\
    mask ds = mknd [3; 1; 1]%nat [1; 1; 0] /\
    carpet ds = None /\ PCs ds = None.
Proof.
  eexists. split; [reflexivity|].
  destruct (Dataset_init_object sample_files "func.nii" "mask.nii" "out" 2
              (mknifti (mknd [3; 1; 1; 2]%nat [0; 2; 2; 0; 0; 0]) "" [])
              (mknifti (mknd [3; 1; 1]%nat [1; 1; 0]) "" [])
              _ eq_refl eq_refl eq_refl eq_refl eq_refl)
    as (Hwf & Hd & Hm & _ & _ & _ & _ & _ & _ & Hc & _ & _ & HP & _).
  repeat split; assumption.
Defined.

(** ** [get_carpet]: when it returns, how it fails, what it changes *)

(** X10.  On a constructed object [get_carpet] returns normally exactly
    when the volume has at least one timepoint, at least one voxel is
    excluded by the mask or the threshold, and either no threshold is given
    or no spatial axis has length one. *)
Theorem get_carpet_returns_iff (th : option R) (reorder save : bool) (w : World) :
  wf_dataset (self w) ->
  ((exists w', get_carpet th reorder save w = (w', Ok tt)) <->
   (1 <= t (self w))%nat /\
   (exists v, (v < nvox (self w))%nat /\ ~ retained (self w) th v) /\
   (th = None \/ (x (self w) <> 1 /\ y (self w) <> 1 /\ z (self w) <> 1)%nat)).
Proof.
  intros Hwf. split.
  - intros [w' Hrun].
    destruct (get_carpet_ok_pre th reorder save w w' Hwf Hrun)
      as (_ & Ht & (v & Hv & Hex) & Hsq).
    split; [assumption|]. split; [|assumption].
    exists v. split; [assumption|].
    rewrite <- retainedb_true_iff. congruence.
  - intros (Ht & (v & Hv & Hex) & Hsq). eexists. apply get_carpet_run.
    repeat split; try assumption; try (destruct Hwf as (? & ? & ? & ?); assumption).
    exists v. split; [assumption|].
    apply not_true_is_false. now rewrite retainedb_true_iff.
Qed.

Lemma get_carpet_returns_iff_witness :
  (exists w', get_carpet None true true (mkWorld tie_dataset []) = (w', Ok tt)) <->
  (1 <= t tie_dataset)%nat /\
  (exists v, (v < nvox tie_dataset)%nat /\ ~ retained tie_dataset None v) /\
  (@None R = None \/ (x tie_dataset <> 1 /\ y tie_dataset <> 1 /\ z tie_dataset <> 1)%nat).
Proof.
  apply (get_carpet_returns_iff None true true (mkWorld tie_dataset [])).
  repeat split; reflexivity.
Defined.

(** X11.  With a threshold, a volume with a spatial axis of length one
    makes [get_carpet] raise [IndexError] (the squeezed quality map has too
    few axes), whatever the data, and leaves the object and the output
    directory untouched. *)
Theorem get_carpet_thin_volume_raises (th : R) (reorder save : bool) (w : World) :
  wf_dataset (self w) ->
  (x (self w) = 1 \/ y (self w) = 1 \/ z (self w) = 1)%nat ->
  get_carpet (Some th) reorder save w
  = (w, Raise (IndexError "too many indices for array")).
Proof.
  intros Hwf H1. apply get_carpet_raise, data_2d_raise. unfold data_2d.
  rewrite tsnr_mask_4d_singleton by (assumption || tauto). reflexivity.
Qed.

Lemma get_carpet_thin_volume_raises_witness :
  get_carpet (Some 15) true true (mkWorld tie_dataset [])
  = (mkWorld tie_dataset [], Raise (IndexError "too many indices for array")).
Proof.
  apply (get_carpet_thin_volume_raises 15 true true (mkWorld tie_dataset [])).
  - repeat split; reflexivity.
  - right. left. reflexivity.
Defined.

Lemma tsnr_mask_4d_ok (ds : Dataset) (th : option R) :
  wf_dataset ds ->
  (th = None \/ (x ds <> 1 /\ y ds <> 1 /\ z ds <> 1)%nat) ->
  exists tm, tsnr_mask_4d ds th = Ok tm.
Proof.
  intros (Hd & _) Hsq. destruct th as [th|]; [|now eexists].
  destruct Hsq as [Hsq|(Hx & Hy & Hz)]; [discriminate|].
  unfold tsnr_mask_4d. rewrite Hd.
  cbn [removelast app squeeze_shape filter].
  destruct (Nat.eqb_spec (x ds) 1) as [|_]; [contradiction|].
  destruct (Nat.eqb_spec (y ds) 1) as [|_]; [contradiction|].
  destruct (Nat.eqb_spec (z ds) 1) as [|_]; [contradiction|].
  cbn [negb length Nat.eqb Nat.ltb Nat.leb]. now eexists.
Qed.

(** X12.  A volume with no timepoints (T = 0) makes [get_carpet] raise
    [ValueError] at the reshape to (-1, T), and leaves the object and the
    output directory untouched. *)
Theorem get_carpet_no_timepoints (th : option R) (reorder save : bool) (w : World) :
  wf_dataset (self w) ->
  (th = None \/ (x (self w) <> 1 /\ y (self w) <> 1 /\ z (self w) <> 1)%nat) ->
  t (self w) = 0%nat ->
  get_carpet th reorder save w
  = (w, Raise (ValueError "cannot reshape array of size 0 into shape (0)")).
Proof.
  intros Hwf Hsq Ht. apply get_carpet_raise, data_2d_raise. unfold data_2d.
  destruct (tsnr_mask_4d_ok (self w) th Hwf Hsq) as [tm Htm].
  rewrite Htm, Ht. reflexivity.
Qed.

Lemma get_carpet_no_timepoints_witness :
  get_carpet None true true (mkWorld (sample_dataset 2 1 1 0 [] [1; 0]) [])
  = (mkWorld (sample_dataset 2 1 1 0 [] [1; 0]) [],
     Raise (ValueError "cannot reshape array of size 0 into shape (0)")).
Proof.
  apply (get_carpet_no_timepoints None true true
           (mkWorld (sample_dataset 2 1 1 0 [] [1; 0]) [])).
  - repeat split; reflexivity.
  - now left.
  - reflexivity.
Defined.

(** X13.  When no voxel at all is excluded (every mask value is >= 0.5
    and, under a threshold, every quality is >= the threshold),
    [get_carpet] raises [AxisError]: the masked array then carries no mask
    array and [np.any(..., axis=1)] is applied to a scalar.  The object and
    the output directory are left untouched. *)
Theorem get_carpet_full_mask_raises (th : option R) (reorder save : bool) (w : World) :
  wf_dataset (self w) -> (1 <= t (self w))%nat ->
  (th = None \/ (x (self w) <> 1 /\ y (self w) <> 1 /\ z (self w) <> 1)%nat) ->
  (forall v, (v < nvox (self w))%nat -> retained (self w) th v) ->
  get_carpet th reorder save w
  = (w, Raise (AxisError "axis 1 is out of bounds for array of dimension 0")).
Proof.
  intros Hwf Ht Hsq Hall. apply get_carpet_raise. unfold raw_carpet.
  rewrite data_2d_nothing_excluded; try assumption; [reflexivity|].
  intros v Hv. apply retainedb_true_iff. now apply Hall.
Qed.

Lemma full_mask_retained (v : nat) :
  (v < nvox full_mask_dataset)%nat -> retained full_mask_dataset None v.
Proof.
  intros Hv. unfold retained, mask_value. split; [|exact I].
  cbn in Hv.
  do 8 (destruct v as [|v]; [cbn; lra|]). lia.
Qed.

Lemma get_carpet_full_mask_raises_witness :
  get_carpet None true true (mkWorld full_mask_dataset [])
  = (mkWorld full_mask_dataset [],
     Raise (AxisError "axis 1 is out of bounds for array of dimension 0")).
Proof.
  apply (get_carpet_full_mask_raises None true true (mkWorld full_mask_dataset [])).
  - repeat split; reflexivity.
  - cbn. lia.
  - now left.
  - exact full_mask_retained.
Defined.

(** ** [get_carpet]: the carpet it stores *)

Lemma length_zscore_row (r : list float64) : length (zscore_row r) = length r.
Proof. unfold zscore_row. apply length_map. Qed.

Lemma normalized_carpet_wf2 (ds : Dataset) (th : option R) :
  wf_dataset ds -> (1 <= t ds)%nat -> wf2 (normalized_carpet ds th).
Proof.
  intros Hwf Ht. unfold wf2, normalized_carpet, retained_indices. cbn [rows ncol].
  apply Forall_forall. intros r Hr. apply in_map_iff in Hr.
  destruct Hr as (v & <- & Hv). apply filter_In in Hv. destruct Hv as [Hv _].
  apply in_seq in Hv. rewrite length_zscore_row, length_map.
  apply (voxel_series_nonempty ds v); (assumption || lia).
Qed.

(** X14.  Whenever [get_carpet] returns, the retained index sequence is
    the increasing list of the flattened positions of the voxels inside the
    mask (and at or above the threshold); the stored carpet is a
    rectangular array with one row per index and T columns; without
    reordering row k is the z-score of the series of the k-th index, and
    with reordering the rows are a rearrangement of those. *)
Theorem get_carpet_rows_follow_indices (th : option R) (reorder save : bool) (w : World) :
  carpet_pre (self w) th ->
  exists idx w' c,
    indices_valid (self w) th = Ok idx /\
    get_carpet th reorder save w = (w', Ok tt) /\
    carpet (self w') = Some c /\
    StronglySorted lt idx /\
    (forall v, In v idx <-> (v < nvox (self w))%nat /\ retained (self w) th v) /\
    wf2 c /\ ncol c = t (self w) /\ nrow c = length idx /\
    (reorder = false ->
     rows c = map (fun v => zscore_row (map Fin (voxel_series (self w) v))) idx) /\
    (reorder = true ->
     Permutation (rows c)
       (map (fun v => zscore_row (map Fin (voxel_series (self w) v))) idx)).
Proof.
  intros Hpre.
  exists (retained_indices (self w) th). do 2 eexists.
  split; [now apply indices_valid_spec|].
  split; [now apply get_carpet_run|].
  cbn [self carpet set_carpet]. split; [reflexivity|].
  split; [apply filter_seq_sorted|].
  split.
  { intros v. unfold retained_indices. rewrite filter_In, in_seq, retainedb_true_iff.
    intuition lia. }
  pose proof Hpre as (Hwf & Ht & _).
  pose proof (normalized_carpet_wf2 (self w) th Hwf Ht) as Hn.
  unfold final_carpet. destruct reorder.
  - split.
    { unfold wf2. cbn [reordered ncol].
      apply (Permutation_Forall (Permutation_sym (reordered_perm _))). exact Hn. }
    split; [reflexivity|].
    split.
    { unfold nrow. rewrite (Permutation_length (reordered_perm _)).
      unfold normalized_carpet. cbn [rows]. apply length_map. }
    split; [discriminate|]. intros _. apply reordered_perm.
  - split; [exact Hn|]. split; [reflexivity|].
    split; [unfold nrow, normalized_carpet; cbn [rows]; apply length_map|].
    split; [reflexivity|discriminate].
Qed.

Lemma get_carpet_rows_follow_indices_witness :
  exists idx w' c,
    indices_valid tie_dataset None = Ok idx /\
    get_carpet None false true (mkWorld tie_dataset []) = (w', Ok tt) /\
    carpet (self w') = Some c /\
    rows c = map (fun v => zscore_row (map Fin (voxel_series tie_dataset v))) idx.
Proof.
  destruct (get_carpet_rows_follow_indices None false true (mkWorld tie_dataset []) tie_pre)
    as (idx & w' & c & Hi & Hrun & Hc & _ & _ & _ & _ & _ & Hrows & _).
  exists idx, w', c. repeat split; try assumption. now apply Hrows.
Defined.

(** X15.  What a call of [get_carpet] changes.  When it returns, the
    object differs from the one before only in its [carpet] attribute, and
    the output directory gains exactly one file, [carpet.npy], holding that
    carpet, if [save] is set and nothing otherwise.  When it raises, the
    object and the output directory are as before. *)
Theorem get_carpet_frame (th : option R) (reorder save : bool) (w w' : World)
    (res : result unit) :
  get_carpet th reorder save w = (w', res) ->
  match res with
  | Ok _ =>
      exists c,
        self w' = set_carpet c (self w) /\
        disk w' = (if save then [("carpet.npy"%string, NpyArray c)] else []) ++ disk w
  | Raise _ => w' = w
  end.
Proof.
  unfold get_carpet, bind, get_self, lift.
  destruct (raw_carpet (self w) th) as [raw|e].
  2:{ intros H. injection H as <- <-. reflexivity. }
  destruct reorder.
  - destruct (reorder_carpet (t (self w)) _) as [c|e].
    + destruct save; intros H; injection H as <- <-; eexists; split; reflexivity.
    + intros H. injection H as <- <-. reflexivity.
  - destruct save; intros H; injection H as <- <-; eexists; split; reflexivity.
Qed.

Lemma get_carpet_frame_witness :
  exists c,
    self (fst (get_carpet None true true (mkWorld tie_dataset [])))
    = set_carpet c tie_dataset /\
    disk (fst (get_carpet None true true (mkWorld tie_dataset [])))
    = [("carpet.npy"%string, NpyArray c)].
Proof.
  pose proof (get_carpet_frame None true true (mkWorld tie_dataset [])
                (fst (get_carpet None true true (mkWorld tie_dataset [])))
                (snd (get_carpet None true true (mkWorld tie_dataset [])))
                (surjective_pairing _)) as H.
  rewrite (get_carpet_run None true true (mkWorld tie_dataset []) tie_pre) in H.
  rewrite (get_carpet_run None true true (mkWorld tie_dataset []) tie_pre).
  cbn [snd fst] in *. exact H.
Defined.

Lemma retainedb_threshold_mono (ds : Dataset) (th1 th2 : R) (v : nat) :
  th1 <= th2 -> retainedb ds (Some th2) v = true -> retainedb ds (Some th1) v = true.
Proof.
  intros Hle. rewrite !retainedb_true_iff. unfold retained.
  intros [Hm Hq]. split; [assumption|lra].
Qed.

Lemma retainedb_threshold_none (ds : Dataset) (th : R) (v : nat) :
  retainedb ds (Some th) v = true -> retainedb ds None v = true.
Proof.
  rewrite !retainedb_true_iff. unfold retained. intros [Hm _]. now split.
Qed.

Lemma filter_length_mono {A : Type} (f g : A -> bool) (l : list A) :
  (forall a, f a = true -> g a = true) ->
  (length (filter f l) <= length (filter g l))%nat.
Proof.
  intros Hfg. induction l as [|a l IH]; [cbn; lia|].
  cbn [filter]. destruct (f a) eqn:Ef.
  - rewrite (Hfg a Ef). cbn [length]. lia.
  - destruct (g a); cbn [length]; lia.
Qed.

Lemma filter_incl_mono {A : Type} (f g : A -> bool) (l : list A) :
  (forall a, f a = true -> g a = true) -> incl (filter f l) (filter g l).
Proof.
  intros Hfg a Ha. apply filter_In in Ha. destruct Ha as [Hin Hf].
  apply filter_In. split; [assumption|now apply Hfg].
Qed.

(** X16.  Raising the quality threshold never adds a voxel: if
    [get_carpet] gets as far as the index sequence at a threshold, it does
    so at every higher threshold, and the indices retained there are among
    those retained at the lower one, and no more numerous.  The indices
    retained under any threshold are among those retained without one. *)
Theorem get_carpet_threshold_monotone (ds : Dataset) (th1 th2 : R) :
  carpet_pre ds (Some th1) -> th1 <= th2 ->
  exists i1 i2,
    indices_valid ds (Some th1) = Ok i1 /\
    indices_valid ds (Some th2) = Ok i2 /\
    incl i2 i1 /\ (length i2 <= length i1)%nat /\
    (forall i0, indices_valid ds None = Ok i0 -> incl i1 i0).
Proof.
  intros Hpre Hle.
  assert (Hpre2 : carpet_pre ds (Some th2)).
  { destruct Hpre as (Hwf & Ht & (v & Hv & Hex) & Hsq).
    repeat split; try assumption; try (destruct Hwf as (? & ? & ? & ?); assumption).
    - exists v. split; [assumption|].
      destruct (retainedb ds (Some th2) v) eqn:E; [|reflexivity].
      apply (retainedb_threshold_mono ds th1 th2 v Hle) in E. congruence.
    - destruct Hsq as [Hsq|Hsq]; [discriminate|]. now right. }
  exists (filter (retainedb ds (Some th1)) (seq 0 (nvox ds))),
         (filter (retainedb ds (Some th2)) (seq 0 (nvox ds))).
  split; [now apply indices_valid_spec|].
  split; [now apply indices_valid_spec|].
  split; [apply filter_incl_mono; intros v; now apply retainedb_threshold_mono|].
  split; [apply filter_length_mono; intros v; now apply retainedb_threshold_mono|].
  intros i0 H0.
  assert (Hpre0 : carpet_pre ds None).
  { destruct Hpre as (Hwf & Ht & _ & _).
    repeat split; try assumption; try (destruct Hwf as (? & ? & ? & ?); assumption);
      [|now left].
    destruct (forallb (retainedb ds None) (seq 0 (nvox ds))) eqn:Eall.
    - exfalso. rewrite forallb_forall in Eall.
      unfold indices_valid in H0.
      rewrite data_2d_nothing_excluded in H0; try assumption; try (now left).
      + discriminate.
      + intros v Hv. apply Eall, in_seq. lia.
    - apply not_true_iff_false in Eall.
      destruct (existsb (fun v => negb (retainedb ds None v)) (seq 0 (nvox ds))) eqn:Eex.
      + apply existsb_exists in Eex. destruct Eex as (v & Hv & Hn).
        exists v. apply in_seq in Hv. split; [lia|].
        now apply negb_true_iff.
      + exfalso. apply Eall. apply forallb_forall. intros v Hv.
        destruct (retainedb ds None v) eqn:E; [reflexivity|].
        assert (Hex : existsb (fun v => negb (retainedb ds None v)) (seq 0 (nvox ds)) = true).
        { apply existsb_exists. exists v. split; [assumption|]. now rewrite E. }
        congruence. }
  rewrite indices_valid_spec in H0 by assumption. injection H0 as <-.
  apply filter_incl_mono. intros v. apply retainedb_threshold_none.
Qed.

Lemma full_mask_threshold_pre : carpet_pre full_mask_dataset (Some 1.8).
Proof.
  repeat split; try reflexivity.
  - cbn. lia.
  - exists 0%nat. split; [cbn; lia|].
    unfold retainedb, mask_value.
    change (voxel_series full_mask_dataset 0) with [0; 2].
    unfold quality. rewrite Rmean_pair, Rstd_pair by (right; lra).
    destruct (Rle_dec 1.8 ((0 + 2) / 2 / (1 + EPSILON))) as [H|_];
      [|apply andb_false_r].
    exfalso. pose proof EPSILON_pos as He.
    assert (Hq : (0 + 2) / 2 / (1 + EPSILON) * (1 + EPSILON) = 1) by (field; lra).
    nra.
  - right. cbn. repeat split; discriminate.
Qed.

Lemma get_carpet_threshold_monotone_witness :
  exists i1 i2,
    indices_valid full_mask_dataset (Some 1.8) = Ok i1 /\
    indices_valid full_mask_dataset (Some 3) = Ok i2 /\
    incl i2 i1 /\ (length i2 <= length i1)%nat.
Proof.
  destruct (get_carpet_threshold_monotone full_mask_dataset 1.8 3
              full_mask_threshold_pre ltac:(lra))
    as (i1 & i2 & H1 & H2 & H3 & H4 & _).
  exists i1, i2. repeat split; assumption.
Defined.

(** X17.  The carpet [get_carpet] stores is a function of the volume, the
    mask, the four dimensions and the arguments alone: two objects that
    agree on these get the same carpet, whatever their file names, their
    earlier carpet or their component tables, and whatever the output
    directory holds.  In particular a second call overwrites the carpet of
    the first with a value that does not depend on it. *)
Theorem get_carpet_depends_on_volume (th : option R) (reorder save : bool) (w1 w2 : World) :
  data (self w1) = data (self w2) -> mask (self w1) = mask (self w2) ->
  x (self w1) = x (self w2) -> y (self w1) = y (self w2) ->
  z (self w1) = z (self w2) -> t (self w1) = t (self w2) ->
  carpet_pre (self w1) th ->
  exists w1' w2' c,
    get_carpet th reorder save w1 = (w1', Ok tt) /\
    get_carpet th reorder save w2 = (w2', Ok tt) /\
    carpet (self w1') = Some c /\ carpet (self w2') = Some c.
Proof.
  destruct w1 as [ds1 d1], w2 as [ds2 d2]. cbn [self].
  destruct ds1, ds2. cbn [data mask x y z t].
  intros -> -> -> -> -> -> Hpre.
  do 3 eexists.
  split; [apply get_carpet_run; exact Hpre|].
  split; [apply get_carpet_run; exact Hpre|].
  cbn [self carpet set_carpet]. split; reflexivity.
Qed.

Lemma get_carpet_depends_on_volume_witness :
  exists w1' w2' c,
    get_carpet None true false (mkWorld tie_dataset []) = (w1', Ok tt) /\
    get_carpet None true false tie_world = (w2', Ok tt) /\
    carpet (self w1') = Some c /\ carpet (self w2') = Some c.
Proof.
  apply (get_carpet_depends_on_volume None true false (mkWorld tie_dataset []) tie_world);
    try reflexivity.
  exact tie_pre.
Defined.







Lemma map_const_repeat {A B : Type} (b : B) (l : list A) :
  map (fun _ => b) l = repeat b (length l).
Proof. induction l as [|a l IH]; [reflexivity|]. cbn. now rewrite IH. Qed.

Lemma nth_repeat_NaN (n k : nat) : nth k (repeat NaN n) NaN = NaN.
Proof.
  revert k. induction n as [|n IH]; intros [|k]; cbn; try reflexivity. apply IH.
Qed.

(** X19.  One retained voxel that is constant in time spoils the
    reordering keys: its z-scored row is NaN, so the global signal is NaN
    at every timepoint and the correlation of every row with it, the key
    the rows are sorted by, is NaN. *)
Theorem get_carpet_constant_voxel_keys (ds : Dataset) (th : option R) (v0 : nat) :
  carpet_pre ds th ->
  (v0 < nvox ds)%nat -> retained ds th v0 -> Rstd (voxel_series ds v0) = 0 ->
  exists raw,
    raw_carpet ds th = Ok raw /\
    global_signal (zscore (mk2 (t ds) (map (map Fin) raw))) = repeat NaN (t ds) /\
    gs_corr (t ds) (zscore (mk2 (t ds) (map (map Fin) raw)))
    = Ok (repeat NaN (length raw)).
Proof.
  intros Hpre Hv0 Hret Hstd. eexists. split; [now apply raw_carpet_spec|].
  pose proof Hpre as (Hwf & Ht & _).
  destruct (voxel_series_nonempty ds v0 Hwf Ht Hv0) as [Hlen Hne].
  set (idx := filter (retainedb ds th) (seq 0 (nvox ds))).
  set (c := zscore (mk2 (t ds) (map (map Fin) (map (voxel_series ds) idx)))).
  assert (Hin : In (repeat NaN (t ds)) (rows c)).
  { unfold c, zscore. cbn [rows]. rewrite !map_map. apply in_map_iff.
    exists v0. split.
    - rewrite zscore_row_NaN by assumption. now rewrite Hlen.
    - unfold idx. apply filter_In. split; [apply in_seq; lia|].
      now apply retainedb_true_iff. }
  assert (Hgs : global_signal c = repeat NaN (t ds)).
  { transitivity (map (fun _ : nat => NaN) (seq 0 (t ds))).
    - unfold global_signal, transpose. cbn [rows]. rewrite map_map.
      apply map_ext. intros k. apply fmean_NaN. apply in_map_iff.
      exists (repeat NaN (t ds)). split; [apply nth_repeat_NaN|exact Hin].
    - now rewrite map_const_repeat, length_seq. }
  split; [exact Hgs|].
  rewrite gs_corr_spec by reflexivity. f_equal.
  replace (length (map (voxel_series ds) idx)) with (length (rows c))
    by (unfold c, zscore; cbn [rows]; now rewrite !length_map).
  rewrite <- map_const_repeat. apply map_ext. intros r.
  unfold corr_gs. rewrite Hgs. apply row_corr_NaN_r.
  destruct (t ds) as [|n]; [lia|]. now left.
Qed.

Lemma Rstd_constant_pair (a : R) : Rstd [a; a] = 0.
Proof.
  unfold Rstd, center, sumsq. rewrite Rmean_pair.
  cbn [map Rsum fold_right length].
  replace ((a - (a + a) / 2) * (a - (a + a) / 2)
           + ((a - (a + a) / 2) * (a - (a + a) / 2) + 0)) with 0 by field.
  unfold Rdiv. rewrite Rmult_0_l. apply sqrt_0.
Qed.

Lemma get_carpet_constant_voxel_keys_witness :
  exists raw,
    raw_carpet constant_voxel_dataset None = Ok raw /\
    global_signal (zscore (mk2 2 (map (map Fin) raw))) = repeat NaN 2 /\
    gs_corr 2 (zscore (mk2 2 (map (map Fin) raw))) = Ok (repeat NaN (length raw)).
Proof.
  apply (get_carpet_constant_voxel_keys constant_voxel_dataset None 1 constant_voxel_pre).
  - cbn. lia.
  - unfold retained, mask_value. cbn. split; [lra|exact I].
  - change (voxel_series constant_voxel_dataset 1) with [5; 5].
    apply Rstd_constant_pair.
Defined.

(** ** [fit_pca_and_correlate]: failures before the decomposition *)

Lemma try_set_ncomp_run (int_of_str : string -> option Z) (ncomp : pyobj) (w : World) :
  try_set_ncomp int_of_str ncomp w
  = (mkWorld (after_int int_of_str ncomp (self w)) (disk w), Ok tt).
Proof.
  unfold try_set_ncomp, after_int. destruct w as [ds d].
  destruct ncomp as [n|s]; cbn [py_int]; [reflexivity|].
  destruct (int_of_str s); reflexivity.
Qed.

Lemma carpet_after_int (int_of_str : string -> option Z) (ncomp : pyobj) (ds : Dataset) :
  carpet (after_int int_of_str ncomp ds) = carpet ds.
Proof. unfold after_int. destruct (py_int int_of_str ncomp); reflexivity. Qed.

Lemma fit_no_carpet (PCA_fit_transform : list (list R) -> PCA_model)
    (int_of_str : string -> option Z) (ncomp : pyobj) (save_pca_scores flip_sign : bool)
    (w : World) :
  carpet (self w) = None ->
  fit_pca_and_correlate PCA_fit_transform int_of_str ncomp save_pca_scores flip_sign w
  = (mkWorld (after_int int_of_str ncomp (self w)) (disk w),
     Raise (AttributeError "'Dataset' object has no attribute 'carpet'")).
Proof.
  intros Hc. unfold fit_pca_and_correlate.
  unfold bind at 1. rewrite try_set_ncomp_run.
  unfold bind at 1. unfold get_self. cbn [self].
  unfold bind at 1. unfold lift at 1.
  rewrite carpet_after_int, Hc. reflexivity.
Qed.

Lemma fit_check_raise (PCA_fit_transform : list (list R) -> PCA_model)
    (int_of_str : string -> option Z) (ncomp : pyobj) (save_pca_scores flip_sign : bool)
    (w : World) (c : array2) (e : exn) :
  carpet (self w) = Some c -> check_array c = Raise e ->
  fit_pca_and_correlate PCA_fit_transform int_of_str ncomp save_pca_scores flip_sign w
  = (mkWorld (after_int int_of_str ncomp (self w)) (disk w), Raise e).
Proof.
  intros Hc He. unfold fit_pca_and_correlate.
  unfold bind at 1. rewrite try_set_ncomp_run.
  unfold bind at 1. unfold get_self. cbn [self].
  unfold bind at 1. unfold lift at 1.
  rewrite carpet_after_int, Hc.
  unfold bind at 1. unfold lift at 1. rewrite He. reflexivity.
Qed.

(** X20.  Called on an object that has no carpet yet (before any
    [get_carpet]), [fit_pca_and_correlate] raises [AttributeError]; by
    then it has stored [ncomp] (for an int), and it has written no file
    and changed nothing else. *)
Theorem fit_before_get_carpet (PCA_fit_transform : list (list R) -> PCA_model)
    (int_of_str : string -> option Z) (ncomp : pyobj) (save_pca_scores flip_sign : bool)
    (w : World) :
  carpet (self w) = None ->
  exists w',
    fit_pca_and_correlate PCA_fit_transform int_of_str ncomp save_pca_scores flip_sign w
    = (w', Raise (AttributeError "'Dataset' object has no attribute 'carpet'")) /\
    disk w' = disk w /\
    (forall n, ncomp = PyInt n -> self w' = set_ncomp n (self w)) /\
    (forall s, ncomp = PyStr s -> int_of_str s = None -> self w' = self w).
Proof.
  intros Hc. eexists. split; [now apply fit_no_carpet|].
  cbn [self disk]. split; [reflexivity|]. split.
  - intros n ->. reflexivity.
  - intros s -> Hs. unfold after_int. cbn [py_int]. now rewrite Hs.
Qed.

Lemma fit_before_get_carpet_witness :
  exists w',
    fit_pca_and_correlate toy_PCA no_int_of_str (PyInt 5) false true (mkWorld tie_dataset [])
    = (w', Raise (AttributeError "'Dataset' object has no attribute 'carpet'")) /\
    disk w' = [] /\ self w' = set_ncomp 5 tie_dataset.
Proof.
  destruct (fit_before_get_carpet toy_PCA no_int_of_str (PyInt 5) false true
              (mkWorld tie_dataset []) eq_refl) as (w' & Hrun & Hd & Hn & _).
  exists w'. repeat split; [exact Hrun|exact Hd|now apply Hn].
Defined.

Lemma reals_of_NaN (r : list float64) : In NaN r -> reals_of r = None.
Proof.
  induction r as [|a r IH]; [intros []|].
  intros [->|H]; [reflexivity|].
  destruct a as [u|]; [|reflexivity]. cbn [reals_of]. now rewrite IH.
Qed.

Lemma reals_of_rows_NaN (l : list (list float64)) (r : list float64) :
  In r l -> In NaN r -> reals_of_rows l = None.
Proof.
  intros Hr Hn. induction l as [|r0 l IH]; [destruct Hr|].
  cbn [reals_of_rows]. destruct Hr as [->|Hr].
  - now rewrite reals_of_NaN.
  - rewrite IH by assumption. now destruct (reals_of r0).
Qed.

(** X21.  A retained voxel that is constant in time is not noticed by
    [get_carpet], which returns; it makes the next
    [fit_pca_and_correlate] fail: the carpet holds a row of NaN and the
    decomposition refuses it with [ValueError], before any file is
    written. *)
Theorem fit_after_constant_voxel (PCA_fit_transform : list (list R) -> PCA_model)
    (int_of_str : string -> option Z) (th : option R) (reorder save : bool)
    (ncomp : pyobj) (save_pca_scores flip_sign : bool) (w w1 : World) (v0 : nat) :
  wf_dataset (self w) ->
  get_carpet th reorder save w = (w1, Ok tt) ->
  (v0 < nvox (self w))%nat -> retained (self w) th v0 ->
  Rstd (voxel_series (self w) v0) = 0 ->
  exists w2,
    fit_pca_and_correlate PCA_fit_transform int_of_str ncomp save_pca_scores flip_sign w1
    = (w2, Raise (ValueError "Input contains NaN")) /\
    disk w2 = disk w1.
Proof.
  intros Hwf Hrun Hv0 Hret Hstd.
  pose proof (get_carpet_ok_pre th reorder save w w1 Hwf Hrun) as Hpre.
  rewrite get_carpet_run in Hrun by assumption. injection Hrun as <-.
  pose proof Hpre as (_ & Ht & _).
  destruct (voxel_series_nonempty (self w) v0 Hwf Ht Hv0) as [Hlen Hne].
  assert (Hchk : check_array (final_carpet (self w) th reorder)
                 = Raise (ValueError "Input contains NaN")).
  { unfold check_array.
    rewrite (reals_of_rows_NaN _ (repeat NaN (t (self w)))); [reflexivity| |].
    - assert (Hin : In (repeat NaN (t (self w))) (rows (normalized_carpet (self w) th))).
      { unfold normalized_carpet. cbn [rows]. apply in_map_iff. exists v0. split.
        - rewrite zscore_row_NaN by assumption. now rewrite Hlen.
        - unfold retained_indices. apply filter_In. split; [apply in_seq; lia|].
          now apply retainedb_true_iff. }
      unfold final_carpet. destruct reorder; [|exact Hin].
      apply (Permutation_in _ (Permutation_sym (reordered_perm _))). exact Hin.
    - destruct (t (self w)) as [|n]; [lia|]. now left. }
  eexists. split.
  - apply (fit_check_raise _ _ _ _ _ _ (final_carpet (self w) th reorder));
      [reflexivity|exact Hchk].
  - reflexivity.
Qed.

Lemma fit_after_constant_voxel_witness :
  exists w2,
    fit_pca_and_correlate toy_PCA no_int_of_str (PyInt 1) false true
      (fst (get_carpet None true true (mkWorld constant_voxel_dataset [])))
    = (w2, Raise (ValueError "Input contains NaN")) /\
    disk w2 = disk (fst (get_carpet None true true (mkWorld constant_voxel_dataset []))).
Proof.
  apply (fit_after_constant_voxel toy_PCA no_int_of_str None true true (PyInt 1) false true
           (mkWorld constant_voxel_dataset []) _ 1).
  - repeat split; reflexivity.
  - rewrite (get_carpet_run None true true (mkWorld constant_voxel_dataset [])
               constant_voxel_pre). reflexivity.
  - cbn. lia.
  - unfold retained, mask_value. cbn. split; [lra|exact I].
  - change (voxel_series constant_voxel_dataset 1) with [5; 5].
    apply Rstd_constant_pair.
Defined.

(** X22.  When the mask and the threshold exclude every voxel,
    [get_carpet] returns with an empty carpet and the failure comes from
    the next [fit_pca_and_correlate]: the decomposition refuses an array
    with no rows with [ValueError], before any file is written. *)
Theorem fit_after_all_excluded (PCA_fit_transform : list (list R) -> PCA_model)
    (int_of_str : string -> option Z) (th : option R) (reorder save : bool)
    (ncomp : pyobj) (save_pca_scores flip_sign : bool) (w w1 : World) :
  wf_dataset (self w) ->
  get_carpet th reorder save w = (w1, Ok tt) ->
  (forall v, (v < nvox (self w))%nat -> ~ retained (self w) th v) ->
  exists w2,
    fit_pca_and_correlate PCA_fit_transform int_of_str ncomp save_pca_scores flip_sign w1
    = (w2, Raise (ValueError "Found array with 0 sample(s)")) /\
    disk w2 = disk w1.
Proof.
  intros Hwf Hrun Hall.
  pose proof (get_carpet_ok_pre th reorder save w w1 Hwf Hrun) as Hpre.
  rewrite get_carpet_run in Hrun by assumption. injection Hrun as <-.
  assert (Hn : normalized_carpet (self w) th = mk2 (t (self w)) []).
  { unfold normalized_carpet, retained_indices. rewrite filter_none; [reflexivity|].
    intros v Hv. apply in_seq in Hv. apply not_true_is_false.
    rewrite retainedb_true_iff. apply Hall. lia. }
  assert (Hchk : check_array (final_carpet (self w) th reorder)
                 = Raise (ValueError "Found array with 0 sample(s)")).
  { unfold final_carpet. rewrite Hn. destruct reorder; reflexivity. }
  eexists. split.
  - apply (fit_check_raise _ _ _ _ _ _ (final_carpet (self w) th reorder));
      [reflexivity|exact Hchk].
  - reflexivity.
Qed.

Lemma fit_after_all_excluded_witness :
  exists w2,
    fit_pca_and_correlate toy_PCA no_int_of_str (PyInt 1) false true
      (fst (get_carpet None true true (mkWorld empty_mask_dataset [])))
    = (w2, Raise (ValueError "Found array with 0 sample(s)")) /\
    disk w2 = disk (fst (get_carpet None true true (mkWorld empty_mask_dataset []))).
Proof.
  apply (fit_after_all_excluded toy_PCA no_int_of_str None true true (PyInt 1) false true
           (mkWorld empty_mask_dataset [])).
  - repeat split; reflexivity.
  - rewrite (get_carpet_run None true true (mkWorld empty_mask_dataset []) empty_mask_pre).
    reflexivity.
  - intros v Hv Hr. apply retainedb_true_iff in Hr.
    change (retainedb empty_mask_dataset None v = true) in Hr.
    rewrite (empty_mask_excluded v Hv) in Hr. discriminate.
Defined.

(** ** [fit_pca_and_correlate]: what it leaves alone *)

Lemma same_inputs_refl (ds : Dataset) : same_inputs ds ds.
Proof. repeat split. Qed.

Lemma same_inputs_trans (a b c : Dataset) :
  same_inputs a b -> same_inputs b c -> same_inputs a c.
Proof. unfold same_inputs. intros H1 H2. intuition congruence. Qed.

Lemma keeps_ret {A : Type} (names : list string) (a : A) : keeps names (ret a).
Proof.
  intros w w' r H. injection H as <- <-.
  split; [apply same_inputs_refl|]. exists []. now split.
Qed.

Lemma keeps_lift {A : Type} (names : list string) (r : result A) : keeps names (lift r).
Proof.
  intros w w' r' H. injection H as <- <-.
  split; [apply same_inputs_refl|]. exists []. now split.
Qed.

Lemma keeps_get_self (names : list string) : keeps names get_self.
Proof.
  intros w w' r H. injection H as <- <-.
  split; [apply same_inputs_refl|]. exists []. now split.
Qed.

Lemma keeps_update_self (names : list string) (f : Dataset -> Dataset) :
  (forall ds, same_inputs ds (f ds)) -> keeps names (update_self f).
Proof.
  intros Hf w w' r H. injection H as <- <-. cbn [self disk].
  split; [apply Hf|]. exists []. now split.
Qed.

Lemma keeps_save_file (names : list string) (name : string) (a : artifact) :
  In name names -> keeps names (save_file name a).
Proof.
  intros Hn w w' r H. injection H as <- <-. cbn [self disk].
  split; [apply same_inputs_refl|]. exists [(name, a)].
  split; [reflexivity|]. now constructor.
Qed.

Lemma keeps_bind {A B : Type} (names : list string) (m : M A) (k : A -> M B) :
  keeps names m -> (forall a, keeps names (k a)) -> keeps names (bind m k).
Proof.
  intros Hm Hk w w' r H. unfold bind in H.
  destruct (m w) as [w1 [a|e]] eqn:E.
  - destruct (Hm _ _ _ E) as (Hs1 & new1 & Hd1 & Hn1).
    destruct (Hk a _ _ _ H) as (Hs2 & new2 & Hd2 & Hn2).
    split; [now apply same_inputs_trans with (self w1)|].
    exists (new2 ++ new1). split.
    + now rewrite Hd2, Hd1, app_assoc.
    + apply Forall_app. now split.
  - injection H as <- <-. exact (Hm _ _ _ E).
Qed.

Lemma keeps_try_set_ncomp (names : list string) (int_of_str : string -> option Z)
    (ncomp : pyobj) :
  keeps names (try_set_ncomp int_of_str ncomp).
Proof.
  unfold try_set_ncomp. destruct (py_int int_of_str ncomp) as [n|[]];
    try apply keeps_lift; try apply keeps_ret.
  apply keeps_update_self. intros ds. repeat split.
Qed.

Lemma fit_file_names_in (ncomp : pyobj) (save_pca_scores : bool) (name : string) :
  In name ["pca_components_all.npy"; "pca_explained_variance_all.npy";
           ("pca_components_" ++ py_format ncomp ++ ".csv");
           "pca_carpet_correlation_report.csv"]%string \/
  (save_pca_scores = true /\ name = "pca_scores_all.npy"%string) ->
  In name (fit_file_names ncomp save_pca_scores).
Proof.
  unfold fit_file_names. intros [H|[-> ->]].
  - destruct H as [<-|[<-|[<-|[<-|[]]]]]; destruct save_pca_scores; cbn; tauto.
  - cbn. tauto.
Qed.

(** X23.  Whatever its arguments and whatever it returns or raises,
    [fit_pca_and_correlate] leaves the volume, the mask, the dimensions,
    the paths, TR and the carpet of the object as they were, removes no
    file from the output directory, and adds only files named
    [pca_components_all.npy], [pca_explained_variance_all.npy],
    [pca_components_<ncomp>.csv], [pca_carpet_correlation_report.csv] and,
    with [save_pca_scores], [pca_scores_all.npy]. *)
Theorem fit_frame (PCA_fit_transform : list (list R) -> PCA_model)
    (int_of_str : string -> option Z) (ncomp : pyobj) (save_pca_scores flip_sign : bool)
    (w w' : World) (r : result unit) :
  fit_pca_and_correlate PCA_fit_transform int_of_str ncomp save_pca_scores flip_sign w
  = (w', r) ->
  same_inputs (self w) (self w') /\
  exists new,
    disk w' = new ++ disk w /\
    Forall (fun p => In (fst p) (fit_file_names ncomp save_pca_scores)) new.
Proof.
  revert w w' r.
  change (keeps (fit_file_names ncomp save_pca_scores)
            (fit_pca_and_correlate PCA_fit_transform int_of_str ncomp
                                   save_pca_scores flip_sign)).
  unfold fit_pca_and_correlate, when.
  destruct save_pca_scores;
    repeat (cbv zeta;
            first [ apply keeps_bind; [|intros ?]
                  | apply keeps_try_set_ncomp
                  | apply keeps_get_self
                  | apply keeps_lift
                  | apply keeps_ret
                  | apply keeps_update_self; intros ?; repeat split
                  | apply keeps_save_file; apply fit_file_names_in; cbn; auto 10 ]).
Qed.

Lemma fit_frame_witness :
  same_inputs (self tie_world)
    (self (fst (fit_pca_and_correlate toy_PCA no_int_of_str (PyInt 1) false true tie_world))) /\
  exists new,
    disk (fst (fit_pca_and_correlate toy_PCA no_int_of_str (PyInt 1) false true tie_world))
    = new ++ disk tie_world /\
    Forall (fun p => In (fst p) (fit_file_names (PyInt 1) false)) new.
Proof.
  apply (fit_frame toy_PCA no_int_of_str (PyInt 1) false true tie_world _
           (snd (fit_pca_and_correlate toy_PCA no_int_of_str (PyInt 1) false true tie_world))).
  apply surjective_pairing.
Defined.

(** ** [fit_pca_and_correlate]: the tables it stores *)

Lemma nth_comp_names (n i : nat) :
  (i < n)%nat -> nth i (comp_names n) ""%string = ("PC" ++ str_nat (i + 1))%string.
Proof. intros Hi. unfold comp_names. now rewrite nth_map_seq. Qed.

(** X24.  Without sign flipping, on a finite V x T carpet and an int
    0 <= ncomp <= min(V, T): the stored component table has the ncomp
    distinct labels PC1, PC2, ... in order, column i holding component i
    of the decomposition; the stored correlation matrix is a V x ncomp
    array whose entry (v, i) is the correlation, with [EPSILON] in the
    denominator, of carpet row v with component i, a finite number
    strictly between -1 and 1. *)
Theorem fit_tables (PCA_fit_transform : list (list R) -> PCA_model)
    (int_of_str : string -> option Z)
    (X : list (list R)) (T : nat) (n : Z) (save_pca_scores : bool) (w : World) :
  sklearn_shapes PCA_fit_transform ->
  has_carpet w X T ->
  (0 <= n <= Z.of_nat (Nat.min (length X) T))%Z ->
  exists w' P Rm,
    fit_pca_and_correlate PCA_fit_transform int_of_str (PyInt n) save_pca_scores false w
    = (w', Ok tt) /\
    PCs (self w') = Some P /\ PC_carpet_R (self w') = Some Rm /\
    length P = Z.to_nat n /\ NoDup (map fst P) /\
    wf2 Rm /\ nrow Rm = length X /\ ncol Rm = Z.to_nat n /\
    forall i, (i < Z.to_nat n)%nat ->
      nth i P (""%string, [])
      = (("PC" ++ str_nat (i + 1))%string,
         map Fin (nth i (components_ (PCA_fit_transform X)) [])) /\
      forall v, (v < length X)%nat ->
        entry Rm v i
        = Fin (pearson_eps (nth v X []) (nth i (components_ (PCA_fit_transform X)) [])) /\
        -1 < pearson_eps (nth v X []) (nth i (components_ (PCA_fit_transform X)) []) < 1.
Proof.
  intros Hsh Hcar Hn.
  pose proof Hcar as (_ & HX & _ & _).
  destruct (fit_comps_shape PCA_fit_transform Hsh X T n HX Hn) as (Hlc & Hwc & _).
  set (m := PCA_fit_transform X) in *.
  exists (mkWorld
            (set_PCs (fit_PCs m n) (fit_R m X n)
               (set_expl_var (explained_variance_ratio_ m) (set_ncomp n (self w))))
            (fit_disk m X T n save_pca_scores (disk w))),
         (fit_PCs m n), (fit_R m X n).
  split; [now apply (fit_run _ _ Hsh X T)|].
  cbn [self PCs PC_carpet_R set_PCs].
  split; [reflexivity|]. split; [reflexivity|].
  assert (HlP : length (fit_PCs m n) = Z.to_nat n).
  { unfold fit_PCs. rewrite length_combine, length_comp_names, length_map, Hlc. lia. }
  split; [exact HlP|].
  split.
  { unfold fit_PCs. rewrite map_fst_combine by now rewrite length_comp_names, length_map.
    apply comp_names_NoDup. }
  split.
  { unfold wf2, fit_R. cbn [rows ncol]. apply Forall_map, Forall_forall.
    intros a _. cbn beta. now rewrite length_map. }
  split; [unfold nrow, fit_R; cbn [rows]; apply length_map|].
  split; [unfold fit_R; cbn [ncol]; exact Hlc|].
  intros i Hi.
  assert (Hnth : nth i (fit_comps m n) [] = nth i (components_ m) []).
  { unfold fit_comps. rewrite nth_firstn.
    now replace (i <? Z.to_nat n)%nat with true by (symmetry; apply Nat.ltb_lt; lia). }
  split.
  - unfold fit_PCs. rewrite combine_nth by now rewrite length_comp_names, length_map.
    rewrite nth_comp_names by assumption. f_equal.
    change (@nil float64) with (map Fin (@nil R)).
    rewrite map_nth. now rewrite Hnth.
  - intros v Hv. split; [|apply pearson_eps_bound].
    unfold fit_R. rewrite entry_pearson by (assumption || lia).
    now rewrite Hnth.
Qed.

Lemma fit_tables_witness :
  exists w' P Rm,
    fit_pca_and_correlate toy_PCA no_int_of_str (PyInt 2) false false tie_world
    = (w', Ok tt) /\
    PCs (self w') = Some P /\ PC_carpet_R (self w') = Some Rm /\
    length P = Z.to_nat 2 /\ wf2 Rm /\ nrow Rm = 3%nat /\ ncol Rm = Z.to_nat 2.
Proof.
  destruct (fit_tables toy_PCA no_int_of_str [[-1; 1]; [1; -1]; [-1; 1]] 2 2 false tie_world
              toy_PCA_shapes tie_world_has_carpet ltac:(cbn; lia))
    as (w' & P & Rm & Hrun & HP & HR & Hl & _ & Hwf & Hr & Hc & _).
  exists w', P, Rm. repeat split; assumption.
Defined.

(** ** [get_carpet] followed by [fit_pca_and_correlate] *)

Lemma reordered_of_reals (T : nat) (Xs : list (list R)) :
  reordered (of_reals T Xs)
  = of_reals T (map (fun i => nth i Xs [])
                    (sort_index (map (corr_gs (of_reals T Xs)) (rows (of_reals T Xs))))).
Proof.
  unfold reordered, of_reals. cbn [ncol rows]. f_equal.
  rewrite (map_map (fun i : nat => nth i Xs []) (map Fin)). apply map_ext. intros i.
  change (@nil float64) with (map Fin (@nil R)). apply map_nth.
Qed.

(** X25.  The two methods in sequence.  If [get_carpet] gets as far as a
    carpet, at least one voxel is retained, no retained voxel is constant
    in time, and 0 <= ncomp <= min(V, T) for the V retained voxels, then
    [get_carpet] returns and the following [fit_pca_and_correlate]
    returns as well; it stores [ncomp], a component table of ncomp columns
    and a V x ncomp correlation matrix, and leaves the carpet as
    [get_carpet] stored it. *)
Theorem get_carpet_then_fit (PCA_fit_transform : list (list R) -> PCA_model)
    (int_of_str : string -> option Z) (th : option R) (reorder save : bool)
    (n : Z) (save_pca_scores flip_sign : bool) (w : World) (idx : list nat) :
  sklearn_shapes PCA_fit_transform ->
  carpet_pre (self w) th ->
  indices_valid (self w) th = Ok idx -> idx <> [] ->
  (forall v, In v idx -> Rstd (voxel_series (self w) v) <> 0) ->
  (0 <= n <= Z.of_nat (Nat.min (length idx) (t (self w))))%Z ->
  exists w1 w2 P Rm,
    get_carpet th reorder save w = (w1, Ok tt) /\
    fit_pca_and_correlate PCA_fit_transform int_of_str (PyInt n)
                          save_pca_scores flip_sign w1 = (w2, Ok tt) /\
    carpet (self w2) = carpet (self w1) /\
    ncomp (self w2) = Some n /\
    PCs (self w2) = Some P /\ PC_carpet_R (self w2) = Some Rm.
Proof.
  intros Hsh Hpre Hidx Hne Hstd Hn.
  rewrite indices_valid_spec in Hidx by assumption. injection Hidx as <-.
  fold (retained_indices (self w) th) in *.
  set (idx := retained_indices (self w) th) in *.
  pose proof Hpre as (Hwf & Ht & _).
  assert (Hin : forall v, In v idx -> (v < nvox (self w))%nat /\ retained (self w) th v).
  { intros v Hv. unfold idx, retained_indices in Hv. apply filter_In in Hv.
    destruct Hv as [Hv Hr]. apply in_seq in Hv. apply retainedb_true_iff in Hr.
    split; [lia|assumption]. }
  set (Xs := map (fun v => Rzscore (voxel_series (self w) v)) idx).
  assert (Hnorm : normalized_carpet (self w) th = of_reals (t (self w)) Xs).
  { unfold normalized_carpet, of_reals, Xs. f_equal.
    rewrite map_map. apply map_ext_in. intros v Hv.
    destruct (Hin v Hv) as [Hlt Hr].
    apply zscore_row_Fin; [|now apply Hstd].
    now apply (voxel_series_nonempty (self w) v). }
  assert (HXs : Forall (fun r => length r = t (self w)) Xs).
  { unfold Xs. apply Forall_map, Forall_forall. intros v Hv. cbn beta.
    rewrite length_Rzscore. destruct (Hin v Hv) as [Hlt _].
    now apply (voxel_series_nonempty (self w) v). }
  assert (HlXs : length Xs = length idx) by (unfold Xs; apply length_map).
  set (keys := map (corr_gs (of_reals (t (self w)) Xs)) (rows (of_reals (t (self w)) Xs))).
  assert (Hlk : length keys = length idx).
  { unfold keys, of_reals. cbn [rows]. now rewrite !length_map. }
  set (X := if reorder then map (fun i => nth i Xs []) (sort_index keys) else Xs).
  assert (Hfinal : final_carpet (self w) th reorder = of_reals (t (self w)) X).
  { unfold final_carpet, X. rewrite Hnorm. destruct reorder; [|reflexivity].
    apply reordered_of_reals. }
  assert (HlX : length X = length idx).
  { unfold X. destruct reorder; [|exact HlXs].
    rewrite length_map, (Permutation_length (sort_index_perm keys)), length_seq.
    exact Hlk. }
  assert (HX : Forall (fun r => length r = t (self w)) X).
  { unfold X. destruct reorder; [|exact HXs].
    apply Forall_map, Forall_forall. intros i Hi. cbn beta.
    pose proof (sort_index_lt keys) as Hlt. rewrite Forall_forall in Hlt.
    specialize (Hlt i Hi). rewrite Forall_forall in HXs. apply HXs, nth_In. lia. }
  set (w1 := mkWorld (set_carpet (final_carpet (self w) th reorder) (self w))
                     (if save
                      then ("carpet.npy"%string,
                            NpyArray (final_carpet (self w) th reorder)) :: disk w
                      else disk w)).
  assert (Hcar : has_carpet w1 X (t (self w))).
  { unfold has_carpet, w1. cbn [self carpet set_carpet].
    split; [now rewrite Hfinal|]. split; [exact HX|]. split; [|exact Ht].
    intros E. rewrite E in HlX. cbn in HlX. destruct idx; [congruence|discriminate]. }
  exists w1. do 3 eexists.
  split; [now apply get_carpet_run|].
  split; [apply (fit_run _ _ Hsh X (t (self w))); [exact Hcar|now rewrite HlX]|].
  cbn [self carpet ncomp PCs PC_carpet_R set_PCs set_expl_var set_ncomp].
  repeat split; reflexivity.
Qed.

Lemma tie_indices_nonconstant (v : nat) :
  In v [0; 1]%nat -> Rstd (voxel_series tie_dataset v) <> 0.
Proof.
  intros [<-|[<-|[]]].
  - change (voxel_series tie_dataset 0) with [0; 2]. rewrite Rstd_pair; lra.
  - change (voxel_series tie_dataset 1) with [2; 0]. rewrite Rstd_pair; lra.
Qed.

Lemma get_carpet_then_fit_witness :
  exists w1 w2 P Rm,
    get_carpet None true true (mkWorld tie_dataset []) = (w1, Ok tt) /\
    fit_pca_and_correlate toy_PCA no_int_of_str (PyInt 2) false true w1 = (w2, Ok tt) /\
    carpet (self w2) = carpet (self w1) /\
    ncomp (self w2) = Some 2%Z /\
    PCs (self w2) = Some P /\ PC_carpet_R (self w2) = Some Rm.
Proof.
  apply (get_carpet_then_fit toy_PCA no_int_of_str None true true 2 false true
           (mkWorld tie_dataset []) [0; 1]%nat).
  - exact toy_PCA_shapes.
  - exact tie_pre.
  - change (indices_valid tie_dataset None = Ok [0; 1]%nat).
    rewrite (indices_valid_spec tie_dataset None tie_pre). f_equal.
    exact tie_retained_indices.
  - discriminate.
  - exact tie_indices_nonconstant.
  - cbn. lia.
Defined.

(** ** [fit_pca_and_correlate]: a negative [ncomp] *)

(** X26.  A negative int [ncomp] is not refused as such.  With k =
    min(V, T) fitted components: for ncomp <= -k the slices [:ncomp] are
    empty, the call returns, and it stores an empty component table and a
    V x 0 correlation matrix; for -k < ncomp < 0 the slice keeps k + ncomp
    components for an empty list of labels and the call fails with
    [ValueError] when the table is built, the earlier tables of the object
    untouched. *)
Theorem fit_negative_ncomp (PCA_fit_transform : list (list R) -> PCA_model)
    (int_of_str : string -> option Z)
    (X : list (list R)) (T : nat) (n : Z) (save_pca_scores flip_sign : bool) (w : World) :
  sklearn_shapes PCA_fit_transform ->
  has_carpet w X T ->
  (n < 0)%Z ->
  ((n <= - Z.of_nat (Nat.min (length X) T))%Z ->
   exists w',
     fit_pca_and_correlate PCA_fit_transform int_of_str (PyInt n)
                           save_pca_scores flip_sign w = (w', Ok tt) /\
     ncomp (self w') = Some n /\
     PCs (self w') = Some [] /\
     PC_carpet_R (self w') = Some (mk2 0 (map (fun _ => []) X))) /\
  ((- Z.of_nat (Nat.min (length X) T) < n)%Z ->
   exists w',
     fit_pca_and_correlate PCA_fit_transform int_of_str (PyInt n)
                           save_pca_scores flip_sign w
     = (w', Raise (ValueError "Shape of passed values does not match the indices")) /\
     ncomp (self w') = Some n /\
     PCs (self w') = PCs (self w) /\ PC_carpet_R (self w') = PC_carpet_R (self w)).
Proof.
  intros Hsh Hcar Hneg. split; intros Hn.
  - eexists. split; [now apply (fit_run_negative _ _ X T)|].
    cbn [self ncomp PCs PC_carpet_R set_PCs set_expl_var set_ncomp].
    repeat split; reflexivity.
  - eexists. split; [now apply (fit_run_negative_raise _ _ X T)|].
    cbn [self ncomp PCs PC_carpet_R set_PCs set_expl_var set_ncomp].
    repeat split; reflexivity.
Qed.

Lemma fit_negative_ncomp_witness :
  (exists w',
     fit_pca_and_correlate toy_PCA no_int_of_str (PyInt (-2)) false true tie_world
     = (w', Ok tt) /\
     ncomp (self w') = Some (-2)%Z /\
     PCs (self w') = Some [] /\
     PC_carpet_R (self w') = Some (mk2 0 [[]; []; []])) /\
  (exists w',
     fit_pca_and_correlate toy_PCA no_int_of_str (PyInt (-1)) false true tie_world
     = (w', Raise (ValueError "Shape of passed values does not match the indices")) /\
     ncomp (self w') = Some (-1)%Z /\
     PCs (self w') = PCs (self tie_world) /\
     PC_carpet_R (self w') = PC_carpet_R (self tie_world)).
Proof.
  split.
  - apply (fit_negative_ncomp toy_PCA no_int_of_str [[-1; 1]; [1; -1]; [-1; 1]] 2 (-2)
             false true tie_world toy_PCA_shapes tie_world_has_carpet); cbn; lia.
  - apply (fit_negative_ncomp toy_PCA no_int_of_str [[-1; 1]; [1; -1]; [-1; 1]] 2 (-1)
             false true tie_world toy_PCA_shapes tie_world_has_carpet); cbn; lia.
Defined.

(** ** [fit_pca_and_correlate]: a str [ncomp] *)

(** X27.  A str passed as [ncomp] on a finite carpet: whether or not
    [int] can read it, the call fits the decomposition, stores the
    explained variance, writes the full components and the variance (and
    the scores, if asked), and only then raises [TypeError] at
    [range(ncomp)].  [self.ncomp] holds the converted number if [int]
    succeeded and is as before if it raised [ValueError]; the component
    table, the correlation matrix and the two csv files are not
    produced. *)
Theorem fit_str_ncomp (PCA_fit_transform : list (list R) -> PCA_model)
    (int_of_str : string -> option Z)
    (X : list (list R)) (T : nat) (s : string) (save_pca_scores flip_sign : bool) (w : World) :
  has_carpet w X T ->
  exists w',
    fit_pca_and_correlate PCA_fit_transform int_of_str (PyStr s) save_pca_scores flip_sign w
    = (w', Raise (TypeError "'str' object cannot be interpreted as an integer")) /\
    ncomp (self w') = match int_of_str s with
                      | Some k => Some k
                      | None => ncomp (self w)
                      end /\
    expl_var (self w') = Some (explained_variance_ratio_ (PCA_fit_transform X)) /\
    PCs (self w') = PCs (self w) /\ PC_carpet_R (self w') = PC_carpet_R (self w) /\
    disk w'
    = (if save_pca_scores
       then [("pca_scores_all.npy"%string, NpyArray (pca_scores (PCA_fit_transform X)))]
       else [])
      ++ ("pca_explained_variance_all.npy"%string,
          NpyVector (explained_variance_ratio_ (PCA_fit_transform X)))
      :: ("pca_components_all.npy"%string,
          NpyArray (of_reals T (components_ (PCA_fit_transform X))))
      :: disk w.
Proof.
  intros (Hc & HX & Hne & HT).
  exists (mkWorld
            (set_expl_var (explained_variance_ratio_ (PCA_fit_transform X))
                          (after_int int_of_str (PyStr s) (self w)))
            ((if save_pca_scores
              then [("pca_scores_all.npy"%string, NpyArray (pca_scores (PCA_fit_transform X)))]
              else [])
             ++ ("pca_explained_variance_all.npy"%string,
                 NpyVector (explained_variance_ratio_ (PCA_fit_transform X)))
             :: ("pca_components_all.npy"%string,
                 NpyArray (of_reals T (components_ (PCA_fit_transform X))))
             :: disk w)).
  split.
  - unfold fit_pca_and_correlate.
    unfold bind at 1. rewrite try_set_ncomp_run.
    unfold bind at 1. unfold get_self. cbn [self].
    unfold bind at 1. unfold lift at 1. rewrite carpet_after_int, Hc.
    unfold bind at 1. unfold lift at 1. rewrite check_array_reals by assumption.
    unfold bind at 1. unfold update_self at 1.
    unfold bind at 1. unfold save_file at 1.
    unfold bind at 1. unfold save_file at 1.
    unfold bind at 1. rewrite when_save_run. cbn [self disk].
    unfold bind at 1. unfold lift at 1. cbn [py_range].
    reflexivity.
  - cbn [self disk]. unfold after_int. cbn [py_int].
    destruct (int_of_str s); repeat split; reflexivity.
Qed.

Lemma fit_str_ncomp_witness :
  exists w',
    fit_pca_and_correlate toy_PCA no_int_of_str (PyStr "five") false true tie_world
    = (w', Raise (TypeError "'str' object cannot be interpreted as an integer")) /\
    ncomp (self w') = None /\ PCs (self w') = None.
Proof.
  destruct (fit_str_ncomp toy_PCA no_int_of_str [[-1; 1]; [1; -1]; [-1; 1]] 2 "five"
              false true tie_world tie_world_has_carpet)
    as (w' & Hrun & Hn & _ & HP & _).
  exists w'. repeat split; assumption.
Defined.
